(** * A shallow embedding of the DIA-Umpire processing pipeline

    The pipeline of [Improved_Python_Processing_Script] drives five external
    tools over a workspace of three directories.  This development embeds
    the orchestration code (string tests on file names, directory
    bookkeeping, the order of the stages, what ends the run) and proves
    properties of it.  The external tools, the clock, the console input and
    the spreadsheet writer are parameters ([Env]); the hard-coded paths of
    [main.py] and [folder_structure.py] are a [Config]. *)

From stdpp Require Import gmap strings list fin_maps pretty.
From Stdlib Require Import ZArith Ascii.

(* ===================================================================== *)
(** * Python strings *)
(* ===================================================================== *)

Module PyStr.

Definition chars (s : string) : list ascii := String.list_ascii_of_string s.
Definition str (l : list ascii) : string := String.string_of_list_ascii l.

(** [s.endswith(suf)] and [s.startswith(pre)]. *)
Definition endswith (s suf : string) : bool :=
  bool_decide (chars suf `suffix_of` chars s).
Definition startswith (s pre : string) : bool :=
  bool_decide (chars pre `prefix_of` chars s).

(** [s.endswith(t)] for a tuple [t] of suffixes. *)
Definition endswith_any (s : string) (sufs : list string) : bool :=
  existsb (endswith s) sufs.

(** [s[:-n]]; Python reads [s[:-0]] as [s[:0]], the empty string. *)
Definition slice_to_neg (s : string) (n : nat) : string :=
  match n with
  | O => ""
  | S _ => str (take (length (chars s) - n)%nat (chars s))
  end.

(** [sep.join(l)]. *)
Fixpoint join (sep : string) (l : list string) : string :=
  match l with
  | [] => ""
  | [x] => x
  | x :: rest => x +:+ sep +:+ join sep rest
  end.

(** The line feed, for messages that contain one. *)
Definition nl : string := String "010"%char EmptyString.

(** [s.strip()] on the ASCII white space characters. *)
Definition is_space (c : ascii) : bool :=
  let n := nat_of_ascii c in
  bool_decide (n = 32 ∨ (9 ≤ n ∧ n ≤ 13) ∨ (28 ≤ n ∧ n ≤ 31))%nat.
Fixpoint lstrip (l : list ascii) : list ascii :=
  match l with
  | c :: l' => if is_space c then lstrip l' else l
  | [] => []
  end.
Definition strip (s : string) : string :=
  str (rev (lstrip (rev (lstrip (chars s))))).

(** [s.replace(old, new)] for a non-empty [old]: every occurrence, left to
    right, without overlap.  [skip] counts the characters of a match
    still to drop. *)
Fixpoint replace_go (old new : list ascii) (skip : nat) (s : list ascii)
  : list ascii :=
  match s with
  | [] => []
  | c :: s' =>
      match skip with
      | S k => replace_go old new k s'
      | O => if bool_decide (old `prefix_of` s)
             then new ++ replace_go old new (length old - 1)%nat s'
             else c :: replace_go old new 0%nat s'
      end
  end.
Definition replace (s old new : string) : string :=
  str (replace_go (chars old) (chars new) 0%nat (chars s)).

(** [os.path.splitext]: the extension starts at the last dot of the last
    path component, unless that component has only dots before it. *)
Definition is_sep (c : ascii) : bool := bool_decide (c = "/"%char).
Definition is_dot (c : ascii) : bool := bool_decide (c = "."%char).

(** Splits the reversed string at its first dot: the characters after the
    last dot (reversed) and the ones before it (reversed). *)
Fixpoint split_rdot (r : list ascii) : option (list ascii * list ascii) :=
  match r with
  | [] => None
  | c :: r' =>
      if is_dot c then Some ([], r')
      else match split_rdot r' with
           | Some (e, p) => Some (c :: e, p)
           | None => None
           end
  end.

(** The leading characters of the reversed root up to the separator: the
    file name part. *)
Fixpoint rname (r : list ascii) : list ascii :=
  match r with
  | [] => []
  | c :: r' => if is_sep c then [] else c :: rname r'
  end.

Definition splitext (p : string) : string * string :=
  match split_rdot (rev (chars p)) with
  | None => (p, "")
  | Some (rext, rroot) =>
      if existsb is_sep rext then (p, "")
      else if forallb is_dot (rname rroot) then (p, "")
      else (str (rev rroot), str ("."%char :: rev rext))
  end.

End PyStr.

(* ===================================================================== *)
(** * The operating system: file system, processes, clock *)
(* ===================================================================== *)

(** A path is the list of its components below the file-system root;
    [os.path.join(d, n)] with a relative name [n] appends one component. *)
Abbreviation path := (list string) (only parsing).

Module Os.

(** What [os.stat] tells the pipeline about a path: its kind and size. *)
Inductive node := File (size : N) | Dir (size : N).

#[global] Instance node_eq_dec : EqDecision node.
Proof. solve_decision. Defined.

Inductive exn_class :=
| CalledProcessError | PermissionError | FileNotFoundError
| FileExistsError | IsADirectoryError | NotADirectoryError
| OSError | TypeError | KeyError | EOFError.

#[global] Instance exn_class_eq_dec : EqDecision exn_class.
Proof. solve_decision. Defined.

(** A raised exception: its class and [str(e)]. *)
Record exn := Exn { exn_cls : exn_class; exn_text : string }.

#[global] Instance exn_eq_dec : EqDecision exn.
Proof. solve_decision. Defined.

Inductive result (A : Type) := Ok (a : A) | Err (e : exn).
Arguments Ok {A} a.
Arguments Err {A} e.

Definition join (d : path) (n : string) : path := d ++ [n].
Definition dirname (p : path) : path := removelast p.
Definition basename (p : path) : string := List.last p "".
Definition path_str (p : path) : string := PyStr.join "/" p.

Section FileSystem.
Implicit Types (fs : gmap path node) (p d : path).

Definition exists_ fs p : bool := bool_decide (is_Some (fs !! p)).
Definition isdir fs p : bool :=
  match fs !! p with Some (Dir _) => true | _ => false end.
Definition isfile fs p : bool :=
  match fs !! p with Some (File _) => true | _ => false end.

(** [k] without its prefix [d], when it has it. *)
Fixpoint strip_prefix (d k : path) : option path :=
  match d, k with
  | [], _ => Some k
  | x :: d', y :: k' => if decide (x = y) then strip_prefix d' k' else None
  | _ :: _, [] => None
  end.

Definition child_name (d k : path) : option string :=
  match strip_prefix d k with Some [n] => Some n | _ => None end.

Definition children fs d : list string :=
  omap (λ kv : path * node, child_name d kv.1) (map_to_list fs).

Definition listdir fs d : result (list string) :=
  if isdir fs d then Ok (children fs d)
  else if exists_ fs d
       then Err (Exn NotADirectoryError (path_str d))
       else Err (Exn FileNotFoundError (path_str d)).

Definition getsize fs p : result N :=
  match fs !! p with
  | Some (File n) | Some (Dir n) => Ok n
  | None => Err (Exn FileNotFoundError (path_str p))
  end.

(** [os.remove]: regular files only; a file held open by another
    process ([inuse]) cannot be deleted. *)
Definition remove (inuse : gset path) fs p : result (gmap path node) :=
  match fs !! p with
  | Some (File _) =>
      if decide (p ∈ inuse) then Err (Exn PermissionError (path_str p))
      else Ok (delete p fs)
  | Some (Dir _) => Err (Exn IsADirectoryError (path_str p))
  | None => Err (Exn FileNotFoundError (path_str p))
  end.

(** [os.rmdir]: empty directories only. *)
Definition rmdir fs p : result (gmap path node) :=
  match fs !! p with
  | Some (Dir _) =>
      match children fs p with
      | [] => Ok (delete p fs)
      | _ :: _ => Err (Exn OSError (path_str p))
      end
  | Some (File _) => Err (Exn NotADirectoryError (path_str p))
  | None => Err (Exn FileNotFoundError (path_str p))
  end.

(** The non-empty prefixes of a path, shortest first. *)
Fixpoint prefixes (acc p : path) : list path :=
  match p with
  | [] => []
  | c :: p' => (acc ++ [c]) :: prefixes (acc ++ [c]) p'
  end.

Fixpoint mkdir_all (dsize : N) (qs : list path) fs
  : result (gmap path node) :=
  match qs with
  | [] => Ok fs
  | q :: qs' =>
      match fs !! q with
      | None => mkdir_all dsize qs' (<[q := Dir dsize]> fs)
      | Some (Dir _) => mkdir_all dsize qs' fs
      | Some (File _) => Err (Exn NotADirectoryError (path_str q))
      end
  end.

(** [os.makedirs(p, exist_ok)]: creates [p] and its missing ancestors. *)
Definition makedirs (dsize : N) (exist_ok : bool) fs p
  : result (gmap path node) :=
  match fs !! p with
  | Some (Dir _) =>
      if exist_ok then Ok fs else Err (Exn FileExistsError (path_str p))
  | Some (File _) => Err (Exn FileExistsError (path_str p))
  | None => mkdir_all dsize (prefixes [] p) fs
  end.

(** Moves the entries at and below [src] to [dst]. *)
Definition rekey (src dst k : path) : path :=
  match strip_prefix src k with
  | Some rest => dst ++ rest
  | None => k
  end.

Definition move_tree (src dst : path) fs : gmap path node :=
  list_to_map
    (map (λ kv : path * node, (rekey src dst kv.1, kv.2)) (map_to_list fs)).

(** [os.replace(src, dst)]. *)
Definition replace fs (src dst : path) : result (gmap path node) :=
  match fs !! src with
  | None => Err (Exn FileNotFoundError (path_str src))
  | Some n =>
      if decide (src = dst) then Ok fs
      else if negb (isdir fs (dirname dst))
      then Err (Exn FileNotFoundError (path_str dst))
      else
        match n, fs !! dst with
        | File _, Some (Dir _) => Err (Exn IsADirectoryError (path_str dst))
        | File _, _ => Ok (<[dst := n]> (delete src fs))
        | Dir _, Some (File _) =>
            Err (Exn NotADirectoryError (path_str dst))
        | Dir _, other =>
            if bool_decide (is_Some (strip_prefix src dst))
            then Err (Exn OSError (path_str dst))
            else
              match other, children fs dst with
              | Some _, _ :: _ => Err (Exn OSError (path_str dst))
              | _, _ => Ok (move_tree src dst (delete dst fs))
              end
        end
  end.

(** [open(p, "w")], the writes and the close: [p] becomes a regular file
    of [size] bytes. *)
Definition write_file (size : N) fs p : result (gmap path node) :=
  match fs !! p with
  | Some (Dir _) => Err (Exn IsADirectoryError (path_str p))
  | _ =>
      if isdir fs (dirname p) then Ok (<[p := File size]> fs)
      else Err (Exn FileNotFoundError (path_str p))
  end.

(** [open(p, "a")]: creates an empty file when there is none. *)
Definition open_append fs p : result (gmap path node) :=
  match fs !! p with
  | Some (Dir _) => Err (Exn IsADirectoryError (path_str p))
  | Some (File _) => Ok fs
  | None =>
      if isdir fs (dirname p) then Ok (<[p := File 0]> fs)
      else Err (Exn FileNotFoundError (path_str p))
  end.

End FileSystem.

(** How a launched process ends, or why it could not be launched. *)
Inductive proc_result :=
| Exited (returncode : Z) (stdout stderr : string)
| NotLaunched (e : exn).

Record CompletedProcess :=
  { returncode : Z; stdout : string; stderr : string }.

End Os.

Export Os.

(* ===================================================================== *)
(** * The environment and the hard-coded configuration *)
(* ===================================================================== *)

(** Everything the pipeline cannot decide itself. *)
Record Env := {
  (** the [n]-th external command of the run: its effect on the file
      system and how it ends *)
  exec : nat → list string → gmap path node → proc_result * gmap path node;
  (** the line [input()] reads; [None] at end of input *)
  input_line : option string;
  (** the [n]-th reading of [time.time()] *)
  time_at : nat → Z;
  (** [time.strftime(fmt, time.localtime(t))] and, with [false],
      [time.strftime(fmt, time.gmtime(t))] *)
  strftime : string → bool → Z → string;
  (** the exception [time.gmtime(t)] raises when the platform cannot
      convert [t] seconds (a negative number on Windows, a number out of
      the range of the C type), if any; the script passes it differences
      of two clock readings *)
  gmtime_error : Z → option exn;
  (** size the system reports for a directory it has just created *)
  mkdir_size : N;
  (** number of bytes a text takes once written to a file *)
  encoded_size : string → N;
  (** [pandas.read_csv(src)] followed by [to_excel(dst)] *)
  to_excel : path → path → gmap path node → result (gmap path node)
}.

(** The paths written into [main.py] and [FolderStructure.__init__], and
    the working directory the script is started in. *)
Record Config := {
  cwd : path;
  cfg_raw_dir : path;
  cfg_thermo_file_parser : path;
  cfg_java_executable : path;
  cfg_dia_umpire_se : path;
  cfg_search_gui : path;
  cfg_peptide_shaker : path
}.

(* ===================================================================== *)
(** * The Python run time: state, exceptions, [sys.exit], logging *)
(* ===================================================================== *)

Module Py.

Inductive level := INFO | WARNING | ERROR.

#[global] Instance level_eq_dec : EqDecision level.
Proof. solve_decision. Defined.

(** The root logger: without handlers yet, with the default handler and
    threshold WARNING, or configured by [main] with threshold INFO. *)
Inductive logcfg := Unconfigured | AtWarning | AtInfo.

(** Whether a record of level [lvl] passes the threshold. *)
Definition passes (c : logcfg) (lvl : level) : bool :=
  match c, lvl with
  | AtInfo, _ => true
  | _, INFO => false
  | _, _ => true
  end.

(** The state of the run.  [w_log] is the stream of records the root
    logger lets through (the run log on disk holds the same records; the
    file-system entry of that file only says that it exists).  [w_calls]
    lists the external commands run so far; [w_trace] the methods
    [main()] has called so far. *)
Record World := mkWorld {
  w_fs : gmap path node;
  w_inuse : gset path;
  w_logcfg : logcfg;
  w_log : list (level * string);
  w_calls : list (list string);
  w_ticks : nat;
  w_trace : list string
}.

(** The state a process starts in. *)
Definition initial_world (fs : gmap path node) (inuse : gset path) : World :=
  mkWorld fs inuse Unconfigured [] [] 0 [].

Definition set_fs (fs : gmap path node) (w : World) : World :=
  mkWorld fs (w_inuse w) (w_logcfg w) (w_log w) (w_calls w) (w_ticks w)
          (w_trace w).

(** How a computation ends: with a value, with an exception on its way
    up, or with [sys.exit(code)]. *)
Inductive res (A : Type) := Val (a : A) | Exc (e : exn) | Exit (code : Z).
Arguments Val {A} a.
Arguments Exc {A} e.
Arguments Exit {A} code.

Definition M (A : Type) : Type := World → res A * World.

#[global] Instance M_ret : MRet M := λ A a w, (Val a, w).
#[global] Instance M_bind : MBind M := λ A B f m w,
  match m w with
  | (Val a, w') => f a w'
  | (Exc e, w') => (Exc e, w')
  | (Exit c, w') => (Exit c, w')
  end.

Definition raise {A} (e : exn) : M A := λ w, (Exc e, w).
Definition sys_exit {A} (code : Z) : M A := λ w, (Exit code, w).

(** [try: body except Exception as e: handler e]; a handler for one class
    re-raises the others. *)
Definition try_except {A} (body : M A) (handler : exn → M A) : M A := λ w,
  match body w with
  | (Exc e, w') => handler e w'
  | r => r
  end.

(** [try: body except: handler], which also catches [SystemExit]. *)
Definition try_bare {A} (body : M A) (handler : M A) : M A := λ w,
  match body w with
  | (Val a, w') => (Val a, w')
  | (_, w') => handler w'
  end.

Fixpoint for_ {A} (l : list A) (body : A → M unit) : M unit :=
  match l with
  | [] => mret tt
  | x :: l' => body x ;; for_ l' body
  end.

(** A [for] loop whose body updates local variables or an object. *)
Fixpoint for_acc {A S} (l : list A) (s : S) (body : S → A → M S) : M S :=
  match l with
  | [] => mret s
  | x :: l' => s' ← body s x; for_acc l' s' body
  end.

(** The module-level functions [logging.info] and the like: the first
    call on a root logger without handlers gives it the default handler,
    with threshold WARNING. *)
Definition log (lvl : level) (msg : string) : M unit := λ w,
  let c := match w_logcfg w with Unconfigured => AtWarning | c => c end in
  (Val tt,
   mkWorld (w_fs w) (w_inuse w) c
           (if passes c lvl then w_log w ++ [(lvl, msg)] else w_log w)
           (w_calls w) (w_ticks w) (w_trace w)).

(** [logging.basicConfig(level=logging.INFO, ...)] does nothing once the
    root logger has handlers. *)
Definition basicConfig_info : M unit := λ w,
  (Val tt,
   mkWorld (w_fs w) (w_inuse w)
           (match w_logcfg w with Unconfigured => AtInfo | c => c end)
           (w_log w) (w_calls w) (w_ticks w) (w_trace w)).

Definition enter (method : string) : M unit := λ w,
  (Val tt,
   mkWorld (w_fs w) (w_inuse w) (w_logcfg w) (w_log w) (w_calls w)
           (w_ticks w) (w_trace w ++ [method])).

Definition fs_read {A} (f : gmap path node → A) : M A := λ w,
  (Val (f (w_fs w)), w).

Definition fs_try {A} (f : gmap path node → result A) : M A := λ w,
  match f (w_fs w) with
  | Ok a => (Val a, w)
  | Err e => (Exc e, w)
  end.

Definition fs_update (f : gmap path node → result (gmap path node))
  : M unit := λ w,
  match f (w_fs w) with
  | Ok fs' => (Val tt, set_fs fs' w)
  | Err e => (Exc e, w)
  end.

Definition os_remove (p : path) : M unit := λ w,
  match remove (w_inuse w) (w_fs w) p with
  | Ok fs' => (Val tt, set_fs fs' w)
  | Err e => (Exc e, w)
  end.

Section WithEnv.
Context (env : Env).

Definition time_time : M Z := λ w,
  (Val (time_at env (w_ticks w)),
   mkWorld (w_fs w) (w_inuse w) (w_logcfg w) (w_log w) (w_calls w)
           (S (w_ticks w)) (w_trace w)).

Definition input_ : M string :=
  match input_line env with
  | Some s => mret s
  | None => raise (Exn EOFError "EOF when reading a line")
  end.

(** [time.strftime(fmt, time.gmtime(t))]. *)
Definition strftime_gmtime (fmt : string) (t : Z) : M string :=
  match gmtime_error env t with
  | Some e => raise e
  | None => mret (strftime env fmt false t)
  end.

Definition os_makedirs (exist_ok : bool) (p : path) : M unit :=
  fs_update (λ fs, makedirs (mkdir_size env) exist_ok fs p).

Definition write_text (p : path) (text : string) : M unit :=
  fs_update (λ fs, write_file (encoded_size env text) fs p).

(** Runs one external command to its end. *)
Definition run_process (argv : list string) : M proc_result := λ w,
  let '(r, fs') := exec env (length (w_calls w)) argv (w_fs w) in
  (Val r,
   mkWorld fs' (w_inuse w) (w_logcfg w) (w_log w) (w_calls w ++ [argv])
           (w_ticks w) (w_trace w)).

(** [subprocess.call(argv)]: the return code. *)
Definition subprocess_call (argv : list string) : M Z :=
  r ← run_process argv;
  match r with
  | Exited rc _ _ => mret rc
  | NotLaunched e => raise e
  end.

Definition called_process_error (argv : list string) (rc : Z) : exn :=
  Exn CalledProcessError
      ("Command '[" +:+ PyStr.join ", " (map (λ a, "'" +:+ a +:+ "'") argv)
       +:+ "]' returned non-zero exit status " +:+ pretty rc +:+ ".").

(** [subprocess.run(argv, capture_output=True, text=True, check=True)]:
    with [check=True] a non-zero return code raises. *)
Definition subprocess_run_check (argv : list string) : M CompletedProcess :=
  r ← run_process argv;
  match r with
  | Exited rc out err =>
      if bool_decide (rc = 0%Z)
      then mret {| returncode := rc; stdout := out; stderr := err |}
      else raise (called_process_error argv rc)
  | NotLaunched e => raise e
  end.

End WithEnv.

(** The status the process ends with: an uncaught exception prints a
    traceback and ends the process with status 1. *)
Definition exit_status {A} (r : res A) : Z :=
  match r with
  | Val _ => 0
  | Exc _ => 1
  | Exit c => c
  end.

End Py.

Export Py.

(* ===================================================================== *)
(** * folder_structure.py *)
(* ===================================================================== *)

Module FolderStructure.

Record t := mk {
  top_dir : path;
  log_file : string;
  script_start_time : Z;
  reference_name : option string;
  raw_dir : option path;
  java_executable : path;
  dia_umpire_se : path;
  search_gui : path;
  peptide_shaker : path;
  thermo_file_parser : path;
  DIA_Umpire_Parameters : path;
  SearchGUI_Parameters : path;
  FASTA_Database : path;
  log_start_time : option string
}.

Definition set_raw_dir (d : path) (s : t) : t :=
  mk (top_dir s) (log_file s) (script_start_time s) (reference_name s)
     (Some d) (java_executable s) (dia_umpire_se s) (search_gui s)
     (peptide_shaker s) (thermo_file_parser s) (DIA_Umpire_Parameters s)
     (SearchGUI_Parameters s) (FASTA_Database s) (log_start_time s).

Definition set_reference_name (n : string) (s : t) : t :=
  mk (top_dir s) (log_file s) (script_start_time s) (Some n)
     (raw_dir s) (java_executable s) (dia_umpire_se s) (search_gui s)
     (peptide_shaker s) (thermo_file_parser s) (DIA_Umpire_Parameters s)
     (SearchGUI_Parameters s) (FASTA_Database s) (log_start_time s).

Definition set_log_start_time (x : string) (s : t) : t :=
  mk (top_dir s) (log_file s) (script_start_time s) (reference_name s)
     (raw_dir s) (java_executable s) (dia_umpire_se s) (search_gui s)
     (peptide_shaker s) (thermo_file_parser s) (DIA_Umpire_Parameters s)
     (SearchGUI_Parameters s) (FASTA_Database s) (Some x).

(** The records logged just before [sys.exit(1)]. *)
Definition raw_missing_msg : string :=
  "The raw directory does not exist! Please create the raw directory and provide the data.".
Definition missing_list_msg (names : list string) : string :=
  "List of missing executables: " +:+ PyStr.join ", " names.
Definition parameters_missing_msg (names : list string) : string :=
  "Parameter Files Missing in top_dir: " +:+ PyStr.join "," names.

(** The two required directories besides [raw]. *)
Definition two_dirs : list string := ["processed"; "searched"].

Section WithEnv.
Context (env : Env) (cfg : Config).

Definition init (DIA_log_file : string) : M t :=
  now ← time_time env;
  mret (mk (cwd cfg) DIA_log_file now None None
           (cfg_java_executable cfg) (cfg_dia_umpire_se cfg)
           (cfg_search_gui cfg) (cfg_peptide_shaker cfg)
           (cfg_thermo_file_parser cfg)
           (join (cwd cfg) "umpire-se.params")
           (join (cwd cfg) "search.par")
           (join (cwd cfg) "database.fasta")
           None).

Definition default_log_file : string := "dia_umpire_automation.log".

Definition logging_setup (self : t) : M t :=
  let log_path := join (top_dir self) (log_file self) in
  there ← fs_read (λ fs, exists_ fs log_path);
  (if there : bool
   then try_except (os_remove log_path)
          (λ e, if decide (exn_cls e = PermissionError)
                then log WARNING
                       (path_str log_path +:+ " cannot be deleted. This file is currently being used in another process.")
                else raise e)
   else mret tt);;
  (* the handler list is built first: FileHandler opens the file *)
  fs_update (λ fs, open_append fs log_path);;
  basicConfig_info;;
  let started :=
    strftime env "%Y-%m-%d %H:%M:%S" true (script_start_time self) in
  log INFO ("Script started " +:+ started);;
  log INFO ("Top directory is " +:+ path_str (top_dir self));;
  mret (set_log_start_time started self).

Definition directory_setup (self : t) : M t :=
  log INFO "Setting up the working directories.";;
  let raw := join (top_dir self) "raw" in
  let self := set_raw_dir raw self in
  is_dir ← fs_read (λ fs, isdir fs raw);
  (if is_dir : bool
   then log INFO ("The raw directory has been set up: " +:+ path_str raw)
   else log ERROR raw_missing_msg;;
        sys_exit 1);;
  for_ two_dirs (λ dir_name,
    let dir_path := join (top_dir self) dir_name in
    is_dir ← fs_read (λ fs, isdir fs dir_path);
    if is_dir : bool
    then log INFO ("The following directory already exists:"
                   +:+ path_str dir_path)
    else os_makedirs env false dir_path;;
         log INFO ("The following directory has been created:"
                   +:+ path_str dir_path));;
  mret self.

Definition executables (self : t) : list (string * path) :=
  [ ("java_executable", java_executable self);
    ("dia_umpire_se", dia_umpire_se self);
    ("search_gui", search_gui self);
    ("peptide_shaker", peptide_shaker self);
    ("thermo_file_parser", thermo_file_parser self) ].

Definition thermo_warning : string :=
  ".mzML files will only be processed as thermo_file_parser has not been found".

(** The body of the loop over [executables.items()]. *)
Definition check_executable (missing : list string) (np : string * path)
  : M (list string) :=
  let '(name, p) := np in
  found ← fs_read (λ fs, exists_ fs p);
  if found : bool
  then log INFO (name +:+ " executable has been found at " +:+ path_str p);;
       mret missing
  else if decide (name = "thermo_file_parser")
  then log WARNING (".mzML files will only be processed as " +:+ name
                    +:+ " has not been found");;
       mret missing
  else log ERROR (name +:+ " cannot be found. Please provide the absolute filepath.");;
       mret (missing ++ [name]).

Definition executable_setup (self : t) : M unit :=
  missing_executables ← for_acc (executables self) [] check_executable;
  match missing_executables with
  | [] => mret tt
  | _ :: _ =>
      log ERROR (missing_list_msg missing_executables);;
      sys_exit 1
  end.

Definition parameter_files (self : t) : list (string * path) :=
  [ ("DIA_Umpire_Parameters", DIA_Umpire_Parameters self);
    ("SearchGUI_Parameters", SearchGUI_Parameters self);
    ("FASTA_Database", FASTA_Database self) ].

(** The body of the loop over [parameter_files.items()]; joining
    [top_dir] with the absolute [param_files] gives [param_files] back. *)
Definition check_parameter_file (top_dir : path) (missing : list string)
    (pf : string * path) : M (list string) :=
  let '(parameters, param_files) := pf in
  let file_path := param_files in
  found ← fs_read (λ fs, exists_ fs file_path);
  if found : bool
  then log INFO (path_str param_files
                 +:+ " parameter file has been found for " +:+ parameters);;
       mret missing
  else log ERROR (path_str param_files +:+ " for " +:+ parameters
                  +:+ " has not been found! Please place "
                  +:+ path_str param_files +:+ " in "
                  +:+ path_str top_dir +:+ ".");;
       mret (missing ++ [path_str param_files]).

Definition parameter_check (self : t) : M unit :=
  parameter_files_missing ←
    for_acc (parameter_files self) []
            (check_parameter_file (top_dir self));
  match parameter_files_missing with
  | [] => mret tt
  | _ :: _ =>
      log ERROR (parameters_missing_msg parameter_files_missing);;
      sys_exit 1
  end.

(** A string is false when it is [None] or empty. *)
Definition truthy (s : option string) : bool :=
  match s with Some (String _ _) => true | _ => false end.

Definition reference_name_setup (self : t) : M t :=
  if truthy (reference_name self) then mret self
  else
    log INFO "Please input a reference name for this data:";;
    line ← input_ env;
    let typed := PyStr.strip line in
    let name := if truthy (Some typed) then typed
                else basename (top_dir self) in
    log INFO ("'" +:+ name +:+ "' is the reference name for this data.");;
    mret (set_reference_name name self).

End WithEnv.

End FolderStructure.

(* ===================================================================== *)
(** * convert_raw_files.py *)
(* ===================================================================== *)

Module ConvertRawFiles.

Record t := mk {
  raw_dir : path;
  thermo_file_parser : path;
  raw_files : list string;
  files_to_convert : list string;
  thermo_raw_files : list string;
  raw_files_base : list string;
  raw_file_count : nat;
  conversion_start_time : option Z;
  conversion_end_time : option Z
}.

Definition init (raw_dir thermo_file_parser : path) : t :=
  mk raw_dir thermo_file_parser [] [] [] [] 0 None None.

Definition set_raw_files (l : list string) (s : t) : t :=
  mk (raw_dir s) (thermo_file_parser s) l (files_to_convert s)
     (thermo_raw_files s) (raw_files_base s) (raw_file_count s)
     (conversion_start_time s) (conversion_end_time s).

Definition set_thermo_raw_files (l : list string) (s : t) : t :=
  mk (raw_dir s) (thermo_file_parser s) (raw_files s) (files_to_convert s)
     l (raw_files_base s) (raw_file_count s)
     (conversion_start_time s) (conversion_end_time s).

Definition set_files_to_convert (l : list string) (s : t) : t :=
  mk (raw_dir s) (thermo_file_parser s) (raw_files s) l
     (thermo_raw_files s) (raw_files_base s) (raw_file_count s)
     (conversion_start_time s) (conversion_end_time s).

Definition set_raw_files_base (l : list string) (s : t) : t :=
  mk (raw_dir s) (thermo_file_parser s) (raw_files s) (files_to_convert s)
     (thermo_raw_files s) l (raw_file_count s)
     (conversion_start_time s) (conversion_end_time s).

Definition set_raw_file_count (n : nat) (s : t) : t :=
  mk (raw_dir s) (thermo_file_parser s) (raw_files s) (files_to_convert s)
     (thermo_raw_files s) (raw_files_base s) n
     (conversion_start_time s) (conversion_end_time s).

Definition set_conversion_start_time (x : Z) (s : t) : t :=
  mk (raw_dir s) (thermo_file_parser s) (raw_files s) (files_to_convert s)
     (thermo_raw_files s) (raw_files_base s) (raw_file_count s)
     (Some x) (conversion_end_time s).

Definition set_conversion_end_time (x : Z) (s : t) : t :=
  mk (raw_dir s) (thermo_file_parser s) (raw_files s) (files_to_convert s)
     (thermo_raw_files s) (raw_files_base s) (raw_file_count s)
     (conversion_start_time s) (Some x).

(** The body of the scan loop of [identify_raw_files]. *)
Definition classify (self : t) (f : string) : t :=
  if PyStr.endswith f ".mzML"
  then set_raw_files (raw_files self ++ [f]) self
  else if PyStr.endswith f ".raw"
  then set_thermo_raw_files (thermo_raw_files self ++ [f]) self
  else self.

(** The first loop of [convert_raw_files]: the .raw files to convert. *)
Definition select_files_to_convert (self : t) : t :=
  let self :=
    set_raw_files_base (map (λ f, PyStr.slice_to_neg f 5) (raw_files self))
                       self in
  foldl (λ self thermo_raw,
           if bool_decide (thermo_raw ∉ raw_files_base self)
           then set_files_to_convert (files_to_convert self ++ [thermo_raw])
                                     self
           else self)
        self (thermo_raw_files self).

Definition mzml_name (thermo_raw : string) : string :=
  PyStr.slice_to_neg thermo_raw 4 +:+ ".mzML".

Definition raw_dir_missing_msg : string :=
  "The raw directory cannot be found. Please create the raw directory.".
Definition no_files_msg : string :=
  "There are no more .mzML files to convert. Exiting the script now.".

Section WithEnv.
Context (env : Env).

Definition identify_raw_files (self : t) : M t :=
  log INFO "==========";;
  log INFO "Checking whether the raw directory exists. If so,the raw files will be identified based on file extension.";;
  is_dir ← fs_read (λ fs, isdir fs (raw_dir self));
  if is_dir : bool
  then fnames ← fs_try (λ fs, listdir fs (raw_dir self));
       mret (foldl classify self fnames)
  else log ERROR raw_dir_missing_msg;;
       sys_exit 1.

Definition conversion_command (self : t) (thermo_raw : string)
  : list string :=
  [ path_str (thermo_file_parser self);
    "-i"; path_str (join (raw_dir self) thermo_raw);
    "-b"; path_str (join (raw_dir self) (mzml_name thermo_raw)) ].

Definition convert_one (self : t) (thermo_raw : string) : M t :=
  let raw_file := mzml_name thermo_raw in
  log INFO ("Converting " +:+ thermo_raw +:+ " with Thermo File Parser");;
  return_code ← subprocess_call env (conversion_command self thermo_raw);
  self ← (if bool_decide (return_code = 0%Z)
          then log INFO ("Successfully converted to " +:+ raw_file);;
               mret (set_raw_files (raw_files self ++ [raw_file]) self)
          else log ERROR ("Failed to convert " +:+ thermo_raw +:+ " to "
                          +:+ raw_file);;
               mret self);
  now ← time_time env;
  mret (set_conversion_end_time now self).

Definition convert_raw_files (self : t) : M t :=
  let self := select_files_to_convert self in
  tool ← fs_read (λ fs, exists_ fs (thermo_file_parser self));
  if bool_decide (0 < length (files_to_convert self)) && tool
  then
    log INFO ("The process of converting "
              +:+ pretty (length (files_to_convert self))
              +:+ " Thermo RAW files to .mzML files will start now.");;
    now ← time_time env;
    let self := set_conversion_start_time now self in
    for_acc (files_to_convert self) self convert_one
  else mret self.

Definition check_converted_raw_files (self : t) : M t :=
  let self := set_raw_file_count (length (raw_files self)) self in
  if bool_decide (raw_file_count self = 0)
  then log WARNING no_files_msg;;
       sys_exit 1
  else mret self.

Definition retrieve_raw_file_count (self : t) : nat :=
  length (raw_files self).

End WithEnv.

End ConvertRawFiles.

(* ===================================================================== *)
(** * dia_umpire.py *)
(* ===================================================================== *)

Module DiaUmpire.

Record t := mk {
  convert_raw_files : ConvertRawFiles.t;
  raw_files : list string;
  number_of_raw_files : nat;
  failed_files : list string;
  dia_processed_files : gset string;
  umpire_start_time : option Z;
  umpire_end_time : option Z;
  folder_structure : FolderStructure.t;
  java_executable : path;
  dia_umpire_se : path;
  DIA_Umpire_Parameters : path
}.

Definition set_raw_files (l : list string) (s : t) : t :=
  mk (convert_raw_files s) l (number_of_raw_files s) (failed_files s)
     (dia_processed_files s) (umpire_start_time s) (umpire_end_time s)
     (folder_structure s) (java_executable s) (dia_umpire_se s)
     (DIA_Umpire_Parameters s).

Definition set_failed_files (l : list string) (s : t) : t :=
  mk (convert_raw_files s) (raw_files s) (number_of_raw_files s) l
     (dia_processed_files s) (umpire_start_time s) (umpire_end_time s)
     (folder_structure s) (java_executable s) (dia_umpire_se s)
     (DIA_Umpire_Parameters s).

Definition set_dia_processed_files (x : gset string) (s : t) : t :=
  mk (convert_raw_files s) (raw_files s) (number_of_raw_files s)
     (failed_files s) x (umpire_start_time s) (umpire_end_time s)
     (folder_structure s) (java_executable s) (dia_umpire_se s)
     (DIA_Umpire_Parameters s).

Definition set_umpire_start_time (x : Z) (s : t) : t :=
  mk (convert_raw_files s) (raw_files s) (number_of_raw_files s)
     (failed_files s) (dia_processed_files s) (Some x) (umpire_end_time s)
     (folder_structure s) (java_executable s) (dia_umpire_se s)
     (DIA_Umpire_Parameters s).

Definition set_umpire_end_time (x : Z) (s : t) : t :=
  mk (convert_raw_files s) (raw_files s) (number_of_raw_files s)
     (failed_files s) (dia_processed_files s) (umpire_start_time s) (Some x)
     (folder_structure s) (java_executable s) (dia_umpire_se s)
     (DIA_Umpire_Parameters s).

(** [list(set(l))]: the distinct elements, in the order of the set. *)
Definition list_set (l : list string) : list string :=
  elements (list_to_set l : gset string).

Section WithEnv.
Context (env : Env) (cfg : Config).

Definition init (convert_raw_files_instance : ConvertRawFiles.t) : M t :=
  fsm ← FolderStructure.init env cfg FolderStructure.default_log_file;
  mret (mk convert_raw_files_instance
           (ConvertRawFiles.raw_files convert_raw_files_instance)
           (length (ConvertRawFiles.raw_files convert_raw_files_instance))
           [] ∅ None None fsm
           (FolderStructure.java_executable fsm)
           (FolderStructure.dia_umpire_se fsm)
           (FolderStructure.DIA_Umpire_Parameters fsm)).

Definition umpire_command (self : t) (raw_file : string) : list string :=
  [ path_str (java_executable self); "-jar"; "-Xmx8G";
    path_str (dia_umpire_se self);
    path_str (join (ConvertRawFiles.raw_dir (convert_raw_files self))
                   raw_file);
    path_str (DIA_Umpire_Parameters self) ].

(** The log DIA-Umpire writes, [./raw/diaumpire_se.log], and the name it
    is given per file; both relative to the working directory. *)
Definition umpire_log : path :=
  join (join (cwd cfg) "raw") "diaumpire_se.log".
Definition file_log (raw_file : string) : path :=
  join (join (cwd cfg) "raw")
       (PyStr.slice_to_neg raw_file 5 +:+ "_diaumpire.log").

(** The two handlers of the loop; both append the file to
    [failed_files] of the object as the [try] block left it. *)
Definition record_failure (self : t) (raw_file : string) (e : exn) : M t :=
  if decide (exn_cls e = CalledProcessError)
  then log WARNING ("Error processing " +:+ raw_file +:+ ": "
                    +:+ exn_text e);;
       mret (set_failed_files (failed_files self ++ [raw_file]) self)
  else log ERROR ("Exception occurred processing " +:+ raw_file
                  +:+ ": " +:+ exn_text e);;
       mret (set_failed_files (failed_files self ++ [raw_file]) self).

(** One turn of the loop.  The [try] block updates the object once,
    by [self.dia_processed_files.add(raw_file)], and the statement after
    it can still raise ([time.gmtime] of the time the turn took): the
    handlers then run on the updated object.  The inner [try_except]
    stands for that: it is the same block with the same handlers, entered
    after the update. *)
Definition process_one (total : nat) (self : t) (ir : nat * string)
  : M t :=
  let '(index, raw_file) := ir in
  log INFO ("Processing " +:+ raw_file +:+ " (" +:+ pretty index +:+ "/"
            +:+ pretty total +:+ ") with DIA Umpire...");;
  _proc_time ← time_time env;
  try_except
    (umpire_process ← subprocess_run_check env
                        (umpire_command self raw_file);
     fs_update (λ fs, Os.replace fs umpire_log (file_log raw_file));;
     if bool_decide (returncode umpire_process ≠ 0%Z)
     then log WARNING ("Error! Please check ./raw/"
                       +:+ PyStr.slice_to_neg raw_file 5
                       +:+ "_diaumpire.log");;
          mret (set_failed_files (failed_files self ++ [raw_file]) self)
     else let self := set_dia_processed_files
                        ({[raw_file]} ∪ dia_processed_files self) self in
          try_except
            (now ← time_time env;
             took ← strftime_gmtime env "%M:%S" (now - _proc_time)%Z;
             log INFO ("File processed in " +:+ took +:+ " min:sec");;
             mret self)
            (record_failure self raw_file))
    (record_failure self raw_file).

Definition dia_file_processing (self : t) : M t :=
  log INFO "==========";;
  log INFO "DIA Umpire Processing will start now.";;
  let unique_raw_files := list_set (raw_files self) in
  log INFO (pretty (length unique_raw_files)
            +:+ " files will now be processed.");;
  now ← time_time env;
  let self := set_umpire_start_time now self in
  self ← for_acc (zip (seq 1 (length unique_raw_files)) unique_raw_files)
                 self (process_one (length unique_raw_files));
  let self :=
    set_raw_files
      (filter (λ f, f ∉ failed_files self) (raw_files self)) self in
  log INFO (pretty (size (dia_processed_files self))
            +:+ " files have been successfully processed with DIA-Umpire.");;
  now ← time_time env;
  mret (set_umpire_end_time now self).

End WithEnv.

End DiaUmpire.

(* ===================================================================== *)
(** * clean_unneeded_files.py *)
(* ===================================================================== *)

Module CleanFiles.

Record t := mk { unneeded_files : list string }.

Definition init : t :=
  mk [ ".DIAWindowsFS"; ".RTidxFS"; ".ScanClusterMapping_Q1";
       ".ScanClusterMapping_Q2"; ".ScanClusterMapping_Q3"; ".ScanidxFS";
       ".ScanPosFS"; ".ScanRTFS"; "_diasetting.ser"; "_params.ser" ].

(** The body of the loop over the listing of [raw_dir]. *)
Definition clean_entry (self : t) (raw_dir : path) (f : string) : M unit :=
  let file_path := join raw_dir f in
  if PyStr.endswith_any f (unneeded_files self)
  then os_remove file_path
  else if PyStr.endswith f "_Peak"
  then
    let peak_dir := join raw_dir f in
    is_dir ← fs_read (λ fs, isdir fs peak_dir);
    if is_dir : bool
    then inner ← fs_try (λ fs, listdir fs peak_dir);
         for_ inner (λ _f, os_remove (join peak_dir _f));;
         fs_update (λ fs, rmdir fs peak_dir)
    else mret tt
  else mret tt.

Definition cleaning_process (self : t) (raw_dir : path) : M unit :=
  log INFO "==========";;
  log INFO "Unneeded files will now be cleaned and removed.";;
  log INFO ("File extensions ending in "
            +:+ PyStr.join ", " (unneeded_files self));;
  current_files ← fs_try (λ fs, listdir fs raw_dir);
  for_ current_files (clean_entry self raw_dir).

End CleanFiles.

(* ===================================================================== *)
(** * move_to_processed.py *)
(* ===================================================================== *)

Module MoveOutputFiles.

Record t := mk {
  convert_raw_files : ConvertRawFiles.t;
  raw_files : list string;
  raw_names : list string;
  raw_dir : path;
  processed_directory : path;
  move_file_extensions : list string
}.

Definition init (raw_dir : path)
    (convert_raw_files_instance : ConvertRawFiles.t) : t :=
  mk convert_raw_files_instance
     (ConvertRawFiles.raw_files convert_raw_files_instance)
     (map (λ f, (PyStr.splitext f).1)
          (ConvertRawFiles.raw_files convert_raw_files_instance))
     raw_dir
     (join (dirname raw_dir) "processed")
     [ "_Q1.mgf"; "_Q2.mgf"; "_Q3.mgf"; "_Q1.mzML"; "_Q2.mzML"; "_Q3.mzML";
       "_PeakCluster.csv" ].

Definition move_to_processed (self : t) : M unit :=
  log INFO "==========";;
  log INFO "The process of moving files to the processed directory will start now.";;
  for_ (raw_names self) (λ raw_name,
    log INFO ("Moving files for sample " +:+ raw_name
              +:+ " to the processed directory.");;
    for_ (move_file_extensions self) (λ ext,
      let current_directory := join (raw_dir self) (raw_name +:+ ext) in
      let new_directory :=
        join (processed_directory self) (raw_name +:+ ext) in
      there ← fs_read (λ fs, exists_ fs current_directory);
      if there : bool
      then fs_update (λ fs, Os.replace fs current_directory new_directory)
      else mret tt)).

End MoveOutputFiles.

(* ===================================================================== *)
(** * search_database.py *)
(* ===================================================================== *)

Module SearchDatabase.

Record t := mk {
  folder_structure : FolderStructure.t;
  convert_raw_files : ConvertRawFiles.t;
  move_to_processed : MoveOutputFiles.t;
  raw_names : list string;
  java_executable : path;
  search_gui : path;
  FASTA_Database : path;
  SearchGUI_Parameters : path;
  reference_name : string;
  processed_directory : path;
  searched_directory : path;
  search_start_time : option Z;
  search_end_time : option Z
}.

Definition set_raw_names (l : list string) (s : t) : t :=
  mk (folder_structure s) (convert_raw_files s) (move_to_processed s) l
     (java_executable s) (search_gui s) (FASTA_Database s)
     (SearchGUI_Parameters s) (reference_name s) (processed_directory s)
     (searched_directory s) (search_start_time s) (search_end_time s).

Definition set_search_start_time (x : Z) (s : t) : t :=
  mk (folder_structure s) (convert_raw_files s) (move_to_processed s)
     (raw_names s) (java_executable s) (search_gui s) (FASTA_Database s)
     (SearchGUI_Parameters s) (reference_name s) (processed_directory s)
     (searched_directory s) (Some x) (search_end_time s).

Definition set_search_end_time (x : Z) (s : t) : t :=
  mk (folder_structure s) (convert_raw_files s) (move_to_processed s)
     (raw_names s) (java_executable s) (search_gui s) (FASTA_Database s)
     (SearchGUI_Parameters s) (reference_name s) (processed_directory s)
     (searched_directory s) (search_start_time s) (Some x).

(** The quality tiers, in the order the dictionary lists them. *)
Definition qt_dict : list (string * string) :=
  [ ("1", "_Q1.mgf"); ("2", "_Q2.mgf"); ("3", "_Q3.mgf");
    ("12", "_Q1Q2_combined.mgf"); ("13", "_Q1Q3_combined.mgf");
    ("23", "_Q2Q3_combined.mgf"); ("123", "_Q1Q2Q3_combined.mgf") ].

(** [d[k]]. *)
Definition dict_get (d : list (string * string)) (k : string) : M string :=
  match list_find (λ kv, kv.1 = k) d with
  | Some (_, kv) => mret kv.2
  | None => raise (Exn KeyError ("'" +:+ k +:+ "'"))
  end.

(** The loop over [qt_dict.values()] that removes the first tier suffix
    the base name ends with, then breaks. *)
Fixpoint strip_tier_suffix (qt_values : list string) (base_file_name : string)
  : string :=
  match qt_values with
  | [] => base_file_name
  | qt_value :: rest =>
      let suffix := PyStr.slice_to_neg qt_value 4 in
      if PyStr.endswith base_file_name suffix
      then PyStr.slice_to_neg base_file_name
                              (length (PyStr.chars suffix))
      else strip_tier_suffix rest base_file_name
  end.

(** A base name with one of these endings is not searched. *)
Definition disqualified (raw_name : string) : bool :=
  PyStr.endswith raw_name "_PeakCluster"
  || PyStr.endswith raw_name ".cms"
  || PyStr.endswith raw_name ".mzML".

(** The two results of the selection: the set [to_search] and the list
    [not_searched_files]. *)
Record selection := mkSel {
  to_search : gset path;
  not_searched_files : list string
}.

Definition empty_msg (name : string) : string :=
  name +:+ " will not be searched as the tier file is empty.".
Definition missing_msg (name : string) : string :=
  name +:+ " will not be searched as the tier file does not exist.".

(** The name of the tier file built from a directory entry. *)
Definition tier_name (file suffix : string) : string :=
  strip_tier_suffix (map snd qt_dict) (PyStr.splitext file).1 +:+ suffix.

(** The innermost loop body: one directory entry, for one base name and
    one requested tier. *)
Definition visit_file (processed_directory : path)
    (raw_name qt : string) (sel : selection) (file : string)
  : M selection :=
  if PyStr.endswith file ".mgf" && PyStr.startswith file raw_name
  then
    suffix ← dict_get qt_dict qt;
    let tier_file := join processed_directory (tier_name file suffix) in
    there ← fs_read (λ fs, exists_ fs tier_file);
    if there : bool
    then size ← fs_try (λ fs, getsize fs tier_file);
         if bool_decide (0 < size)%N
         then mret (mkSel ({[tier_file]} ∪ to_search sel)
                          (not_searched_files sel))
         else log WARNING (empty_msg (basename tier_file));;
              mret (mkSel (to_search sel)
                          (not_searched_files sel ++ [basename tier_file]))
    else log WARNING (missing_msg (basename tier_file));;
         mret (mkSel (to_search sel)
                     (not_searched_files sel ++ [basename tier_file]))
  else mret sel.

Definition visit_raw_name (processed_directory : path)
    (qt_to_search : list string) (sel : selection) (raw_name : string)
  : M selection :=
  if disqualified raw_name
  then log WARNING (raw_name +:+ ".mgf will not be searched.");;
       mret (mkSel (to_search sel)
                   (not_searched_files sel ++ [raw_name +:+ ".mgf"]))
  else
    for_acc qt_to_search sel (λ sel qt,
      files ← fs_try (λ fs, listdir fs processed_directory);
      for_acc files sel (visit_file processed_directory raw_name qt)).

(** The selection loops of [search_process], for any list of requested
    tiers. *)
Definition select_searchable (processed_directory : path)
    (raw_names qt_to_search : list string) : M selection :=
  for_acc raw_names (mkSel ∅ [])
          (visit_raw_name processed_directory qt_to_search).

(** [search_process] requests tier '1' only. *)
Definition qt_to_search : list string := ["1"].

(** [fnmatch.filter(names, prefix + "*" + suffix)]. *)
Definition glob_filter (prefix suffix : string) (names : list string)
  : list string :=
  filter (λ n, PyStr.startswith n prefix = true
               ∧ PyStr.endswith n suffix = true
               ∧ length (PyStr.chars prefix) + length (PyStr.chars suffix)
                 ≤ length (PyStr.chars n)) names.

Section WithEnv.
Context (env : Env) (cfg : Config).

Definition init (raw_dir thermo_file_parser : path)
    (reference_name : string) : M t :=
  fsm ← FolderStructure.init env cfg FolderStructure.default_log_file;
  let conv := ConvertRawFiles.init raw_dir thermo_file_parser in
  let mv := MoveOutputFiles.init raw_dir conv in
  mret (mk fsm conv mv (MoveOutputFiles.raw_names mv)
           (FolderStructure.java_executable fsm)
           (FolderStructure.search_gui fsm)
           (FolderStructure.FASTA_Database fsm)
           (FolderStructure.SearchGUI_Parameters fsm)
           reference_name
           (join (dirname raw_dir) "processed")
           (join (dirname raw_dir) "searched")
           None None).

Definition update_raw_names (self : t) : M t :=
  names ← fs_try (λ fs, listdir fs (processed_directory self));
  regular ← fs_read (λ fs,
    filter (λ f, isfile fs (join (processed_directory self) f) = true
                 ∧ PyStr.endswith f ".mgf" = true) names);
  mret (set_raw_names (map (λ f, (PyStr.splitext f).1) regular) self).

Definition search_engine : string := "-xtandem".

Definition search_command (self : t) (to_search : list path)
  : list string :=
  [ path_str (java_executable self);
    "-cp"; path_str (search_gui self);
    "eu.isas.searchgui.cmd.SearchCLI";
    "-spectrum_files"; PyStr.join "," (map path_str to_search);
    "-fasta_file"; path_str (FASTA_Database self);
    "-output_folder"; path_str (searched_directory self);
    "-id_params"; path_str (SearchGUI_Parameters self);
    search_engine; "1";
    "-output_default_name"; reference_name self;
    "-output_data"; "1" ].

Definition cli_log_text (command : list string) (p : CompletedProcess)
  : string :=
  "Command line arguments" +:+ PyStr.nl
  +:+ "----------------------" +:+ PyStr.nl
  +:+ PyStr.join " " command
  +:+ PyStr.nl +:+ PyStr.nl +:+ "Run Log" +:+ PyStr.nl +:+ "-------"
  +:+ PyStr.nl +:+ stdout p +:+ stderr p.

Definition search_failed (e : exn) : M unit :=
  log ERROR ("Error found during the database searching process: "
             +:+ exn_text e).

(** From the refresh of [raw_names] to the end of the selection loops,
    for any list of requested tiers. *)
Definition refresh_and_select (self : t) (qts : list string)
  : M (t * selection) :=
  self ← update_raw_names self;
  now ← time_time env;
  let self := set_search_start_time now self in
  sel ← select_searchable (processed_directory self) (raw_names self) qts;
  mret (self, sel).

(** Returns the object and what the method returns: the searched files,
    or [None] when nothing was searched or the search failed.  The
    [try] block is written in two parts, before and after the
    assignment of [search_end_time], so that the handler of the second
    part sees that assignment. *)
Definition search_process (self : t) : M (t * option (list path)) :=
  log INFO "==========";;
  log INFO "Running database search with SearchGUI CLI.";;
  log INFO ("Using " +:+ search_engine +:+ " search engine.");;
  '(self, sel) ← refresh_and_select self qt_to_search;
  let to_search := elements (to_search sel) in
  (match to_search with
   | [] => mret tt
   | _ :: _ =>
       log INFO "Files to search:";;
       for_ to_search (λ file, log INFO (basename file))
   end);;
  started ←
    try_except
      (os_makedirs env true (searched_directory self);;
       match to_search with
       | [] => log ERROR "No files to search.";; mret None
       | _ :: _ =>
           p ← subprocess_run_check env (search_command self to_search);
           mret (Some p)
       end)
      (λ e, search_failed e;; mret None);
  match started with
  | None => mret (self, None)
  | Some p =>
      now ← time_time env;
      let self := set_search_end_time now self in
      try_except
        (log INFO ("Searches completed, results can be found in ./searched/"
                   +:+ reference_name self +:+ ".zip");;
         write_text env (join (searched_directory self) "search_cli.log")
                    (cli_log_text (search_command self to_search) p);;
         log INFO "Log of searches can be found in ./searched/search_cli.log";;
         names ← fs_try (λ fs, listdir fs (searched_directory self));
         for_ (glob_filter "SearchGUI" ".html" names) (λ f,
           os_remove (join (searched_directory self) f));;
         mret (self, Some to_search))
        (λ e, search_failed e;; mret (self, None))
  end.

End WithEnv.

End SearchDatabase.

(* ===================================================================== *)
(** * prepare_peptideshaker.py *)
(* ===================================================================== *)

Module PeptideShaker.

Record t := mk {
  folder_structure : FolderStructure.t;
  search_database : SearchDatabase.t;
  java_executable : path;
  peptide_shaker : path;
  SearchGUI_Parameters : path;
  FASTA_Database : path;
  reference_name : string;
  searched_directory : path;
  shaker_start_time : option Z;
  shaker_end_time : option Z
}.

Definition set_shaker_start_time (x : Z) (s : t) : t :=
  mk (folder_structure s) (search_database s) (java_executable s)
     (peptide_shaker s) (SearchGUI_Parameters s) (FASTA_Database s)
     (reference_name s) (searched_directory s) (Some x) (shaker_end_time s).

Definition set_shaker_end_time (x : Z) (s : t) : t :=
  mk (folder_structure s) (search_database s) (java_executable s)
     (peptide_shaker s) (SearchGUI_Parameters s) (FASTA_Database s)
     (reference_name s) (searched_directory s) (shaker_start_time s) (Some x).

Section WithEnv.
Context (env : Env) (cfg : Config).

Definition init (raw_dir thermo_file_parser : path)
    (reference_name : string) : M t :=
  fsm ← FolderStructure.init env cfg FolderStructure.default_log_file;
  sdb ← SearchDatabase.init env cfg raw_dir thermo_file_parser
                            reference_name;
  mret (mk fsm sdb
           (FolderStructure.java_executable fsm)
           (FolderStructure.peptide_shaker fsm)
           (FolderStructure.SearchGUI_Parameters fsm)
           (FolderStructure.FASTA_Database fsm)
           reference_name
           (join (dirname raw_dir) "searched")
           None None).

Definition shaker_command (self : t) (to_search : list path)
  : list string :=
  [ path_str (java_executable self); "-cp";
    path_str (peptide_shaker self);
    "eu.isas.peptideshaker.cmd.PeptideShakerCLI";
    "-reference"; reference_name self;
    "-identification_files";
    path_str (join (searched_directory self)
                   (reference_name self +:+ ".zip"));
    "-spectrum_files"; PyStr.join ", " (map path_str to_search);
    "-fasta_file"; path_str (FASTA_Database self);
    "-id_params"; path_str (SearchGUI_Parameters self);
    "-out";
    path_str (join (searched_directory self)
                   (reference_name self +:+ ".psdb")) ].

Definition shaker_failed (e : exn) : M unit :=
  log ERROR ("Error found during the Peptideshaker process: "
             +:+ exn_text e).

(** [to_search] is [None] when [search_process] returned nothing; the
    [join] of the command line then raises. *)
Definition peptideshaker_process (self : t)
    (to_search : option (list path)) : M t :=
  log INFO "==========";;
  log INFO "Preparing the PeptideShaker file.";;
  now ← time_time env;
  let self := set_shaker_start_time now self in
  started ←
    try_except
      (os_makedirs env true (searched_directory self);;
       match to_search with
       | None => raise (Exn TypeError "can only join an iterable")
       | Some files =>
           p ← subprocess_run_check env (shaker_command self files);
           mret (Some (shaker_command self files, p))
       end)
      (λ e, shaker_failed e;; mret None);
  match started with
  | None => mret self
  | Some (command, p) =>
      now ← time_time env;
      let self := set_shaker_end_time now self in
      try_except
        (log INFO ("Import complete, results can be found in ./searched/"
                   +:+ reference_name self +:+ ".psdb");;
         write_text env (join (searched_directory self) "shaker_cli.log")
                    (SearchDatabase.cli_log_text command p);;
         log INFO "Log can be found in ./searched/shaker_cli.log";;
         names ← fs_try (λ fs, listdir fs (searched_directory self));
         for_ (SearchDatabase.glob_filter "PeptideShaker" ".html" names)
              (λ f, os_remove (join (searched_directory self) f));;
         mret self)
        (λ e, shaker_failed e;; mret self)
  end.

End WithEnv.

End PeptideShaker.

(* ===================================================================== *)
(** * export_reports.py *)
(* ===================================================================== *)

Module Reports.

Record t := mk {
  folder_structure : FolderStructure.t;
  prepare_peptideshaker : PeptideShaker.t;
  java_executable : path;
  peptide_shaker : path;
  reference_name : string;
  top_dir : path;
  export_report_directory : path;
  searched_directory : path;
  reports_start_time : option Z;
  reports_end_time : option Z
}.

Definition set_reports_start_time (x : Z) (s : t) : t :=
  mk (folder_structure s) (prepare_peptideshaker s) (java_executable s)
     (peptide_shaker s) (reference_name s) (top_dir s)
     (export_report_directory s) (searched_directory s) (Some x)
     (reports_end_time s).

Definition set_reports_end_time (x : Z) (s : t) : t :=
  mk (folder_structure s) (prepare_peptideshaker s) (java_executable s)
     (peptide_shaker s) (reference_name s) (top_dir s)
     (export_report_directory s) (searched_directory s)
     (reports_start_time s) (Some x).

Definition reports_missing_msg : string :=
  "The reports directory does not exist! Please create the reports directory.".

Section WithEnv.
Context (env : Env) (cfg : Config).

Definition init (raw_dir thermo_file_parser : path)
    (reference_name : string) : M t :=
  fsm ← FolderStructure.init env cfg FolderStructure.default_log_file;
  shaker ← PeptideShaker.init env cfg raw_dir thermo_file_parser
                              reference_name;
  let self :=
    mk fsm shaker
       (FolderStructure.java_executable fsm)
       (FolderStructure.peptide_shaker fsm)
       reference_name (cwd cfg) (join (cwd cfg) "reports")
       (join (dirname raw_dir) "searched") None None in
  log INFO "==========";;
  log INFO "Setting up the reports directory.";;
  try_bare
    (is_dir ← fs_read (λ fs, isdir fs (export_report_directory self));
     if is_dir : bool
     then log INFO ("The following directory already exists: "
                    +:+ path_str (export_report_directory self))
     else os_makedirs env true (export_report_directory self);;
          log INFO ("The following directory has been set up: "
                    +:+ path_str (export_report_directory self)))
    (log ERROR reports_missing_msg;;
     sys_exit 1);;
  mret self.

Definition report_command (self : t) : list string :=
  [ path_str (java_executable self);
    "-cp"; path_str (peptide_shaker self);
    "eu.isas.peptideshaker.cmd.ReportCLI";
    "-in";
    path_str (join (searched_directory self)
                   (reference_name self +:+ ".psdb"));
    "-out_reports"; path_str (export_report_directory self);
    "-reports"; "3, 9" ].

Definition report_failed (e : exn) : M unit :=
  log ERROR ("Error found during the PeptideShaker Report Export process: "
             +:+ exn_text e).

Definition generate_reports (self : t) : M t :=
  log INFO "Exporting requested PeptideShaker reports.";;
  now ← time_time env;
  let self := set_reports_start_time now self in
  started ←
    try_except
      (p ← subprocess_run_check env (report_command self); mret (Some p))
      (λ e, report_failed e;; mret None);
  match started with
  | None => mret self
  | Some p =>
      now ← time_time env;
      let self := set_reports_end_time now self in
      try_except
        (log INFO "PeptideShaker reports have been successfully exported. The requested reports can be found in the reports directory.";;
         write_text env
           (join (export_report_directory self) "reports_cli.log")
           (SearchDatabase.cli_log_text (report_command self) p);;
         log INFO "Log of the exported reports can be found in ./reports/reports_cli.log";;
         mret self)
        (λ e, report_failed e;; mret self)
  end.

Definition convert_report_type (self : t) : M unit :=
  names ← fs_try (λ fs, listdir fs (export_report_directory self));
  let file_list := filter (λ f, PyStr.endswith f ".txt" = true) names in
  for_ file_list (λ file,
    let reports_file_path := join (export_report_directory self) file in
    let excel_path :=
      join (export_report_directory self)
           (PyStr.replace file ".txt" ".xlsx") in
    try_except
      (fs_update (to_excel env reports_file_path excel_path);;
       log INFO ("The file: " +:+ file
                 +:+ " has been successfully converted to 'xlsx' format :"
                 +:+ path_str excel_path))
      (λ e, log ERROR ("Error! The file: " +:+ file
                       +:+ " has not been converted to 'xlsx' format:"
                       +:+ exn_text e))).

End WithEnv.

End Reports.

(* ===================================================================== *)
(** * main.py *)
(* ===================================================================== *)

Module Main.

Module Summary.

Record t := mk {
  folder_structure : FolderStructure.t;
  convert_raw_files : ConvertRawFiles.t;
  dia_umpire : DiaUmpire.t;
  search_database : SearchDatabase.t;
  prepare_peptideshaker : PeptideShaker.t;
  to_search : option (list path);
  export_reports : Reports.t
}.

(** [end - start] on two attributes that are [None] until set. *)
Definition elapsed (end_time start_time : option Z) : M Z :=
  match end_time, start_time with
  | Some e, Some s => mret (e - s)%Z
  | _, _ =>
      raise (Exn TypeError "unsupported operand type(s) for -")
  end.

(** [len(x)] on a list that may be [None]. *)
Definition len {A} (x : option (list A)) : M nat :=
  match x with
  | Some l => mret (length l)
  | None => raise (Exn TypeError "object of type 'NoneType' has no len()")
  end.

Definition sep : string := PyStr.nl +:+ "         ".

Section WithEnv.
Context (env : Env).

Definition mmss (x : Z) : M string := strftime_gmtime env "%M:%S" x.

Definition write_summary (self : t) : M unit :=
  let conv := convert_raw_files self in
  log INFO "============================";;
  log INFO " Summary";;
  log INFO "============================";;
  log INFO "Successfully processed:";;
  (match ConvertRawFiles.raw_files conv with
   | _ :: _ => log INFO (PyStr.join sep (ConvertRawFiles.raw_files conv))
   | [] => log INFO "No files processed successfully."
   end);;
  (match DiaUmpire.failed_files (dia_umpire self) with
   | _ :: _ =>
       log INFO "Failed to process:";;
       log INFO (PyStr.join sep (DiaUmpire.failed_files (dia_umpire self)));;
       log INFO "=========="
   | [] => mret tt
   end);;
  match ConvertRawFiles.files_to_convert conv with
  | [] => mret tt
  | _ :: _ =>
      convert_run_time ←
        elapsed (ConvertRawFiles.conversion_end_time conv)
                (ConvertRawFiles.conversion_start_time conv);
      took ← mmss convert_run_time;
      log INFO ("Thermo RAW File Parser converted "
                +:+ pretty (length (ConvertRawFiles.files_to_convert conv))
                +:+ " files in " +:+ took +:+ " mins:seconds");;
      umpire_run_time ←
        elapsed (DiaUmpire.umpire_end_time (dia_umpire self))
                (DiaUmpire.umpire_start_time (dia_umpire self));
      took ← mmss umpire_run_time;
      log INFO ("DIA Umpire processed "
                +:+ pretty (length (ConvertRawFiles.raw_files conv))
                +:+ " files in " +:+ took +:+ " mins:seconds");;
      search_run_time ←
        elapsed (SearchDatabase.search_end_time (search_database self))
                (SearchDatabase.search_start_time (search_database self));
      searched ← len (to_search self);
      took ← mmss search_run_time;
      log INFO ("SearchGUI searched " +:+ pretty searched
                +:+ " files in " +:+ took +:+ " mins:seconds");;
      shaker_run_time ←
        elapsed
          (PeptideShaker.shaker_end_time (prepare_peptideshaker self))
          (PeptideShaker.shaker_start_time (prepare_peptideshaker self));
      took ← mmss shaker_run_time;
      log INFO ("PeptideShaker report generated in "
                +:+ took +:+ " mins:seconds");;
      report_run_time ←
        elapsed (Reports.reports_end_time (export_reports self))
                (Reports.reports_start_time (export_reports self));
      took ← mmss report_run_time;
      log INFO ("Peptideshaker reports exported in "
                +:+ took +:+ " mins:seconds");;
      script_end_time ← time_time env;
      let total_time :=
        (script_end_time
         - FolderStructure.script_start_time (folder_structure self))%Z in
      took ← strftime_gmtime env "%H:%M:%S" total_time;
      log INFO ("Total time taken for the whole process = "
                +:+ took +:+ " hours:mins:seconds");;
      log INFO ("Date & Time of when the process finished:"
                +:+ strftime env "%Y-%m-%d %H:%M:%S" true script_end_time)
  end.

End WithEnv.

End Summary.

Section WithEnv.
Context (env : Env) (cfg : Config).

(** The reference name [main] reads back after [reference_name_setup]
    has set it. *)
Definition the_reference_name (fsm : FolderStructure.t) : string :=
  default "None" (FolderStructure.reference_name fsm).

(** [main()]; every call it makes is noted in the trace first. *)
Definition main : M unit :=
  enter "FolderStructure";;
  fsm ← FolderStructure.init env cfg FolderStructure.default_log_file;
  enter "logging_setup";;
  fsm ← FolderStructure.logging_setup env fsm;
  enter "directory_setup";;
  fsm ← FolderStructure.directory_setup env fsm;
  enter "executable_setup";;
  FolderStructure.executable_setup fsm;;
  enter "parameter_check";;
  FolderStructure.parameter_check fsm;;
  enter "reference_name_setup";;
  fsm ← FolderStructure.reference_name_setup env fsm;
  let reference_name := the_reference_name fsm in
  enter "ConvertRawFiles";;
  let conv := ConvertRawFiles.init (cfg_raw_dir cfg)
                                   (cfg_thermo_file_parser cfg) in
  enter "identify_raw_files";;
  conv ← ConvertRawFiles.identify_raw_files conv;
  enter "convert_raw_files";;
  conv ← ConvertRawFiles.convert_raw_files env conv;
  enter "check_converted_raw_files";;
  conv ← ConvertRawFiles.check_converted_raw_files conv;
  enter "retrieve_raw_file_count";;
  let _ := ConvertRawFiles.retrieve_raw_file_count conv in
  enter "DiaUmpire";;
  dia ← DiaUmpire.init env cfg conv;
  enter "dia_file_processing";;
  dia ← DiaUmpire.dia_file_processing env cfg dia;
  enter "CleanFiles";;
  let cleaner := CleanFiles.init in
  enter "cleaning_process";;
  CleanFiles.cleaning_process cleaner (cfg_raw_dir cfg);;
  enter "MoveOutputFiles";;
  let mover := MoveOutputFiles.init (cfg_raw_dir cfg) conv in
  enter "move_to_processed";;
  MoveOutputFiles.move_to_processed mover;;
  enter "SearchDatabase";;
  sdb ← SearchDatabase.init env cfg (cfg_raw_dir cfg)
                            (cfg_thermo_file_parser cfg) reference_name;
  enter "update_raw_names";;
  sdb ← SearchDatabase.update_raw_names sdb;
  enter "search_process";;
  '(sdb, to_search) ← SearchDatabase.search_process env sdb;
  enter "PeptideShaker";;
  shaker ← PeptideShaker.init env cfg (cfg_raw_dir cfg)
                              (cfg_thermo_file_parser cfg) reference_name;
  enter "peptideshaker_process";;
  shaker ← PeptideShaker.peptideshaker_process env shaker to_search;
  enter "Reports";;
  reports ← Reports.init env cfg (cfg_raw_dir cfg)
                         (cfg_thermo_file_parser cfg) reference_name;
  enter "generate_reports";;
  reports ← Reports.generate_reports env reports;
  enter "convert_report_type";;
  Reports.convert_report_type env reports;;
  enter "Summary";;
  let summary := Summary.mk fsm conv dia sdb shaker to_search reports in
  enter "write_summary";;
  Summary.write_summary env summary.

(** The run of the script from a fresh process. *)
Definition run (fs : gmap path node) (inuse : gset path)
  : res unit * World :=
  main (initial_world fs inuse).

End WithEnv.

End Main.

(* ===================================================================== *)
(** * Vocabulary of the specifications *)
(* ===================================================================== *)

Module Spec.

(** What a computation adds to the log and to the list of commands. *)
Definition new_log (w w' : World) : list (level * string) :=
  drop (length (w_log w)) (w_log w').
Definition new_calls (w w' : World) : list (list string) :=
  drop (length (w_calls w)) (w_calls w').

(** A relation between the state before and after, field by field.  The
    set of files in use never changes and the log only grows; the clock
    and the configuration of the logger are free. *)
Definition rel (Rfs : relation (gmap path node))
    (Rcalls : relation (list (list string)))
    (Rtrace : relation (list string)) : relation World := λ w w',
  Rfs (w_fs w) (w_fs w') ∧ Rcalls (w_calls w) (w_calls w')
  ∧ Rtrace (w_trace w) (w_trace w') ∧ w_inuse w' = w_inuse w
  ∧ w_log w `prefix_of` w_log w'.

Definition any {A} : relation A := λ _ _, True.

(** The file system may only differ on the paths in [X]. *)
Definition frame (X : path → Prop) : relation (gmap path node) :=
  λ fs fs', ∀ p, ¬ X p → fs' !! p = fs !! p.

(** The names the loop of [executable_setup] collects: the executables
    that are not found, the Thermo parser apart. *)
Definition missing_executables (fs : gmap path node)
    (l : list (string * path)) : list string :=
  map fst (filter (λ np : string * path,
                     exists_ fs np.2 = false ∧ np.1 ≠ "thermo_file_parser") l).

(** The paths the loop of [parameter_check] collects. *)
Definition parameter_files_missing (fs : gmap path node)
    (l : list (string * path)) : list string :=
  map (λ np : string * path, path_str np.2)
      (filter (λ np : string * path, exists_ fs np.2 = false) l).

(** [m] relates every state it starts in to the state it ends in. *)
Definition preserves {A} (R : relation World) (m : M A) : Prop :=
  ∀ w, R w (m w).2.

(** When [m] ends with [sys.exit(c)], the code and the final state
    satisfy [Q]. *)
Definition exits_with {A} (Q : Z → World → Prop) (m : M A) : Prop :=
  ∀ w c, (m w).1 = Exit c → Q c (m w).2.

(** When [m] returns a value, the value satisfies [P]. *)
Definition vals_with {A} (P : A → Prop) (m : M A) : Prop :=
  ∀ w a, (m w).1 = Val a → P a.

(** [m] never ends with [sys.exit]. *)
Definition no_exit {A} (m : M A) : Prop := exits_with (λ _ _, False) m.

(** [m] always returns a value. *)
Definition returns {A} (m : M A) : Prop :=
  ∀ w, ∃ a, (m w).1 = Val a.

(** Weakest precondition over all three ways of ending. *)
Definition wp {A} (m : M A) (Q : res A → World → Prop) (w : World) : Prop :=
  Q (m w).1 (m w).2.

(** ** The deconvolution loop *)

(** Whether the turn of the loop for [raw_file], started in state [w],
    goes well: DIA-Umpire is launched and ends with return code 0, and its
    log can then be renamed. *)
Definition umpire_ok (env : Env) (cfg : Config) (self : DiaUmpire.t)
    (raw_file : string) (w : World) : bool :=
  match exec env (length (w_calls w))
             (DiaUmpire.umpire_command self raw_file) (w_fs w) with
  | (Exited rc _ _, fs') =>
      bool_decide (rc = 0%Z)
      && match Os.replace fs' (DiaUmpire.umpire_log cfg)
                          (DiaUmpire.file_log cfg raw_file) with
         | Ok _ => true
         | Err _ => false
         end
  | (NotLaunched _, _) => false
  end.

(** Whether the time the turn started in state [w] takes can be shown:
    [time.gmtime] accepts the difference between the reading of the clock
    at the end of the turn and the one at its start. *)
Definition turn_formats (env : Env) (w : World) : bool :=
  match gmtime_error env
          (time_at env (S (w_ticks w)) - time_at env (w_ticks w))%Z with
  | None => true
  | Some _ => false
  end.

(** The object after the turn for [raw_file] started in state [w]: the
    file is added to [dia_processed_files] when the run and the renaming
    of the log go well, and appended to [failed_files] when they do not,
    or when the time the turn took cannot be shown. *)
Definition turn_result (env : Env) (cfg : Config) (self : DiaUmpire.t)
    (raw_file : string) (w : World) : DiaUmpire.t :=
  if umpire_ok env cfg self raw_file w
  then
    let done :=
      DiaUmpire.set_dia_processed_files
        ({[raw_file]} ∪ DiaUmpire.dia_processed_files self) self in
    if turn_formats env w then done
    else DiaUmpire.set_failed_files
           (DiaUmpire.failed_files done ++ [raw_file]) done
  else DiaUmpire.set_failed_files
         (DiaUmpire.failed_files self ++ [raw_file]) self.

(** [time.gmtime] accepts every difference between a later and an earlier
    reading of the clock. *)
Definition elapsed_formats (env : Env) : Prop :=
  ∀ n m, n ≤ m → gmtime_error env (time_at env m - time_at env n)%Z = None.

(** The warning of the branch that tests the return code after the run. *)
Definition returncode_warning (raw_file : string) : string :=
  "Error! Please check ./raw/" +:+ PyStr.slice_to_neg raw_file 5
  +:+ "_diaumpire.log".

(** No record of that branch is logged between two states. *)
Definition quiet (w w' : World) : Prop :=
  w_log w `prefix_of` w_log w'
  ∧ ∀ f, (WARNING, returncode_warning f) ∉ new_log w w'.

(** The fields of the object that the loop reads and never writes. *)
Definition same_setup (a b : DiaUmpire.t) : Prop :=
  DiaUmpire.convert_raw_files b = DiaUmpire.convert_raw_files a
  ∧ DiaUmpire.raw_files b = DiaUmpire.raw_files a
  ∧ DiaUmpire.java_executable b = DiaUmpire.java_executable a
  ∧ DiaUmpire.dia_umpire_se b = DiaUmpire.dia_umpire_se a
  ∧ DiaUmpire.DIA_Umpire_Parameters b = DiaUmpire.DIA_Umpire_Parameters a.

(** [I] holds of the state after [m], however [m] ends, when it held
    before. *)
Definition always {A} (I : World → Prop) (m : M A) : Prop :=
  ∀ w, I w → I (m w).2.

(** ** The selection of the files to search *)

(** [p] exists and is not empty. *)
Definition searchable (fs : gmap path node) (p : path) : Prop :=
  ∃ n, getsize fs p = Ok n ∧ (0 < n)%N.

(** Where the tier file [name] of the directory [d] ends up: in the set to
    search when it exists and is not empty; in the list of excluded names,
    with the warning that says why, when it is empty or missing. *)
Definition classified (fs : gmap path node) (sel : SearchDatabase.selection)
    (records : list (level * string)) (d : path) (name : string) : Prop :=
  match getsize fs (join d name) with
  | Ok n =>
      if bool_decide (0 < n)%N
      then join d name ∈ SearchDatabase.to_search sel
      else name ∈ SearchDatabase.not_searched_files sel
           ∧ (WARNING, SearchDatabase.empty_msg name) ∈ records
  | Err _ =>
      name ∈ SearchDatabase.not_searched_files sel
      ∧ (WARNING, SearchDatabase.missing_msg name) ∈ records
  end.

(** What holds while the selection loops run from the state [w0]. *)
Definition selecting (w0 : World) (sel : SearchDatabase.selection)
    (w : World) : Prop :=
  w_fs w = w_fs w0
  ∧ w_log w0 `prefix_of` w_log w
  ∧ ∀ p, p ∈ SearchDatabase.to_search sel → searchable (w_fs w0) p.

(** The two results and the log only grow. *)
Definition sel_grows : relation (SearchDatabase.selection * World) :=
  λ a b,
    SearchDatabase.to_search a.1 ⊆ SearchDatabase.to_search b.1
    ∧ SearchDatabase.not_searched_files a.1
      ⊆ SearchDatabase.not_searched_files b.1
    ∧ w_log a.2 `prefix_of` w_log b.2.

(** Two file systems show the same directory [d]: the same entry for [d],
    the same listing, and the same kind and size for every name in it. *)
Definition same_snapshot (d : path) (fs1 fs2 : gmap path node) : Prop :=
  fs1 !! d = fs2 !! d
  ∧ children fs1 d = children fs2 d
  ∧ ∀ n, fs1 !! join d n = fs2 !! join d n.

(** A relation between two states that only looks at the file systems. *)
Definition fs_rel (S : relation (gmap path node)) : relation World :=
  λ w1 w2, S (w_fs w1) (w_fs w2).

(** Two results are of the same kind and carry related values. *)
Definition res_rel {A B} (E : A → B → Prop) (r1 : res A) (r2 : res B)
  : Prop :=
  match r1, r2 with
  | Val a, Val b => E a b
  | Exc e1, Exc e2 => e1 = e2
  | Exit c1, Exit c2 => c1 = c2
  | _, _ => False
  end.

(** Run from states related by [R], two computations end the same way with
    values related by [E], in states related by [R]. *)
Definition sim {A B} (R : relation World) (E : A → B → Prop)
    (m1 : M A) (m2 : M B) : Prop :=
  ∀ w1 w2, R w1 w2 →
    res_rel E (m1 w1).1 (m2 w2).1 ∧ R (m1 w1).2 (m2 w2).2.

(** ** The artifact cleaner *)

(** A path the cleaner has no reason to touch in a file system [fs]: it is
    not at or below an entry of [raw_dir] whose name has one of the ten
    suffixes, nor at or below a directory of [raw_dir] whose name ends in
    [_Peak]. *)
Definition kept (raw_dir : path) (fs : gmap path node) (p : path) : Prop :=
  ∀ f rest, p = raw_dir ++ f :: rest →
    PyStr.endswith_any f (CleanFiles.unneeded_files CleanFiles.init) = false
    ∧ (PyStr.endswith f "_Peak" = false ∨ isdir fs (join raw_dir f) = false).

(** What holds of the file system while the cleaner runs from [fs0]:
    nothing new appears, and the kept paths are as they were. *)
Definition cleaning (raw_dir : path) (fs0 fs : gmap path node) : Prop :=
  fs ⊆ fs0 ∧ ∀ p, kept raw_dir fs0 p → fs !! p = fs0 !! p.

(** The state after [main] has noted the call of [n]. *)
Definition entered (n : string) (w : World) : World := (enter n w).2.

(** ** The set-up block of [main] *)

(** The calls [main] makes before it asks for the reference name. *)
Definition setup_calls : list string :=
  [ "FolderStructure"; "logging_setup"; "directory_setup";
    "executable_setup"; "parameter_check" ].

(** The three mandatory parameter files, at the workspace root. *)
Definition parameter_paths (cfg : Config) : list (string * path) :=
  [ ("DIA_Umpire_Parameters", join (cwd cfg) "umpire-se.params");
    ("SearchGUI_Parameters", join (cwd cfg) "search.par");
    ("FASTA_Database", join (cwd cfg) "database.fasta") ].

(** The paths the set-up may touch: the run log, and [processed] and
    [searched] with the directories above them. *)
Definition setup_paths (cfg : Config) : path → Prop := λ q,
  q = join (cwd cfg) FolderStructure.default_log_file
  ∨ q `prefix_of` join (cwd cfg) "processed"
  ∨ q `prefix_of` join (cwd cfg) "searched".

(** What holds at every point of the set-up: no command has been run, the
    calls made so far are [L], and the file system differs from the initial
    one on the set-up paths only. *)
Definition setting_up (cfg : Config) (fs : gmap path node) (L : list string)
    (w : World) : Prop :=
  frame (setup_paths cfg) fs (w_fs w) ∧ w_calls w = [] ∧ w_trace w = L.

(** The run ended, with a non-zero status, inside the set-up block. *)
Definition stopped_in_setup (cfg : Config) (fs : gmap path node)
    (r : res unit) (w : World) : Prop :=
  exit_status r ≠ 0%Z ∧ w_calls w = []
  ∧ w_trace w `prefix_of` setup_calls
  ∧ frame (setup_paths cfg) fs (w_fs w).

(** ** The calls of [sys.exit] *)

(** The five executables [FolderStructure.__init__] names. *)
Definition executable_paths (cfg : Config) : list (string * path) :=
  [ ("java_executable", cfg_java_executable cfg);
    ("dia_umpire_se", cfg_dia_umpire_se cfg);
    ("search_gui", cfg_search_gui cfg);
    ("peptide_shaker", cfg_peptide_shaker cfg);
    ("thermo_file_parser", cfg_thermo_file_parser cfg) ].

(** The state in which a run has called [sys.exit]: the last call [main]
    made, the last record of the log, and what the file system lacks. *)
Inductive fatal_exit (env : Env) (cfg : Config) (w : World) : Prop :=
| fatal_raw_directory :
    last (w_trace w) = Some "directory_setup" →
    last (w_log w) = Some (ERROR, FolderStructure.raw_missing_msg) →
    isdir (w_fs w) (join (cwd cfg) "raw") = false →
    fatal_exit env cfg w
| fatal_executable (names : list string) :
    last (w_trace w) = Some "executable_setup" →
    last (w_log w) = Some (ERROR, FolderStructure.missing_list_msg names) →
    names = missing_executables (w_fs w) (executable_paths cfg) →
    names ≠ [] →
    fatal_exit env cfg w
| fatal_parameter_file (names : list string) :
    last (w_trace w) = Some "parameter_check" →
    last (w_log w)
      = Some (ERROR, FolderStructure.parameters_missing_msg names) →
    names = parameter_files_missing (w_fs w) (parameter_paths cfg) →
    names ≠ [] →
    fatal_exit env cfg w
| fatal_raw_files_directory :
    last (w_trace w) = Some "identify_raw_files" →
    last (w_log w) = Some (ERROR, ConvertRawFiles.raw_dir_missing_msg) →
    isdir (w_fs w) (cfg_raw_dir cfg) = false →
    fatal_exit env cfg w
| fatal_no_converted_file :
    last (w_trace w) = Some "check_converted_raw_files" →
    last (w_log w) = Some (WARNING, ConvertRawFiles.no_files_msg) →
    fatal_exit env cfg w
| fatal_reports_directory (e : exn) :
    last (w_trace w) = Some "Reports" →
    last (w_log w) = Some (ERROR, Reports.reports_missing_msg) →
    isdir (w_fs w) (join (cwd cfg) "reports") = false →
    makedirs (mkdir_size env) true (w_fs w) (join (cwd cfg) "reports")
      = Err e →
    fatal_exit env cfg w.

(** Each of the six methods calls [sys.exit(1)] whenever what it checks
    fails. *)
Definition exits_when_failing (env : Env) (cfg : Config) : Prop :=
  (∀ self w,
     isdir (w_fs w) (join (FolderStructure.top_dir self) "raw") = false →
     (FolderStructure.directory_setup env self w).1 = Exit 1)
  ∧ (∀ self w,
       missing_executables (w_fs w) (FolderStructure.executables self) ≠ [] →
       (FolderStructure.executable_setup self w).1 = Exit 1)
  ∧ (∀ self w,
       parameter_files_missing (w_fs w) (FolderStructure.parameter_files self)
         ≠ [] →
       (FolderStructure.parameter_check self w).1 = Exit 1)
  ∧ (∀ self w,
       isdir (w_fs w) (ConvertRawFiles.raw_dir self) = false →
       (ConvertRawFiles.identify_raw_files self w).1 = Exit 1)
  ∧ (∀ self w,
       ConvertRawFiles.raw_files self = [] →
       (ConvertRawFiles.check_converted_raw_files self w).1 = Exit 1)
  ∧ (∀ raw_dir thermo_file_parser reference_name w e,
       isdir (w_fs w) (join (cwd cfg) "reports") = false →
       makedirs (mkdir_size env) true (w_fs w) (join (cwd cfg) "reports")
         = Err e →
       (Reports.init env cfg raw_dir thermo_file_parser reference_name w).1
         = Exit 1).

(** The failures the specification names, in the state [w]: the raw
    directory of the workspace or the configured one is missing, a
    mandatory executable is missing, or a parameter file is missing. *)
Definition precondition_failure (cfg : Config) (w : World) : Prop :=
  isdir (w_fs w) (join (cwd cfg) "raw") = false
  ∨ isdir (w_fs w) (cfg_raw_dir cfg) = false
  ∨ missing_executables (w_fs w) (executable_paths cfg) ≠ []
  ∨ parameter_files_missing (w_fs w) (parameter_paths cfg) ≠ [].

(** ** The summary *)

(** [m] never returns a value: it raises or exits. *)
Definition never_returns {A} (m : M A) : Prop :=
  ∀ w a, (m w).1 ≠ Val a.

(** Every stage has recorded when it started and ended, and the search
    has returned its list of files. *)
Definition all_timed (s : Main.Summary.t) : Prop :=
  let conv := Main.Summary.convert_raw_files s in
  let dia := Main.Summary.dia_umpire s in
  let sdb := Main.Summary.search_database s in
  let shaker := Main.Summary.prepare_peptideshaker s in
  let reports := Main.Summary.export_reports s in
  (is_Some (ConvertRawFiles.conversion_end_time conv)
   ∧ is_Some (ConvertRawFiles.conversion_start_time conv))
  ∧ (is_Some (DiaUmpire.umpire_end_time dia)
     ∧ is_Some (DiaUmpire.umpire_start_time dia))
  ∧ (is_Some (SearchDatabase.search_end_time sdb)
     ∧ is_Some (SearchDatabase.search_start_time sdb))
  ∧ is_Some (Main.Summary.to_search s)
  ∧ (is_Some (PeptideShaker.shaker_end_time shaker)
     ∧ is_Some (PeptideShaker.shaker_start_time shaker))
  ∧ (is_Some (Reports.reports_end_time reports)
     ∧ is_Some (Reports.reports_start_time reports)).

(** The run ended with a non-zero status and left the file system as it
    found it. *)
Definition stopped_without_effect (fs : gmap path node)
    (r : res unit) (w : World) : Prop :=
  exit_status r ≠ 0%Z ∧ w_fs w = fs.

End Spec.

Export Spec.

(* ===================================================================== *)
(** * A sample workspace *)
(* ===================================================================== *)

Module Sample.

(** External tools that all fail with return code 1 and touch nothing. *)
Definition env : Env := {|
  exec := λ n argv fs, (Exited 1 "" "", fs);
  input_line := Some "run1";
  time_at := λ n, Z.of_nat n;
  strftime := λ fmt loc t, pretty t;
  gmtime_error := λ t,
    if bool_decide (0 ≤ t)%Z then None
    else Some (Exn OSError "[Errno 22] Invalid argument");
  mkdir_size := 0;
  encoded_size := λ s, N.of_nat (String.length s);
  to_excel := λ src dst fs, Ok fs
|}.

Definition top : path := ["work"].

Definition cfg : Config := {|
  cwd := top;
  cfg_raw_dir := top ++ ["raw"];
  cfg_thermo_file_parser := ["tools"; "ThermoRawFileParser.exe"];
  cfg_java_executable := ["tools"; "java.exe"];
  cfg_dia_umpire_se := ["tools"; "DIA_Umpire_SE.jar"];
  cfg_search_gui := ["tools"; "SearchGUI.jar"];
  cfg_peptide_shaker := ["tools"; "PeptideShaker.jar"]
|}.

(** The four mandatory executables and the raw directory with one
    converted file. *)
Definition base : list (path * node) :=
  [ ([], Dir 0); (top, Dir 0); (top ++ ["raw"], Dir 0);
    (top ++ ["raw"; "sample1.mzML"], File 10);
    (["tools"], Dir 0);
    (["tools"; "java.exe"], File 1);
    (["tools"; "DIA_Umpire_SE.jar"], File 1);
    (["tools"; "SearchGUI.jar"], File 1);
    (["tools"; "PeptideShaker.jar"], File 1) ].

(** A workspace without the sequence database. *)
Definition fs_no_fasta : gmap path node :=
  list_to_map (base ++ [ (top ++ ["umpire-se.params"], File 1);
                         (top ++ ["search.par"], File 1) ]).

(** A complete workspace. *)
Definition fs_complete : gmap path node :=
  list_to_map (base ++ [ (top ++ ["umpire-se.params"], File 1);
                         (top ++ ["search.par"], File 1);
                         (top ++ ["database.fasta"], File 1) ]).

(** A complete workspace with the conversion tool, in which [sample1.raw]
    has been converted already. *)
Definition fs_second_run : gmap path node :=
  <[ top ++ ["raw"; "sample1.raw"] := File 20 ]>
    (<[ ["tools"; "ThermoRawFileParser.exe"] := File 1 ]> fs_complete).

(** The object [FolderStructure()] builds in this workspace, at time 0. *)
Definition folder_structure : FolderStructure.t :=
  FolderStructure.mk (cwd cfg) FolderStructure.default_log_file 0 None None
    (cfg_java_executable cfg) (cfg_dia_umpire_se cfg) (cfg_search_gui cfg)
    (cfg_peptide_shaker cfg) (cfg_thermo_file_parser cfg)
    (join (cwd cfg) "umpire-se.params") (join (cwd cfg) "search.par")
    (join (cwd cfg) "database.fasta") None.

(** DIA-Umpire ends with return code 0 but writes no log. *)
Definition env_no_log : Env := {|
  exec := λ n argv fs, (Exited 0 "" "", fs);
  input_line := input_line env;
  time_at := time_at env;
  strftime := strftime env;
  gmtime_error := gmtime_error env;
  mkdir_size := mkdir_size env;
  encoded_size := encoded_size env;
  to_excel := to_excel env
|}.

(** DIA-Umpire ends with return code 0 and writes its log, on a system
    whose clock is set back while it runs. *)
Definition env_clock_back : Env := {|
  exec := λ n argv fs,
    (Exited 0 "" "", <[ top ++ ["raw"; "diaumpire_se.log"] := File 1 ]> fs);
  input_line := input_line env;
  time_at := λ n, (- Z.of_nat n)%Z;
  strftime := strftime env;
  gmtime_error := gmtime_error env;
  mkdir_size := mkdir_size env;
  encoded_size := encoded_size env;
  to_excel := to_excel env
|}.

(** A [DiaUmpire] object whose input list names [sample1.mzML] twice. *)
Definition dia_twice : DiaUmpire.t :=
  DiaUmpire.mk (ConvertRawFiles.init (cfg_raw_dir cfg)
                                     (cfg_thermo_file_parser cfg))
    ["sample1.mzML"; "sample1.mzML"] 2 [] ∅ None None folder_structure
    (cfg_java_executable cfg) (cfg_dia_umpire_se cfg)
    (join (cwd cfg) "umpire-se.params").

(** A raw directory with a regular file named like a peak directory, a
    real peak directory and a byproduct to delete. *)
Definition fs_peaks : gmap path node :=
  list_to_map
    [ ([], Dir 0); (top, Dir 0); (top ++ ["raw"], Dir 0);
      (top ++ ["raw"; "notes_Peak"], File 7);
      (top ++ ["raw"; "sample1_Peak"], Dir 0);
      (top ++ ["raw"; "sample1_Peak"; "a.ser"], File 3);
      (top ++ ["raw"; "sample1.ScanPosFS"], File 5);
      (top ++ ["raw"; "sample1.mzML"], File 10) ].

(** A complete workspace in which [reports] is a regular file. *)
Definition fs_reports_file : gmap path node :=
  <[ top ++ ["reports"] := File 1 ]> fs_complete.

(** A processed directory with an empty tier file, a tier file with
    content, and a file of tier 2 whose tier 1 is missing. *)
Definition fs_processed : gmap path node :=
  list_to_map
    [ ([], Dir 0); (top, Dir 0); (top ++ ["processed"], Dir 0);
      (top ++ ["processed"; "a_Q1.mgf"], File 0);
      (top ++ ["processed"; "b_Q1.mgf"], File 5);
      (top ++ ["processed"; "c_Q2.mgf"], File 9) ].

(** A [SearchDatabase] object of this workspace. *)
Definition search_database : SearchDatabase.t :=
  let conv := ConvertRawFiles.init (cfg_raw_dir cfg)
                                   (cfg_thermo_file_parser cfg) in
  let mv := MoveOutputFiles.init (cfg_raw_dir cfg) conv in
  SearchDatabase.mk folder_structure conv mv (MoveOutputFiles.raw_names mv)
    (cfg_java_executable cfg) (cfg_search_gui cfg)
    (join (cwd cfg) "database.fasta") (join (cwd cfg) "search.par")
    "run1" (top ++ ["processed"]) (top ++ ["searched"]) None None.

(** The same processed directory in a workspace with other content. *)
Definition fs_processed_later : gmap path node :=
  <[ top ++ ["reports"] := Dir 0 ]>
    (<[ top ++ ["raw"] := Dir 0 ]> fs_processed).

End Sample.

(* ===================================================================== *)
(** * Rules for reasoning about computations *)
(* ===================================================================== *)

Module Rules.

Lemma bind_eq {A B} (m : M A) (f : A → M B) w :
  (m ≫= f) w =
  match m w with
  | (Val a, w') => f a w'
  | (Exc e, w') => (Exc e, w')
  | (Exit c, w') => (Exit c, w')
  end.
Proof. reflexivity. Qed.

Lemma bind_val {A B} (m : M A) (f : A → M B) w a w' :
  m w = (Val a, w') → (m ≫= f) w = f a w'.
Proof. intros H. rewrite bind_eq, H. reflexivity. Qed.

Lemma bind_exc {A B} (m : M A) (f : A → M B) w e w' :
  m w = (Exc e, w') → (m ≫= f) w = (Exc e, w').
Proof. intros H. rewrite bind_eq, H. reflexivity. Qed.

Lemma bind_exit {A B} (m : M A) (f : A → M B) w c w' :
  m w = (Exit c, w') → (m ≫= f) w = (Exit c, w').
Proof. intros H. rewrite bind_eq, H. reflexivity. Qed.

(** ** Relations on states *)

#[global] Instance any_preorder {A} : PreOrder (@any A).
Proof. split; repeat intro; exact I. Qed.

#[global] Instance frame_preorder X : PreOrder (frame X).
Proof.
  split.
  - intros fs p _. reflexivity.
  - intros a b c Hab Hbc p Hp. rewrite (Hbc p Hp). exact (Hab p Hp).
Qed.

#[global] Instance rel_preorder Rfs Rc Rt
    `{!PreOrder Rfs, !PreOrder Rc, !PreOrder Rt} : PreOrder (rel Rfs Rc Rt).
Proof.
  split.
  - intros w. repeat split; reflexivity.
  - intros a b c (H1 & H2 & H3 & H4 & H5) (G1 & G2 & G3 & G4 & G5).
    repeat split; etransitivity; eassumption.
Qed.

Lemma frame_weaken (X Y : path → Prop) fs fs' :
  (∀ p, X p → Y p) → frame X fs fs' → frame Y fs fs'.
Proof. intros HXY H p Hp. apply H. intros Hx. apply Hp, HXY, Hx. Qed.

Lemma rel_weaken (Rfs Rfs' : relation (gmap path node)) Rc Rc' Rt Rt' w w' :
  (∀ a b, Rfs a b → Rfs' a b) → (∀ a b, Rc a b → Rc' a b) →
  (∀ a b, Rt a b → Rt' a b) →
  rel Rfs Rc Rt w w' → rel Rfs' Rc' Rt' w w'.
Proof.
  intros H1 H2 H3 (G1 & G2 & G3 & G4 & G5). repeat split; auto.
Qed.

Lemma preserves_weaken {A} (R R' : relation World) (m : M A) :
  (∀ w w', R w w' → R' w w') → preserves R m → preserves R' m.
Proof. intros H Hm w. apply H, Hm. Qed.

(** ** [preserves] *)

Section Preserves.
Context (R : relation World) `{!PreOrder R}.

Lemma preserves_ret {A} (a : A) : preserves R (mret a).
Proof. intros w. simpl. reflexivity. Qed.

Lemma preserves_raise {A} e : preserves R (@raise A e).
Proof. intros w. simpl. reflexivity. Qed.

Lemma preserves_sys_exit {A} c : preserves R (@sys_exit A c).
Proof. intros w. simpl. reflexivity. Qed.

Lemma preserves_bind {A B} (m : M A) (f : A → M B) :
  preserves R m → (∀ a, preserves R (f a)) → preserves R (m ≫= f).
Proof.
  intros Hm Hf w. rewrite bind_eq. specialize (Hm w).
  destruct (m w) as [[a|e|c] w1]; simpl in *; try assumption.
  etransitivity; [exact Hm | apply Hf].
Qed.

Lemma preserves_try_except {A} (body : M A) handler :
  preserves R body → (∀ e, preserves R (handler e)) →
  preserves R (try_except body handler).
Proof.
  intros Hb Hh w. unfold try_except. specialize (Hb w).
  destruct (body w) as [[a|e|c] w1]; simpl in *; try assumption.
  etransitivity; [exact Hb | apply Hh].
Qed.

Lemma preserves_try_bare {A} (body handler : M A) :
  preserves R body → preserves R handler →
  preserves R (try_bare body handler).
Proof.
  intros Hb Hh w. unfold try_bare. specialize (Hb w).
  destruct (body w) as [[a|e|c] w1]; simpl in *; try assumption;
    (etransitivity; [exact Hb | apply Hh]).
Qed.

Lemma preserves_for {A} (l : list A) body :
  (∀ x, preserves R (body x)) → preserves R (for_ l body).
Proof.
  intros Hb. induction l as [|x l IH]; simpl.
  - apply preserves_ret.
  - apply preserves_bind; [apply Hb | intros _; exact IH].
Qed.

Lemma preserves_for_acc {A S} (l : list A) (body : S → A → M S) s :
  (∀ s x, preserves R (body s x)) → preserves R (for_acc l s body).
Proof.
  intros Hb. revert s. induction l as [|x l IH]; intros s; simpl.
  - apply preserves_ret.
  - apply preserves_bind; [apply Hb | intros s'; apply IH].
Qed.
End Preserves.

Section Primitives.
Context (Rfs : relation (gmap path node))
        (Rc : relation (list (list string)))
        (Rt : relation (list string))
        `{!PreOrder Rfs, !PreOrder Rc, !PreOrder Rt}.
#[local] Abbreviation R := (rel Rfs Rc Rt).

Ltac rel_fields :=
  repeat split; simpl; try reflexivity; auto.

Lemma preserves_log lvl msg : preserves R (log lvl msg).
Proof.
  intros w. rel_fields.
  destruct (passes _ _); [apply prefix_app_r|]; reflexivity.
Qed.

Lemma preserves_basicConfig : preserves R basicConfig_info.
Proof. intros w. rel_fields. Qed.

Lemma preserves_time_time env : preserves R (time_time env).
Proof. intros w. rel_fields. Qed.

Lemma preserves_input env : preserves R (input_ env).
Proof.
  unfold input_. destruct (input_line env);
    [apply preserves_ret | apply preserves_raise]; apply _.
Qed.

Lemma preserves_fs_read {A} (f : gmap path node → A) :
  preserves R (fs_read f).
Proof. intros w. rel_fields. Qed.

Lemma preserves_fs_try {A} (f : gmap path node → result A) :
  preserves R (fs_try f).
Proof. intros w. unfold fs_try. destruct (f (w_fs w)); rel_fields. Qed.

Lemma preserves_fs_update f :
  (∀ fs fs', f fs = Ok fs' → Rfs fs fs') → preserves R (fs_update f).
Proof.
  intros Hf w. unfold fs_update.
  destruct (f (w_fs w)) as [fs'|e] eqn:E; rel_fields.
Qed.

Lemma preserves_os_remove p :
  (∀ fs, Rfs fs (delete p fs)) → preserves R (os_remove p).
Proof.
  intros Hf w. unfold os_remove, remove.
  destruct (w_fs w !! p) as [[n|n]|]; [destruct (decide _)|..]; rel_fields.
Qed.

Lemma preserves_enter name :
  (∀ l, Rt l (l ++ [name])) → preserves R (enter name).
Proof. intros H w. rel_fields. Qed.

Lemma preserves_run_process env argv :
  (∀ fs fs', Rfs fs fs') → (∀ l, Rc l (l ++ [argv])) →
  preserves R (run_process env argv).
Proof.
  intros H1 H2 w. unfold run_process.
  destruct (exec env _ _ _) as [r fs']. rel_fields.
Qed.

Lemma preserves_subprocess_call env argv :
  (∀ fs fs', Rfs fs fs') → (∀ l, Rc l (l ++ [argv])) →
  preserves R (subprocess_call env argv).
Proof.
  intros H1 H2. unfold subprocess_call.
  apply preserves_bind; [apply _ | apply preserves_run_process; auto |].
  intros [rc out err|e]; [apply preserves_ret | apply preserves_raise];
    apply _.
Qed.

Lemma preserves_subprocess_run_check env argv :
  (∀ fs fs', Rfs fs fs') → (∀ l, Rc l (l ++ [argv])) →
  preserves R (subprocess_run_check env argv).
Proof.
  intros H1 H2. unfold subprocess_run_check.
  apply preserves_bind; [apply _ | apply preserves_run_process; auto |].
  intros [rc out err|e]; [|apply preserves_raise; apply _].
  destruct (bool_decide _); [apply preserves_ret | apply preserves_raise];
    apply _.
Qed.
End Primitives.

(** ** [exits_with] *)

Section Exits.
Context (P : Z → World → Prop).

Lemma exits_ret {A} (a : A) : exits_with P (mret a).
Proof. intros w c. discriminate. Qed.

Lemma exits_raise {A} e : exits_with P (@raise A e).
Proof. intros w c. discriminate. Qed.

Lemma exits_sys_exit {A} c : (∀ w, P c w) → exits_with P (@sys_exit A c).
Proof. intros H w c' [= <-]. apply H. Qed.

Lemma exits_bind {A B} (m : M A) (f : A → M B) :
  exits_with P m → (∀ a, exits_with P (f a)) → exits_with P (m ≫= f).
Proof.
  intros Hm Hf w c. rewrite bind_eq. specialize (Hm w).
  destruct (m w) as [[a|e|c'] w1]; simpl in *.
  - apply Hf.
  - discriminate.
  - intros [= <-]. apply (Hm c'). reflexivity.
Qed.

Lemma exits_try_except {A} (body : M A) handler :
  exits_with P body → (∀ e, exits_with P (handler e)) →
  exits_with P (try_except body handler).
Proof.
  intros Hb Hh w c. unfold try_except. specialize (Hb w).
  destruct (body w) as [[a|e|c'] w1]; simpl in *.
  - discriminate.
  - apply Hh.
  - intros [= <-]. apply (Hb c'). reflexivity.
Qed.

Lemma exits_try_bare {A} (body handler : M A) :
  exits_with P handler → exits_with P (try_bare body handler).
Proof.
  intros Hh w c. unfold try_bare.
  destruct (body w) as [[a|e|c'] w1]; simpl in *.
  - discriminate.
  - apply Hh.
  - apply Hh.
Qed.

Lemma exits_for {A} (l : list A) body :
  (∀ x, exits_with P (body x)) → exits_with P (for_ l body).
Proof.
  intros Hb. induction l as [|x l IH]; simpl.
  - apply exits_ret.
  - apply exits_bind; [apply Hb | intros _; exact IH].
Qed.

Lemma exits_for_acc {A S} (l : list A) (body : S → A → M S) s :
  (∀ s x, exits_with P (body s x)) → exits_with P (for_acc l s body).
Proof.
  intros Hb. revert s. induction l as [|x l IH]; intros s; simpl.
  - apply exits_ret.
  - apply exits_bind; [apply Hb | intros s'; apply IH].
Qed.

Lemma exits_log lvl msg : exits_with P (log lvl msg).
Proof. intros w c. discriminate. Qed.
Lemma exits_basicConfig : exits_with P basicConfig_info.
Proof. intros w c. discriminate. Qed.
Lemma exits_enter n : exits_with P (enter n).
Proof. intros w c. discriminate. Qed.
Lemma exits_time_time env : exits_with P (time_time env).
Proof. intros w c. discriminate. Qed.
Lemma exits_input env : exits_with P (input_ env).
Proof. unfold input_. intros w c. destruct (input_line env); discriminate. Qed.
Lemma exits_fs_read {A} (f : gmap path node → A) : exits_with P (fs_read f).
Proof. intros w c. discriminate. Qed.
Lemma exits_fs_try {A} (f : gmap path node → result A) :
  exits_with P (fs_try f).
Proof. intros w c. unfold fs_try. destruct (f _); discriminate. Qed.
Lemma exits_fs_update f : exits_with P (fs_update f).
Proof. intros w c. unfold fs_update. destruct (f _); discriminate. Qed.
Lemma exits_os_remove p : exits_with P (os_remove p).
Proof. intros w c. unfold os_remove. destruct (remove _ _ _); discriminate. Qed.
Lemma exits_run_process env argv : exits_with P (run_process env argv).
Proof.
  intros w c. unfold run_process. destruct (exec _ _ _ _). discriminate.
Qed.
Lemma exits_subprocess_call env argv : exits_with P (subprocess_call env argv).
Proof.
  unfold subprocess_call. apply exits_bind; [apply exits_run_process|].
  intros [rc out err|e]; [apply exits_ret | apply exits_raise].
Qed.
Lemma exits_subprocess_run_check env argv :
  exits_with P (subprocess_run_check env argv).
Proof.
  unfold subprocess_run_check. apply exits_bind; [apply exits_run_process|].
  intros [rc out err|e]; [|apply exits_raise].
  destruct (bool_decide _); [apply exits_ret | apply exits_raise].
Qed.
End Exits.

Lemma exits_weaken {A} (P Q : Z → World → Prop) (m : M A) :
  (∀ c w, P c w → Q c w) → exits_with P m → exits_with Q m.
Proof. intros H Hm w c E. apply H, (Hm w c E). Qed.

(** ** [vals_with] *)

Lemma vals_ret {A} (P : A → Prop) a : P a → vals_with P (mret a).
Proof. intros H w a' [= <-]. exact H. Qed.

Lemma vals_raise {A} (P : A → Prop) e : vals_with P (raise e).
Proof. intros w a. discriminate. Qed.

Lemma vals_sys_exit {A} (P : A → Prop) c : vals_with P (sys_exit c).
Proof. intros w a. discriminate. Qed.

Lemma vals_bind {A B} (P : B → Prop) (m : M A) (f : A → M B) :
  (∀ a, vals_with P (f a)) → vals_with P (m ≫= f).
Proof.
  intros Hf w b. rewrite bind_eq.
  destruct (m w) as [[a|e|c] w1]; simpl; try discriminate. apply Hf.
Qed.

Lemma vals_try_except {A} (P : A → Prop) (body : M A) handler :
  vals_with P body → (∀ e, vals_with P (handler e)) →
  vals_with P (try_except body handler).
Proof.
  intros Hb Hh w a. unfold try_except. specialize (Hb w).
  destruct (body w) as [[a'|e|c] w1]; simpl in *.
  - apply Hb.
  - apply Hh.
  - discriminate.
Qed.

Lemma vals_for_acc {A S} (P : S → Prop) (l : list A) (body : S → A → M S) :
  (∀ s x, P s → vals_with P (body s x)) →
  ∀ s, P s → vals_with P (for_acc l s body).
Proof.
  intros Hb. induction l as [|x l IH]; intros s Hs; simpl.
  - apply vals_ret, Hs.
  - intros w a. rewrite bind_eq. specialize (Hb s x Hs w).
    destruct (body s x w) as [[s1|e|c] w1]; simpl in *; try discriminate.
    apply IH. apply Hb. reflexivity.
Qed.

(** ** Loops with an invariant *)

(** The invariant holds when the loop returns; a turn that does not
    return ends the loop in [QE]. *)
Lemma for_acc_inv {A S} (l : list A) (body : S → A → M S)
    (I : S → World → Prop) (QE : res S → World → Prop) :
  (∀ s x w, x ∈ l → I s w →
     match body s x w with
     | (Val s', w') => I s' w'
     | (r, w') => QE r w'
     end) →
  ∀ s w, I s w →
    match for_acc l s body w with
    | (Val s', w') => I s' w'
    | (r, w') => QE r w'
    end.
Proof.
  induction l as [|x l IH]; intros Hb s w Hi; simpl.
  - exact Hi.
  - rewrite bind_eq. specialize (Hb s x w (list_elem_of_here _ _) Hi) as Hx.
    destruct (body s x w) as [[s1|e|c] w1]; try exact Hx.
    apply IH; [|exact Hx].
    intros s2 y w2 Hy. apply Hb. apply list_elem_of_further, Hy.
Qed.

Lemma for_inv {A} (l : list A) (body : A → M unit)
    (I : World → Prop) (QE : res unit → World → Prop) :
  (∀ x w, x ∈ l → I w →
     match body x w with
     | (Val _, w') => I w'
     | (r, w') => QE r w'
     end) →
  ∀ w, I w →
    match for_ l body w with
    | (Val _, w') => I w'
    | (r, w') => QE r w'
    end.
Proof.
  induction l as [|x l IH]; intros Hb w Hi; simpl.
  - exact Hi.
  - rewrite bind_eq. specialize (Hb x w (list_elem_of_here _ _) Hi) as Hx.
    destruct (body x w) as [[[]|e|c] w1]; try exact Hx.
    apply IH; [|exact Hx].
    intros y w2 Hy. apply Hb. apply list_elem_of_further, Hy.
Qed.

(** A loop whose turns always return and only add to the state: what a
    turn establishes for its element still holds at the end. *)
Lemma for_acc_all {A S} (l : list A) (body : S → A → M S)
    (I : S → World → Prop) (le : relation (S * World)) `{!PreOrder le}
    (P : A → S → World → Prop) :
  (∀ x s w, x ∈ l → I s w →
     ∃ s' w', body s x w = (Val s', w') ∧ I s' w'
              ∧ le (s, w) (s', w') ∧ P x s' w') →
  (∀ x s w s' w', P x s w → le (s, w) (s', w') → P x s' w') →
  ∀ s w, I s w →
    ∃ s' w', for_acc l s body w = (Val s', w') ∧ I s' w'
             ∧ le (s, w) (s', w') ∧ ∀ x, x ∈ l → P x s' w'.
Proof.
  intros Hb Hup. induction l as [|x l IH]; intros s w Hi; simpl.
  - exists s, w. repeat split; [exact Hi | reflexivity |].
    intros x Hx. inversion Hx.
  - destruct (Hb x s w (list_elem_of_here _ _) Hi)
      as (s1 & w1 & E1 & Hi1 & Hle1 & Hp1).
    rewrite (bind_val _ _ _ _ _ E1).
    destruct IH with (s := s1) (w := w1)
      as (s2 & w2 & E2 & Hi2 & Hle2 & Hp2); [|exact Hi1|].
    { intros y s' w' Hy. apply Hb. apply list_elem_of_further, Hy. }
    exists s2, w2. repeat split; [exact E2 | exact Hi2 | |].
    + etransitivity; eassumption.
    + intros y Hy. apply elem_of_cons in Hy as [->|Hy].
      * eapply Hup; eassumption.
      * apply Hp2, Hy.
Qed.

End Rules.

Import Rules.

(* ===================================================================== *)
(** * Proof automation *)
(* ===================================================================== *)

Ltac pres_step :=
  first
    [ match goal with
      | |- PreOrder _ => apply _
      end
    | apply preserves_ret
    | apply preserves_raise
    | apply preserves_sys_exit
    | apply preserves_log
    | apply preserves_basicConfig
    | apply preserves_time_time
    | apply preserves_input
    | apply preserves_fs_read
    | apply preserves_fs_try
    | apply preserves_bind
    | apply preserves_try_except
    | apply preserves_try_bare
    | apply preserves_for
    | apply preserves_for_acc
    | match goal with
      | |- preserves _ (if ?b then _ else _) => destruct b
      | |- preserves _ (match ?x with _ => _ end) => destruct x
      end
    | progress intros ].

Ltac pres := repeat pres_step.

Lemma exits_log_sys_exit {A} (Q : Z → World → Prop) lvl msg c :
  (∀ w, Q c (log lvl msg w).2) →
  exits_with Q (log lvl msg ;; @sys_exit A c).
Proof. intros H w c'. rewrite bind_eq. simpl. intros [= <-]. apply H. Qed.

Ltac exits_step :=
  first
    [ apply exits_ret
    | apply exits_raise
    | apply exits_log_sys_exit
    | apply exits_log
    | apply exits_basicConfig
    | apply exits_enter
    | apply exits_time_time
    | apply exits_input
    | apply exits_fs_read
    | apply exits_fs_try
    | apply exits_fs_update
    | apply exits_os_remove
    | apply exits_subprocess_call
    | apply exits_subprocess_run_check
    | apply exits_run_process
    | apply exits_bind
    | apply exits_try_except
    | apply exits_try_bare
    | apply exits_for
    | apply exits_for_acc
    | match goal with
      | |- exits_with _ (if ?b then _ else _) => destruct b
      | |- exits_with _ (match ?x with _ => _ end) => destruct x
      end
    | progress intros ].

Ltac exits := repeat exits_step.

(** Records above INFO pass every threshold. *)
Lemma passes_not_info c lvl : lvl ≠ INFO → passes c lvl = true.
Proof. destruct c, lvl; simpl; congruence. Qed.

Lemma log_last lvl msg w :
  lvl ≠ INFO → last (w_log (log lvl msg w).2) = Some (lvl, msg).
Proof.
  intros Hl. simpl. rewrite passes_not_info by exact Hl. apply last_snoc.
Qed.

Ltac mrun := repeat (rewrite bind_eq; simpl).

(** ** The log *)

Lemma new_log_spec w w' :
  w_log w `prefix_of` w_log w' → w_log w' = w_log w ++ new_log w w'.
Proof.
  intros [k Hk]. unfold new_log. rewrite Hk, drop_app_length. reflexivity.
Qed.

Lemma rel_log Rfs Rc Rt w w' :
  rel Rfs Rc Rt w w' → w_log w `prefix_of` w_log w'.
Proof. intros (_ & _ & _ & _ & H). exact H. Qed.

Lemma rel_fs_eq Rc Rt w w' : rel eq Rc Rt w w' → w_fs w' = w_fs w.
Proof. intros (H & _). symmetry. exact H. Qed.

Lemma rel_calls_eq Rfs Rt w w' : rel Rfs eq Rt w w' → w_calls w' = w_calls w.
Proof. intros (_ & H & _). symmetry. exact H. Qed.

Lemma rel_trace_eq Rfs Rc w w' : rel Rfs Rc eq w w' → w_trace w' = w_trace w.
Proof. intros (_ & _ & H & _). symmetry. exact H. Qed.

Lemma new_log_mono w w1 w2 x :
  w_log w `prefix_of` w_log w1 → w_log w1 `prefix_of` w_log w2 →
  x ∈ new_log w1 w2 → x ∈ new_log w w2.
Proof.
  intros H1 H2 Hx.
  apply new_log_spec in H1, H2. unfold new_log at 1.
  rewrite H2, H1, <- app_assoc, drop_app_length.
  apply elem_of_app. right. exact Hx.
Qed.

Lemma new_log_first w w1 w2 x :
  w_log w `prefix_of` w_log w1 → w_log w1 `prefix_of` w_log w2 →
  x ∈ new_log w w1 → x ∈ new_log w w2.
Proof.
  intros H1 H2 Hx.
  apply new_log_spec in H1, H2. unfold new_log at 1.
  rewrite H2, H1, <- app_assoc, drop_app_length.
  apply elem_of_app. left. exact Hx.
Qed.

Lemma new_log_log_elem lvl msg w :
  lvl ≠ INFO → (lvl, msg) ∈ new_log w (log lvl msg w).2.
Proof.
  intros Hl. unfold new_log. simpl. rewrite passes_not_info by exact Hl.
  rewrite drop_app_length. left.
Qed.

(* ===================================================================== *)
(** * Facts about the file system *)
(* ===================================================================== *)

Module OsFacts.

Lemma delete_frame (fs : gmap path node) p :
  frame (λ q, q = p) fs (delete p fs).
Proof. intros q Hq. apply lookup_delete_ne. congruence. Qed.

Lemma insert_frame (fs : gmap path node) p n :
  frame (λ q, q = p) fs (<[p := n]> fs).
Proof. intros q Hq. apply lookup_insert_ne. congruence. Qed.

Lemma open_append_frame fs fs' p :
  open_append fs p = Ok fs' → frame (λ q, q = p) fs fs'.
Proof.
  unfold open_append. intros H.
  destruct (fs !! p) as [[n|n]|]; try discriminate.
  - injection H as <-. reflexivity.
  - destruct (isdir fs (dirname p)); try discriminate. injection H as <-.
    apply insert_frame.
Qed.

Lemma write_file_frame size fs fs' p :
  write_file size fs p = Ok fs' → frame (λ q, q = p) fs fs'.
Proof.
  unfold write_file. intros H.
  destruct (fs !! p) as [[n|n]|]; try discriminate;
    destruct (isdir fs (dirname p)); try discriminate; injection H as <-;
    apply insert_frame.
Qed.

Lemma remove_frame inuse fs fs' p :
  remove inuse fs p = Ok fs' → frame (λ q, q = p) fs fs'.
Proof.
  unfold remove. intros H.
  destruct (fs !! p) as [[n|n]|]; try discriminate.
  destruct (decide _); try discriminate. injection H as <-.
  apply delete_frame.
Qed.

Lemma rmdir_frame fs fs' p :
  rmdir fs p = Ok fs' → frame (λ q, q = p) fs fs'.
Proof.
  unfold rmdir. intros H.
  destruct (fs !! p) as [[n|n]|]; try discriminate.
  destruct (children fs p); try discriminate. injection H as <-.
  apply delete_frame.
Qed.

Lemma prefixes_prefix acc p q :
  q ∈ prefixes acc p → q `prefix_of` acc ++ p.
Proof.
  revert acc. induction p as [|c p IH]; intros acc H; simpl in H.
  - inversion H.
  - apply elem_of_cons in H as [->|H].
    + exists p. rewrite <- app_assoc. reflexivity.
    + apply IH in H. rewrite <- app_assoc in H. exact H.
Qed.

Lemma mkdir_all_frame (X : path → Prop) dsize qs fs fs' :
  (∀ q, q ∈ qs → X q) →
  mkdir_all dsize qs fs = Ok fs' → frame X fs fs'.
Proof.
  revert fs. induction qs as [|q qs IH]; intros fs HX H; simpl in H.
  - injection H as <-. reflexivity.
  - assert (HXq : X q) by (apply HX; left).
    assert (HX' : ∀ q', q' ∈ qs → X q') by (intros; apply HX; right; done).
    destruct (fs !! q) as [[n|n]|] eqn:E; try discriminate.
    + apply IH; assumption.
    + apply IH in H; [|assumption].
      intros r Hr. rewrite (H r Hr). apply lookup_insert_ne. congruence.
Qed.

Lemma makedirs_frame dsize ok fs fs' p :
  makedirs dsize ok fs p = Ok fs' → frame (λ q, q `prefix_of` p) fs fs'.
Proof.
  unfold makedirs. intros H.
  destruct (fs !! p) as [[n|n]|]; try discriminate.
  - destruct ok; try discriminate. injection H as <-. reflexivity.
  - eapply mkdir_all_frame; [|exact H].
    intros q Hq. apply prefixes_prefix in Hq. exact Hq.
Qed.

End OsFacts.

Import OsFacts.

(** ** Inversion of a sequence *)

Lemma bind_exit_inv {A B} (m : M A) (f : A → M B) w c w2 :
  (m ≫= f) w = (Exit c, w2) →
  m w = (Exit c, w2) ∨ ∃ a w1, m w = (Val a, w1) ∧ f a w1 = (Exit c, w2).
Proof.
  rewrite bind_eq. destruct (m w) as [[a|e|c'] w1]; intros H.
  - right. eauto.
  - discriminate.
  - left. injection H as <- <-. reflexivity.
Qed.

Lemma bind_val_inv {A B} (m : M A) (f : A → M B) w b w2 :
  (m ≫= f) w = (Val b, w2) →
  ∃ a w1, m w = (Val a, w1) ∧ f a w1 = (Val b, w2).
Proof.
  rewrite bind_eq. destruct (m w) as [[a|e|c'] w1]; intros H;
    try discriminate. eauto.
Qed.

Lemma bind_exc_inv {A B} (m : M A) (f : A → M B) w e w2 :
  (m ≫= f) w = (Exc e, w2) →
  m w = (Exc e, w2) ∨ ∃ a w1, m w = (Val a, w1) ∧ f a w1 = (Exc e, w2).
Proof.
  rewrite bind_eq. destruct (m w) as [[a|e'|c'] w1]; intros H.
  - right. eauto.
  - left. injection H as <- <-. reflexivity.
  - discriminate.
Qed.

Lemma no_exit_elim {A} (m : M A) w c w' : no_exit m → m w ≠ (Exit c, w').
Proof. intros H E. apply (H w c). rewrite E. reflexivity. Qed.

Lemma exits_elim {A} (Q : Z → World → Prop) (m : M A) w c w' :
  exits_with Q m → m w = (Exit c, w') → Q c w'.
Proof. intros H E. specialize (H w c). rewrite E in H. apply H. reflexivity. Qed.

Lemma vals_elim {A} (P : A → Prop) (m : M A) w a w' :
  vals_with P m → m w = (Val a, w') → P a.
Proof. intros H E. specialize (H w a). rewrite E in H. apply H. reflexivity. Qed.

Lemma preserves_elim {A} (R : relation World) (m : M A) w r w' :
  preserves R m → m w = (r, w') → R w w'.
Proof. intros H E. specialize (H w). rewrite E in H. exact H. Qed.

(** Peels the sequence in [E : (m ≫= f) w = (Exit c, w')]: a first part
    that cannot exit is dropped. *)
Ltac peel_exit E :=
  let a := fresh "a" in
  let w1 := fresh "w" in
  let E1 := fresh "E" in
  apply bind_exit_inv in E as [E | (a & w1 & E1 & E)];
  [ try (exfalso; revert E; apply no_exit_elim; unfold no_exit; exits; fail) | ].

Ltac peel_val E :=
  let a := fresh "a" in
  let w1 := fresh "w" in
  let E1 := fresh "E" in
  apply bind_val_inv in E as (a & w1 & E1 & E).

(** ** Sequences of calls *)

Lemma wp_enter {B} n (f : unit → M B) Q w :
  wp (f tt) Q (entered n w) → wp (enter n ≫= f) Q w.
Proof. unfold wp. rewrite bind_eq. simpl. auto. Qed.

Lemma wp_bind_spec {A B} (m : M A) (f : A → M B)
    (R : relation World) (QX : Z → World → Prop) (PV : A → Prop)
    (Q : res B → World → Prop) w :
  preserves R m → exits_with QX m → vals_with PV m →
  (∀ a w', R w w' → PV a → wp (f a) Q w') →
  (∀ e w', R w w' → Q (Exc e) w') →
  (∀ c w', R w w' → QX c w' → Q (Exit c) w') →
  wp (m ≫= f) Q w.
Proof.
  intros HR HX HV Hv He Hx. unfold wp. rewrite bind_eq.
  specialize (HR w). specialize (HX w). specialize (HV w).
  destruct (m w) as [[a|e|c] w1]; simpl in *.
  - apply Hv; [exact HR | apply HV; reflexivity].
  - apply He, HR.
  - apply Hx; [exact HR | apply HX; reflexivity].
Qed.

Lemma wp_spec {A} (m : M A)
    (R : relation World) (QX : Z → World → Prop) (PV : A → Prop)
    (Q : res A → World → Prop) w :
  preserves R m → exits_with QX m → vals_with PV m →
  (∀ a w', R w w' → PV a → Q (Val a) w') →
  (∀ e w', R w w' → Q (Exc e) w') →
  (∀ c w', R w w' → QX c w' → Q (Exit c) w') →
  wp m Q w.
Proof.
  intros HR HX HV Hv He Hx. unfold wp.
  specialize (HR w). specialize (HX w). specialize (HV w).
  destruct (m w) as [[a|e|c] w1]; simpl in *.
  - apply Hv; [exact HR | apply HV; reflexivity].
  - apply He, HR.
  - apply Hx; [exact HR | apply HX; reflexivity].
Qed.

Lemma vals_any {A} (m : M A) : vals_with (λ _, True) m.
Proof. intros w a _. exact I. Qed.

Lemma exits_any {A} (m : M A) : exits_with (λ _ _, True) m.
Proof. intros w c _. exact I. Qed.

(* ===================================================================== *)
(** * folder_structure.py: facts *)
(* ===================================================================== *)

Module FolderStructureFacts.
Import FolderStructure.

Section WithEnv.
Context (env : Env) (cfg : Config).

Lemma init_preserves f : preserves (rel eq eq eq) (init env cfg f).
Proof. unfold init. pres. Qed.

Lemma init_no_exit f : no_exit (init env cfg f).
Proof. unfold init, no_exit. exits. Qed.

Lemma init_eq f w :
  ∃ self w',
    init env cfg f w = (Val self, w')
    ∧ rel eq eq eq w w' ∧ w_log w' = w_log w ∧ w_logcfg w' = w_logcfg w
    ∧ top_dir self = cwd cfg ∧ log_file self = f
    ∧ reference_name self = None
    ∧ java_executable self = cfg_java_executable cfg
    ∧ dia_umpire_se self = cfg_dia_umpire_se cfg
    ∧ search_gui self = cfg_search_gui cfg
    ∧ peptide_shaker self = cfg_peptide_shaker cfg
    ∧ thermo_file_parser self = cfg_thermo_file_parser cfg
    ∧ DIA_Umpire_Parameters self = join (cwd cfg) "umpire-se.params"
    ∧ SearchGUI_Parameters self = join (cwd cfg) "search.par"
    ∧ FASTA_Database self = join (cwd cfg) "database.fasta".
Proof.
  eexists _, _. split; [reflexivity|].
  split; [apply (init_preserves f w)|]. simpl. repeat split; reflexivity.
Qed.

Lemma init_fields f :
  vals_with (λ self,
      top_dir self = cwd cfg ∧ log_file self = f
      ∧ reference_name self = None
      ∧ executables self =
          [ ("java_executable", cfg_java_executable cfg);
            ("dia_umpire_se", cfg_dia_umpire_se cfg);
            ("search_gui", cfg_search_gui cfg);
            ("peptide_shaker", cfg_peptide_shaker cfg);
            ("thermo_file_parser", cfg_thermo_file_parser cfg) ]
      ∧ parameter_files self = parameter_paths cfg)
    (init env cfg f).
Proof.
  unfold init. apply vals_bind. intros now. apply vals_ret.
  repeat split; reflexivity.
Qed.

Lemma logging_setup_preserves self :
  preserves
    (rel (frame (λ q, q = join (top_dir self) (log_file self))) eq eq)
    (logging_setup env self).
Proof.
  unfold logging_setup. pres.
  - apply preserves_os_remove; pres. apply delete_frame.
  - apply preserves_fs_update; pres. eapply open_append_frame; eassumption.
Qed.

Lemma logging_setup_no_exit self : no_exit (logging_setup env self).
Proof. unfold logging_setup, no_exit. exits. Qed.

Lemma logging_setup_fields self :
  vals_with (λ self', self' = set_log_start_time
      (strftime env "%Y-%m-%d %H:%M:%S" true (script_start_time self)) self)
    (logging_setup env self).
Proof.
  unfold logging_setup. repeat (apply vals_bind; intros).
  apply vals_ret. reflexivity.
Qed.

(** ** [directory_setup] *)

Lemma directory_setup_preserves self :
  preserves
    (rel (frame (λ q, q `prefix_of` join (top_dir self) "processed"
                      ∨ q `prefix_of` join (top_dir self) "searched"))
         eq eq)
    (directory_setup env self).
Proof.
  unfold directory_setup, two_dirs, os_makedirs. simpl for_. pres.
  - apply preserves_fs_update; pres.
    eapply frame_weaken; [|eapply makedirs_frame; eassumption].
    simpl. auto.
  - apply preserves_fs_update; pres.
    eapply frame_weaken; [|eapply makedirs_frame; eassumption].
    simpl. auto.
Qed.

Lemma directory_setup_exits self :
  exits_with (λ c w, c = 1%Z ∧ last (w_log w) = Some (ERROR, raw_missing_msg))
    (directory_setup env self).
Proof.
  unfold directory_setup, os_makedirs. exits.
  split; [reflexivity|]. apply log_last. discriminate.
Qed.

Lemma directory_setup_fields self :
  vals_with (λ self', self' = set_raw_dir (join (top_dir self) "raw") self)
    (directory_setup env self).
Proof.
  unfold directory_setup. repeat (apply vals_bind; intros).
  apply vals_ret. reflexivity.
Qed.

(** Without the raw directory the method ends the run at once. *)
Lemma directory_setup_raw_missing self w :
  isdir (w_fs w) (join (top_dir self) "raw") = false →
  (directory_setup env self w).1 = Exit 1.
Proof.
  intros H. unfold directory_setup. mrun. rewrite H. mrun. reflexivity.
Qed.

(** With it, the method does not call [sys.exit]. *)
Lemma directory_setup_raw_present self w c w' :
  directory_setup env self w = (Exit c, w') →
  isdir (w_fs w) (join (top_dir self) "raw") = false.
Proof.
  unfold directory_setup, os_makedirs. intros E.
  peel_exit E. simpl in E0. injection E0 as _ <-.
  peel_exit E. simpl in E0. injection E0 as <- <-. simpl.
  destruct (isdir (w_fs w) _) eqn:Hd; [|reflexivity].
  peel_exit E. peel_exit E. discriminate.
Qed.

(** ** [executable_setup] *)

Lemma check_executable_preserves acc np :
  preserves (rel eq eq eq) (check_executable acc np).
Proof. unfold check_executable. destruct np. pres. Qed.

Lemma missing_executables_cons fs np l :
  missing_executables fs (np :: l)
  = missing_executables fs [np] ++ missing_executables fs l.
Proof.
  unfold missing_executables. rewrite <- map_app. f_equal.
  change (np :: l) with ([np] ++ l). apply filter_app.
Qed.

Lemma check_executable_spec acc name p w :
  ∃ w1, check_executable acc (name, p) w
        = (Val (acc ++ missing_executables (w_fs w) [(name, p)]), w1)
        ∧ rel eq eq eq w w1
        ∧ (name = "thermo_file_parser" → exists_ (w_fs w) p = false →
           (WARNING, thermo_warning) ∈ new_log w w1).
Proof.
  pose proof (check_executable_preserves acc (name, p) w) as Hpres.
  unfold missing_executables. rewrite filter_cons, filter_nil. simpl.
  unfold check_executable in *. rewrite bind_eq in *. simpl in *.
  destruct (exists_ (w_fs w) p) eqn:Ex.
  - rewrite decide_False by (intros [? _]; discriminate).
    rewrite bind_eq in *. simpl in *. rewrite app_nil_r.
    eexists. split; [reflexivity|]. split; [exact Hpres|]. congruence.
  - destruct (decide (name = "thermo_file_parser")) as [->|Hn].
    + rewrite decide_False by (intros [_ ?]; congruence).
      rewrite bind_eq in *. simpl in *. rewrite app_nil_r.
      eexists. split; [reflexivity|]. split; [exact Hpres|].
      intros _ _. apply new_log_log_elem. discriminate.
    + rewrite decide_True by (split; [reflexivity | exact Hn]).
      rewrite bind_eq in *. simpl in *.
      eexists. split; [reflexivity|]. split; [exact Hpres|]. congruence.
Qed.

Lemma check_executables_spec l acc w :
  ∃ w', for_acc l acc check_executable w
        = (Val (acc ++ missing_executables (w_fs w) l), w')
        ∧ rel eq eq eq w w'
        ∧ (∀ p, ("thermo_file_parser", p) ∈ l →
                exists_ (w_fs w) p = false →
                (WARNING, thermo_warning) ∈ new_log w w').
Proof.
  revert acc w. induction l as [|[name p] l IH]; intros acc w.
  - exists w. simpl. rewrite app_nil_r. repeat split; try reflexivity.
    intros p Hp. inversion Hp.
  - destruct (check_executable_spec acc name p w) as (w1 & E1 & R1 & W1).
    simpl for_acc. rewrite (bind_val _ _ _ _ _ E1).
    destruct (IH (acc ++ missing_executables (w_fs w) [(name, p)]) w1)
      as (w2 & E2 & R2 & W2).
    exists w2. rewrite E2, (rel_fs_eq _ _ _ _ R1).
    rewrite (missing_executables_cons _ (name, p) l), app_assoc.
    split; [reflexivity|]. split; [etransitivity; eassumption|].
    intros q Hq Hex. apply elem_of_cons in Hq as [[= <- <-]|Hq].
    + eapply new_log_first; [eapply rel_log, R1 | eapply rel_log, R2 |].
      apply W1; [reflexivity | exact Hex].
    + eapply new_log_mono; [eapply rel_log, R1 | eapply rel_log, R2 |].
      apply (W2 q); [exact Hq|]. rewrite (rel_fs_eq _ _ _ _ R1). exact Hex.
Qed.

(** What [executable_setup] does, in full: it ends the run exactly when a
    mandatory executable is not found. *)
Lemma executable_setup_spec self w :
  ∃ w', rel eq eq eq w w'
    ∧ (∀ p, ("thermo_file_parser", p) ∈ executables self →
            exists_ (w_fs w) p = false →
            (WARNING, thermo_warning) ∈ new_log w w')
    ∧ match missing_executables (w_fs w) (executables self) with
      | [] => executable_setup self w = (Val tt, w')
      | names =>
          executable_setup self w = (Exit 1, w')
          ∧ last (w_log w') = Some (ERROR, missing_list_msg names)
      end.
Proof.
  unfold executable_setup.
  destruct (check_executables_spec (executables self) [] w)
    as (w1 & E1 & R1 & W1).
  rewrite (bind_val _ _ _ _ _ E1). simpl app.
  destruct (missing_executables (w_fs w) (executables self)) as [|n ns].
  - exists w1. repeat split; try apply R1; assumption.
  - exists (log ERROR (missing_list_msg (n :: ns)) w1).2.
    assert (R2 : rel eq eq eq w1 (log ERROR (missing_list_msg (n :: ns)) w1).2)
      by (apply preserves_log; apply _).
    split; [etransitivity; eassumption|]. split.
    + intros q Hq Hex.
      eapply new_log_first; [eapply rel_log, R1 | eapply rel_log, R2 |].
      apply (W1 q); assumption.
    + split; [reflexivity|]. apply log_last. discriminate.
Qed.

(** ** [parameter_check] *)

Lemma check_parameter_file_preserves top acc np :
  preserves (rel eq eq eq) (check_parameter_file top acc np).
Proof. unfold check_parameter_file. destruct np. pres. Qed.

Lemma parameter_files_missing_cons fs np l :
  parameter_files_missing fs (np :: l)
  = parameter_files_missing fs [np] ++ parameter_files_missing fs l.
Proof.
  unfold parameter_files_missing. rewrite <- map_app. f_equal.
  change (np :: l) with ([np] ++ l). apply filter_app.
Qed.

Lemma check_parameter_file_spec top acc name p w :
  ∃ w1, check_parameter_file top acc (name, p) w
        = (Val (acc ++ parameter_files_missing (w_fs w) [(name, p)]), w1)
        ∧ rel eq eq eq w w1.
Proof.
  pose proof (check_parameter_file_preserves top acc (name, p) w) as Hpres.
  unfold parameter_files_missing. rewrite filter_cons, filter_nil. simpl.
  unfold check_parameter_file in *. rewrite bind_eq in *. simpl in *.
  destruct (exists_ (w_fs w) p) eqn:Ex.
  - rewrite decide_False by discriminate.
    rewrite bind_eq in *. simpl in *. rewrite app_nil_r.
    eexists. split; [reflexivity | exact Hpres].
  - rewrite decide_True by reflexivity.
    rewrite bind_eq in *. simpl in *.
    eexists. split; [reflexivity | exact Hpres].
Qed.

Lemma check_parameter_files_spec top l acc w :
  ∃ w', for_acc l acc (check_parameter_file top) w
        = (Val (acc ++ parameter_files_missing (w_fs w) l), w')
        ∧ rel eq eq eq w w'.
Proof.
  revert acc w. induction l as [|[name p] l IH]; intros acc w.
  - exists w. simpl. rewrite app_nil_r. split; reflexivity.
  - destruct (check_parameter_file_spec top acc name p w) as (w1 & E1 & R1).
    simpl for_acc. rewrite (bind_val _ _ _ _ _ E1).
    destruct (IH (acc ++ parameter_files_missing (w_fs w) [(name, p)]) w1)
      as (w2 & E2 & R2).
    exists w2. rewrite E2, (rel_fs_eq _ _ _ _ R1).
    rewrite (parameter_files_missing_cons _ (name, p) l), app_assoc.
    split; [reflexivity | etransitivity; eassumption].
Qed.

(** What [parameter_check] does, in full: it ends the run exactly when a
    parameter file is not found. *)
Lemma parameter_check_spec self w :
  ∃ w', rel eq eq eq w w'
    ∧ match parameter_files_missing (w_fs w) (parameter_files self) with
      | [] => parameter_check self w = (Val tt, w')
      | names =>
          parameter_check self w = (Exit 1, w')
          ∧ last (w_log w') = Some (ERROR, parameters_missing_msg names)
      end.
Proof.
  unfold parameter_check.
  destruct (check_parameter_files_spec (top_dir self) (parameter_files self)
              [] w) as (w1 & E1 & R1).
  rewrite (bind_val _ _ _ _ _ E1). simpl app.
  destruct (parameter_files_missing (w_fs w) (parameter_files self))
    as [|n ns].
  - exists w1. split; [exact R1 | reflexivity].
  - exists (log ERROR (parameters_missing_msg (n :: ns)) w1).2.
    split.
    + etransitivity; [exact R1|]. apply preserves_log; apply _.
    + split; [reflexivity|]. apply log_last. discriminate.
Qed.

(** A parameter file that does not exist is on the list. *)
Lemma parameter_files_missing_nonempty fs l name p :
  (name, p) ∈ l → exists_ fs p = false → parameter_files_missing fs l ≠ [].
Proof.
  intros Hin Hex Hnil. unfold parameter_files_missing in Hnil.
  apply fmap_nil_inv in Hnil.
  assert (H : (name, p) ∈ filter
            (λ np : string * path, exists_ fs np.2 = false) l)
    by (apply list_elem_of_filter; split; assumption).
  rewrite Hnil in H. inversion H.
Qed.

End WithEnv.
End FolderStructureFacts.

(* ===================================================================== *)
(** * The set-up block of [main] *)
(* ===================================================================== *)

Module SetupProps.
Import FolderStructure FolderStructureFacts.

Section WithEnv.
Context (env : Env) (cfg : Config).

Lemma setting_up_enter fs L n w :
  setting_up cfg fs L w → setting_up cfg fs (L ++ [n]) (entered n w).
Proof.
  intros (H1 & H2 & H3). unfold entered. repeat split; simpl.
  - exact H1.
  - exact H2.
  - congruence.
Qed.

Lemma setting_up_step fs L (X : path → Prop) w w' :
  (∀ q, X q → setup_paths cfg q) →
  setting_up cfg fs L w → rel (frame X) eq eq w w' → setting_up cfg fs L w'.
Proof.
  intros HX (H1 & H2 & H3) (G1 & G2 & G3 & _). repeat split.
  - etransitivity; [exact H1|]. eapply frame_weaken; eassumption.
  - congruence.
  - congruence.
Qed.

Lemma setting_up_step_eq fs L w w' :
  setting_up cfg fs L w → rel eq eq eq w w' → setting_up cfg fs L w'.
Proof.
  intros (H1 & H2 & H3) (G1 & G2 & G3 & _). repeat split.
  - rewrite <- G1. exact H1.
  - congruence.
  - congruence.
Qed.

Lemma setting_up_stopped fs L r w :
  exit_status r ≠ 0%Z → L `prefix_of` setup_calls →
  setting_up cfg fs L w → stopped_in_setup cfg fs r w.
Proof.
  intros Hr HL (H1 & H2 & H3). repeat split; try assumption. congruence.
Qed.

Lemma join_prefix_join (d : path) a b :
  join d a `prefix_of` join d b → a = b.
Proof.
  unfold join. intros H.
  apply prefix_length_eq in H; [|rewrite !length_app; simpl; lia].
  apply app_inv_head in H. congruence.
Qed.

Lemma parameter_path_not_setup name p :
  (name, p) ∈ parameter_paths cfg → ¬ setup_paths cfg p.
Proof.
  unfold parameter_paths. intros Hin [H|[H|H]];
    repeat (apply elem_of_cons in Hin as [[= _ ->]|Hin]);
    try (inversion Hin; fail);
    try (apply join_prefix_join in H; discriminate);
    apply app_inv_head in H; discriminate.
Qed.

(** C2, as amended — when a mandatory parameter file is absent at the
    workspace root, the run ends with a non-zero status inside the set-up
    block of [main]: before the prompt for the reference name and before
    any stage, without having run an external command, and having changed
    nothing of the file system but the run log and the directories
    [processed] and [searched], which [directory_setup] creates before
    [parameter_check] looks for the parameter files. *)
Theorem parameter_file_absent_stops_setup
    (fs : gmap path node) (inuse : gset path) (name : string) (p : path) :
  (name, p) ∈ parameter_paths cfg →
  exists_ fs p = false →
  let r := Main.run env cfg fs inuse in
  stopped_in_setup cfg fs r.1 r.2.
Proof.
  intros Hin Hex. cbv zeta.
  change (wp (Main.main env cfg) (stopped_in_setup cfg fs)
             (initial_world fs inuse)).
  assert (I0 : setting_up cfg fs [] (initial_world fs inuse))
    by (repeat split; reflexivity).
  unfold Main.main.
  (* FolderStructure() *)
  apply wp_enter. apply setting_up_enter with (n := "FolderStructure") in I0.
  eapply wp_bind_spec;
    [apply init_preserves | apply init_no_exit | apply init_fields | | |].
  2:{ intros e w' R. eapply setting_up_stopped;
        [discriminate | | eapply setting_up_step_eq; eassumption].
      by eexists. }
  2:{ intros c w' _ []. }
  intros self w1 R1 (Htop & Hlog & _ & Hexe & Hpar).
  apply (setting_up_step_eq _ _ _ _ I0) in R1 as I1. clear I0.
  (* logging_setup *)
  apply wp_enter. apply setting_up_enter with (n := "logging_setup") in I1.
  assert (Hlogp : ∀ q, q = join (top_dir self) (log_file self)
                       → setup_paths cfg q).
  { intros q ->. left. rewrite Htop, Hlog. reflexivity. }
  eapply wp_bind_spec;
    [apply logging_setup_preserves | apply logging_setup_no_exit
    | apply logging_setup_fields | | |].
  2:{ intros e w' R. eapply setting_up_stopped;
        [discriminate |
        | eapply (setting_up_step _ _ _ _ _ Hlogp); eassumption].
      by eexists. }
  2:{ intros c w' _ []. }
  intros self2 w2 R2 ->.
  apply (setting_up_step _ _ _ _ _ Hlogp I1) in R2 as I2. clear I1.
  (* directory_setup *)
  apply wp_enter. apply setting_up_enter with (n := "directory_setup") in I2.
  assert (Hdirs : ∀ q, q `prefix_of` join (cwd cfg) "processed"
                       ∨ q `prefix_of` join (cwd cfg) "searched"
                       → setup_paths cfg q) by (intros q Hq; right; exact Hq).
  eapply wp_bind_spec;
    [apply directory_setup_preserves | apply directory_setup_exits
    | apply directory_setup_fields | | |].
  2:{ intros e w' R. simpl in R. rewrite Htop in R.
      eapply setting_up_stopped;
        [discriminate |
        | eapply (setting_up_step _ _ _ _ _ Hdirs); eassumption].
      by eexists. }
  2:{ intros c w' R [-> _]. simpl in R. rewrite Htop in R.
      eapply setting_up_stopped;
        [discriminate |
        | eapply (setting_up_step _ _ _ _ _ Hdirs); eassumption].
      by eexists. }
  intros self3 w3 R3 ->. simpl in R3. rewrite Htop in R3.
  apply (setting_up_step _ _ _ _ _ Hdirs I2) in R3 as I3. clear I2.
  (* executable_setup *)
  apply wp_enter. apply setting_up_enter with (n := "executable_setup") in I3.
  match goal with |- wp (executable_setup ?s ≫= _) _ ?w =>
    destruct (executable_setup_spec s w) as (w4 & R4 & _ & H4);
    destruct (missing_executables (w_fs w) (executables s))
  end.
  2:{ destruct H4 as [E4 _]. unfold wp. rewrite (bind_exit _ _ _ _ _ E4).
      eapply setting_up_stopped;
        [discriminate | | eapply setting_up_step_eq; eassumption].
      by eexists. }
  unfold wp at 1. rewrite (bind_val _ _ _ _ _ H4). fold (wp (A := unit)).
  apply (setting_up_step_eq _ _ _ _ I3) in R4 as I4. clear I3.
  (* parameter_check *)
  apply wp_enter. apply setting_up_enter with (n := "parameter_check") in I4.
  match goal with |- wp (parameter_check ?s ≫= _) _ ?w =>
    destruct (parameter_check_spec s w) as (w5 & R5 & H5);
    pose proof (parameter_files_missing_nonempty (w_fs w) (parameter_files s)
                  name p) as Hne
  end.
  change (parameter_files _) with (parameter_files self) in Hne, H5.
  rewrite Hpar in Hne, H5.
  destruct I4 as (F4 & C4 & T4).
  assert (Hp : exists_ (w_fs (entered "parameter_check" w4)) p = false).
  { unfold exists_ in *. rewrite (F4 p); [exact Hex|].
    eapply parameter_path_not_setup. exact Hin. }
  specialize (Hne Hin Hp).
  destruct (parameter_files_missing _ _) as [|n ns]; [done|].
  destruct H5 as [E5 _]. unfold wp. rewrite (bind_exit _ _ _ _ _ E5).
  eapply setting_up_stopped; [discriminate | |
    eapply setting_up_step_eq; [|exact R5]; repeat split; eassumption].
  rewrite T4. by eexists.
Qed.

End WithEnv.

(** The theorem at the sample workspace that lacks [database.fasta]. *)
Lemma parameter_file_absent_stops_setup_witness :
  stopped_in_setup Sample.cfg Sample.fs_no_fasta
    (Main.run Sample.env Sample.cfg Sample.fs_no_fasta ∅).1
    (Main.run Sample.env Sample.cfg Sample.fs_no_fasta ∅).2.
Proof.
  apply (parameter_file_absent_stops_setup Sample.env Sample.cfg
           Sample.fs_no_fasta ∅ "FASTA_Database"
           (join (cwd Sample.cfg) "database.fasta")).
  - vm_compute. do 2 apply list_elem_of_further. apply list_elem_of_here.
  - vm_compute. reflexivity.
Defined.

(** C2, as stated, fails at the sample workspace that lacks
    [database.fasta]: the run ends with status 1, but [directory_setup]
    has created [processed] by then. *)
Lemma parameter_check_follows_directory_setup :
  exists_ Sample.fs_no_fasta (join (cwd Sample.cfg) "database.fasta") = false
  ∧ Sample.fs_no_fasta !! join (cwd Sample.cfg) "processed" = None
  ∧ w_fs (Main.run Sample.env Sample.cfg Sample.fs_no_fasta ∅).2
      !! join (cwd Sample.cfg) "processed" = Some (Dir 0)
  ∧ ¬ stopped_without_effect Sample.fs_no_fasta
        (Main.run Sample.env Sample.cfg Sample.fs_no_fasta ∅).1
        (Main.run Sample.env Sample.cfg Sample.fs_no_fasta ∅).2.
Proof.
  split; [vm_compute; reflexivity|].
  split; [vm_compute; reflexivity|].
  split; [vm_compute; reflexivity|].
  intros [_ H].
  apply (f_equal (λ m : gmap path node,
                    m !! join (cwd Sample.cfg) "processed")) in H.
  vm_compute in H. discriminate.
Qed.

End SetupProps.

(* ===================================================================== *)
(** * convert_raw_files.py: facts *)
(* ===================================================================== *)

Module ConversionProps.
Import ConvertRawFiles.

Lemma filter_none {A} (P : A → Prop) `{∀ x, Decision (P x)} (l : list A) :
  (∀ x, x ∈ l → ¬ P x) → filter P l = [].
Proof.
  intros H0. destruct (filter P l) as [|x k] eqn:E; [reflexivity|].
  assert (Hx : x ∈ filter P l) by (rewrite E; left).
  apply list_elem_of_filter in Hx as [Hp Hin]. destruct (H0 x Hin Hp).
Qed.

(** The selection loop only ever writes [files_to_convert]. *)
Lemma select_loop_fields (l : list string) (self : t) :
  let self' :=
    foldl (λ self thermo_raw,
             if bool_decide (thermo_raw ∉ raw_files_base self)
             then set_files_to_convert (files_to_convert self ++ [thermo_raw])
                                       self
             else self) self l in
  raw_files self' = raw_files self
  ∧ raw_files_base self' = raw_files_base self
  ∧ thermo_raw_files self' = thermo_raw_files self
  ∧ thermo_file_parser self' = thermo_file_parser self
  ∧ raw_dir self' = raw_dir self
  ∧ conversion_start_time self' = conversion_start_time self
  ∧ conversion_end_time self' = conversion_end_time self
  ∧ files_to_convert self' =
      files_to_convert self
      ++ filter (λ thermo_raw, thermo_raw ∉ raw_files_base self) l.
Proof.
  revert self. induction l as [|x l IH]; intros self; simpl.
  - rewrite app_nil_r. repeat split; reflexivity.
  - rewrite filter_cons. case_bool_decide as Hx.
    + specialize (IH (set_files_to_convert (files_to_convert self ++ [x])
                                           self)).
      simpl in IH. destruct IH as (H1 & H2 & H3 & H4 & H5 & H6 & H7 & H8).
      rewrite decide_True by exact Hx.
      rewrite H8, <- app_assoc. repeat split; assumption.
    + rewrite decide_False by (intros Hn; apply Hn, Hx). apply IH.
Qed.

(** What the first loop of [convert_raw_files] selects: every .raw file
    whose whole name, extension included, is not the base name of a .mzML
    file. *)
Lemma select_files_to_convert_spec (self : t) :
  let self' := select_files_to_convert self in
  raw_files self' = raw_files self
  ∧ thermo_file_parser self' = thermo_file_parser self
  ∧ files_to_convert self' =
      files_to_convert self
      ++ filter (λ thermo_raw,
                   thermo_raw ∉ map (λ f, PyStr.slice_to_neg f 5)
                                    (raw_files self))
                (thermo_raw_files self).
Proof.
  unfold select_files_to_convert.
  pose proof (select_loop_fields (thermo_raw_files self)
    (set_raw_files_base (map (λ f, PyStr.slice_to_neg f 5) (raw_files self))
                        self)) as H.
  simpl in H. destruct H as (H1 & _ & _ & H4 & _ & _ & _ & H8).
  simpl. repeat split; assumption.
Qed.

Section WithEnv.
Context (env : Env).

(** With nothing to convert, or without the tool, [convert_raw_files]
    only computes the selection. *)
Lemma convert_raw_files_skips (self : t) (w : World) :
  files_to_convert (select_files_to_convert self) = []
  ∨ exists_ (w_fs w) (thermo_file_parser self) = false →
  convert_raw_files env self w = (Val (select_files_to_convert self), w).
Proof.
  intros H. unfold convert_raw_files. rewrite bind_eq. simpl.
  destruct (select_files_to_convert_spec self) as (_ & Ht & _).
  simpl in Ht. rewrite Ht.
  destruct H as [H|H]; rewrite H; simpl.
  - reflexivity.
  - rewrite andb_false_r. reflexivity.
Qed.

Lemma check_converted_raw_files_passes (self : t) (w : World) :
  raw_files self ≠ [] →
  check_converted_raw_files self w
  = (Val (set_raw_file_count (length (raw_files self)) self), w).
Proof.
  intros H. unfold check_converted_raw_files. simpl.
  destruct (raw_files self); [done|]. reflexivity.
Qed.

(** C7 — the absence of the format-conversion tool is not fatal.  When the
    four mandatory executables are found, [executable_setup] returns
    without [sys.exit], leaves the file system alone and, if the Thermo
    parser is not found, logs a warning for it (it never puts it on the
    list of missing executables).  When nothing is pending or the tool path
    does not exist, [convert_raw_files] runs no command and changes
    nothing: it returns with the list of converted files as the scan left
    it, and [check_converted_raw_files] lets the run go on whenever that
    list is not empty. *)
Theorem thermo_parser_absence_is_not_fatal
    (fsm : FolderStructure.t) (conv : t) (w : World) :
  (∀ name p, (name, p) ∈ FolderStructure.executables fsm →
             name ≠ "thermo_file_parser" → exists_ (w_fs w) p = true) →
  (files_to_convert (select_files_to_convert conv) = []
   ∨ exists_ (w_fs w) (thermo_file_parser conv) = false) →
  (∃ w', FolderStructure.executable_setup fsm w = (Val tt, w')
         ∧ rel eq eq eq w w'
         ∧ (exists_ (w_fs w) (FolderStructure.thermo_file_parser fsm) = false
            → (WARNING, FolderStructure.thermo_warning) ∈ new_log w w'))
  ∧ (∀ w1, w_fs w1 = w_fs w →
           convert_raw_files env conv w1
           = (Val (select_files_to_convert conv), w1))
  ∧ raw_files (select_files_to_convert conv) = raw_files conv
  ∧ (raw_files conv ≠ [] →
     ∀ w1, ∃ conv', check_converted_raw_files (select_files_to_convert conv) w1
                    = (Val conv', w1)
                    ∧ raw_files conv' = raw_files conv).
Proof.
  intros Hmand Hskip.
  destruct (select_files_to_convert_spec conv) as (Hraw & Htool & _).
  simpl in Hraw, Htool.
  split; [|split; [|split]].
  - destruct (FolderStructureFacts.executable_setup_spec fsm w)
      as (w' & R & Hw & H).
    assert (Hnil : missing_executables (w_fs w)
                     (FolderStructure.executables fsm) = []).
    { unfold missing_executables. rewrite filter_none; [reflexivity|].
      intros [name p] Hin [Hex Hn]. simpl in *.
      rewrite (Hmand name p Hin Hn) in Hex. discriminate. }
    rewrite Hnil in H. exists w'. repeat split; try apply R; try assumption.
    intros Hex. apply (Hw (FolderStructure.thermo_file_parser fsm));
      [|exact Hex].
    unfold FolderStructure.executables. do 4 apply list_elem_of_further.
    apply list_elem_of_here.
  - intros w1 Hfs. apply convert_raw_files_skips. rewrite Hfs. exact Hskip.
  - exact Hraw.
  - intros Hne w1. eexists. split.
    + apply check_converted_raw_files_passes. rewrite Hraw. exact Hne.
    + simpl. exact Hraw.
Qed.

End WithEnv.

(** The theorem at the complete sample workspace, which has no Thermo
    parser, with [sample1.mzML] found by the scan. *)
Lemma thermo_parser_absence_is_not_fatal_witness :
  ∃ w', FolderStructure.executable_setup
          Sample.folder_structure (initial_world Sample.fs_complete ∅)
        = (Val tt, w')
        ∧ (WARNING, FolderStructure.thermo_warning)
          ∈ new_log (initial_world Sample.fs_complete ∅) w'.
Proof.
  destruct (thermo_parser_absence_is_not_fatal Sample.env
              Sample.folder_structure
              (foldl classify
                 (init (cfg_raw_dir Sample.cfg)
                       (cfg_thermo_file_parser Sample.cfg))
                 ["sample1.mzML"])
              (initial_world Sample.fs_complete ∅))
    as ((w' & E & _ & Hw) & _).
  - intros name p Hin Hn. vm_compute in Hin.
    repeat (apply elem_of_cons in Hin as [[= -> ->]|Hin]);
      try (vm_compute; reflexivity); try done.
    inversion Hin.
  - right. vm_compute. reflexivity.
  - exists w'. split; [exact E|]. apply Hw. vm_compute. reflexivity.
Defined.

(** C1 — the claim fails on the code: in a directory that holds
    [sample1.raw] and its converted counterpart [sample1.mzML], the
    selection loop of [convert_raw_files] still selects [sample1.raw],
    because it looks the whole name [sample1.raw] up in the list of base
    names, which holds [sample1]; with the tool present the file is
    converted again. *)
Lemma converted_raw_file_is_selected_again :
  let scanned :=
    foldl classify
          (init (cfg_raw_dir Sample.cfg) (cfg_thermo_file_parser Sample.cfg))
          ["sample1.mzML"; "sample1.raw"] in
  raw_files scanned = ["sample1.mzML"]
  ∧ thermo_raw_files scanned = ["sample1.raw"]
  ∧ raw_files_base (select_files_to_convert scanned) = ["sample1"]
  ∧ files_to_convert (select_files_to_convert scanned) = ["sample1.raw"]
  ∧ w_calls (convert_raw_files Sample.env scanned
               (initial_world Sample.fs_second_run ∅)).2
    = [conversion_command scanned "sample1.raw"].
Proof. vm_compute. repeat split. Qed.

End ConversionProps.

(* ===================================================================== *)
(** * dia_umpire.py: facts *)
(* ===================================================================== *)

Module DiaUmpireProps.
Import DiaUmpire.

(** Reads off what a straight-line piece of code added to the log. *)
Ltac log_cases w :=
  unfold new_log; simpl; destruct (w_logcfg w); simpl;
  rewrite <- ?app_assoc, ?drop_app_length, ?drop_all; simpl.

Ltac no_such_record :=
  let H := fresh "H" in
  intros H;
  repeat (apply elem_of_cons in H as [H|H]);
  try (inversion H; fail);
  try discriminate H;
  try (unfold returncode_warning in H; simpl in H; congruence).

Section WithEnv.
Context (env : Env) (cfg : Config).

(** One turn of the loop, in full. *)
Lemma process_one_spec (total : nat) (self : t) (index : nat)
    (raw_file : string) (w : World) :
  ∃ w',
    process_one env cfg total self (index, raw_file) w
    = (Val (turn_result env cfg self raw_file w), w')
    ∧ w_calls w' = w_calls w ++ [umpire_command self raw_file]
    ∧ w_log w `prefix_of` w_log w'
    ∧ (∀ f, (WARNING, returncode_warning f) ∉ new_log w w').
Proof.
  unfold turn_result, process_one, umpire_ok, turn_formats, record_failure,
    try_except,
    subprocess_run_check, run_process, fs_update, strftime_gmtime.
  destruct (exec env (length (w_calls w)) (umpire_command self raw_file)
                 (w_fs w)) as [[rc out err|e] fs'] eqn:Ex.
  - destruct (Os.replace fs' (umpire_log cfg) (file_log cfg raw_file))
      as [fs2|e] eqn:Er;
    destruct (decide (rc = 0%Z)) as [->|Hrc];
    try destruct (gmtime_error env
                    (time_at env (S (w_ticks w)) - time_at env (w_ticks w)))
      as [e'|] eqn:Eg;
    repeat first [ rewrite bind_eq | rewrite Ex | rewrite Er | rewrite Eg
                 | rewrite bool_decide_true by done
                 | rewrite (bool_decide_false (rc = 0%Z)) by done
                 | rewrite (bool_decide_false (0%Z ≠ 0%Z))
                     by (intros H; apply H; reflexivity)
                 | match goal with
                   | |- context [decide (exn_cls ?e = CalledProcessError)] =>
                       destruct (decide (exn_cls e = CalledProcessError))
                   end
                 | progress simpl ];
    (eexists; split; [reflexivity|]; simpl; split; [reflexivity|]; split;
     [ destruct (w_logcfg w); simpl; rewrite <- ?app_assoc;
       try apply prefix_app_r; reflexivity
     | intros f; log_cases w; no_such_record ]).
  - repeat first [ rewrite bind_eq | rewrite Ex | progress simpl ].
    destruct (decide (exn_cls e = CalledProcessError));
    repeat first [ rewrite bind_eq | progress simpl ];
    (eexists; split; [reflexivity|]; simpl; split; [reflexivity|]; split;
     [ destruct (w_logcfg w); simpl; rewrite <- ?app_assoc;
       try apply prefix_app_r; reflexivity
     | intros f; log_cases w; no_such_record ]).
Qed.

(** When the clock readings can be shown, every turn can. *)
Lemma elapsed_formats_turn (w : World) :
  elapsed_formats env → turn_formats env w = true.
Proof.
  intros H. unfold turn_formats. rewrite (H (w_ticks w) (S (w_ticks w))); [done|].
  lia.
Qed.

Lemma new_log_app w w1 w2 :
  w_log w `prefix_of` w_log w1 → w_log w1 `prefix_of` w_log w2 →
  new_log w w2 = new_log w w1 ++ new_log w1 w2.
Proof.
  intros H1 H2. apply new_log_spec in H1 as E1. apply new_log_spec in H2 as E2.
  unfold new_log at 1. rewrite E2, E1, <- app_assoc, drop_app_length.
  reflexivity.
Qed.

Lemma quiet_trans w w1 w2 : quiet w w1 → quiet w1 w2 → quiet w w2.
Proof.
  intros [P1 H1] [P2 H2]. split; [etransitivity; eassumption|].
  intros f. rewrite (new_log_app w w1 w2) by assumption.
  intros H. apply elem_of_app in H as [H|H]; [apply (H1 f H) | apply (H2 f H)].
Qed.

Lemma same_setup_command (a b : t) f :
  same_setup a b → umpire_command b f = umpire_command a f.
Proof.
  intros (H1 & _ & H3 & H4 & H5). unfold umpire_command.
  rewrite H1, H3, H4, H5. reflexivity.
Qed.

Lemma turn_result_setup (self : t) (f : string) (w : World) :
  same_setup self (turn_result env cfg self f w).
Proof.
  unfold turn_result.
  destruct (umpire_ok _ _ _ _ _); [destruct (turn_formats _ _)|];
    repeat split; reflexivity.
Qed.

(** The file of a turn ends in one of the two collections, and in one
    only when the time the turn took can be shown. *)
Lemma turn_result_records (self : t) (f : string) (w : World) :
  ∃ (F : list string) (P : gset string),
    failed_files (turn_result env cfg self f w) = failed_files self ++ F
    ∧ dia_processed_files (turn_result env cfg self f w)
      = P ∪ dia_processed_files self
    ∧ (∀ g, g ∈ F ∨ g ∈ P ↔ g = f)
    ∧ (turn_formats env w = true → ∀ g, g ∈ F → g ∉ P).
Proof.
  unfold turn_result.
  destruct (umpire_ok _ _ _ _ _); [destruct (turn_formats _ _)|]; simpl.
  - exists [], {[f]}. rewrite app_nil_r. split_and!; try reflexivity.
    + intros g. rewrite elem_of_singleton. split; [intros [H|H]|]; auto.
      inversion H.
    + intros _ g H. inversion H.
  - exists [f], {[f]}. split_and!; try reflexivity.
    + intros g. rewrite elem_of_singleton, list_elem_of_singleton. tauto.
    + discriminate.
  - exists [f], ∅. rewrite union_empty_l_L. split_and!; try reflexivity.
    + intros g. rewrite list_elem_of_singleton. split; [intros [H|H]|]; auto.
      by apply elem_of_empty in H.
    + intros _ g _ H. by apply elem_of_empty in H.
Qed.

(** The whole loop: every file of the list is run once, in the order of
    the list, and ends in one of the two collections; in one only, when
    the clock readings can be shown. *)
Lemma process_loop_spec (total : nat) (l : list (nat * string)) (self : t)
    (w : World) :
  NoDup l.*2 →
  ∃ self' w' (F : list string) (P : gset string),
    for_acc l self (process_one env cfg total) w = (Val self', w')
    ∧ same_setup self self'
    ∧ umpire_start_time self' = umpire_start_time self
    ∧ failed_files self' = failed_files self ++ F
    ∧ dia_processed_files self' = P ∪ dia_processed_files self
    ∧ (∀ f, f ∈ l.*2 ↔ f ∈ F ∨ f ∈ P)
    ∧ (elapsed_formats env → ∀ f, f ∈ F → f ∉ P)
    ∧ w_calls w' = w_calls w ++ map (λ ir, umpire_command self ir.2) l
    ∧ quiet w w'.
Proof.
  revert self w. induction l as [|[i f] l IH]; intros self w Hnd.
  - exists self, w, [], ∅. simpl. rewrite !app_nil_r.
    split_and!; try reflexivity.
    { repeat split; reflexivity. }
    { rewrite union_empty_l_L. reflexivity. }
    { intros f. split; [inversion 1 | intros [H|H]; [inversion H|]].
      apply elem_of_empty in H. destruct H. }
    { intros _ f H. inversion H. }
    split; [reflexivity|].
    intros g. unfold new_log. rewrite drop_all. apply not_elem_of_nil.
  - simpl in Hnd. apply NoDup_cons in Hnd as [Hf Hnd].
    destruct (process_one_spec total self i f w) as (w1 & E1 & C1 & L1 & Q1).
    simpl for_acc. rewrite (bind_val _ _ _ _ _ E1).
    pose proof (turn_result_setup self f w) as S1.
    destruct (turn_result_records self f w) as (F1 & P1 & HF1 & HP1 & H1 & D1).
    assert (T1 : umpire_start_time (turn_result env cfg self f w)
                 = umpire_start_time self).
    { unfold turn_result.
      destruct (umpire_ok _ _ _ _ _); [destruct (turn_formats _ _)|];
        reflexivity. }
    destruct (IH (turn_result env cfg self f w) w1 Hnd)
      as (self' & w' & F & P & E & S & T & HF & HP & Hall & Hdis & C & Q).
    assert (Hcmd : map (λ ir : nat * string,
                          umpire_command (turn_result env cfg self f w) ir.2) l
                   = map (λ ir : nat * string, umpire_command self ir.2) l).
    { apply map_ext. intros ir. apply same_setup_command, S1. }
    rewrite Hcmd in C.
    exists self', w', (F1 ++ F), (P ∪ P1). rewrite E.
    split_and!.
    + reflexivity.
    + destruct S1 as (a1 & a2 & a3 & a4 & a5), S as (b1 & b2 & b3 & b4 & b5).
      repeat split; congruence.
    + congruence.
    + rewrite HF, HF1, <- app_assoc. reflexivity.
    + rewrite HP, HP1. apply set_eq. intros x. rewrite !elem_of_union. tauto.
    + intros g. simpl. rewrite elem_of_cons, Hall, elem_of_app, elem_of_union.
      specialize (H1 g). tauto.
    + intros Hfmt g Hg Hg'.
      assert (Hfresh : ∀ x, x ∈ F ∨ x ∈ P → x ≠ f).
      { intros x Hx ->. apply Hf, Hall, Hx. }
      apply elem_of_app in Hg as [Hg|Hg];
        apply elem_of_union in Hg' as [Hg'|Hg'].
      * apply (Hfresh g); [by right|]. apply H1. by left.
      * exact (D1 (elapsed_formats_turn w Hfmt) g Hg Hg').
      * exact (Hdis Hfmt g Hg Hg').
      * apply (Hfresh g); [by left|]. apply H1. by right.
    + rewrite C, C1, <- app_assoc. reflexivity.
    + eapply quiet_trans; [split|]; eassumption.
Qed.

Lemma map_snd_comp {A B C} (g : B → C) (l : list (A * B)) :
  map (λ ir, g ir.2) l = map g l.*2.
Proof. induction l as [|x l IH]; simpl; [|rewrite IH]; reflexivity. Qed.

Lemma list_set_spec (l : list string) :
  NoDup (list_set l) ∧ ∀ f, f ∈ list_set l ↔ f ∈ l.
Proof.
  unfold list_set. split; [apply NoDup_elements|].
  intros f. rewrite elem_of_elements, elem_of_list_to_set. reflexivity.
Qed.

(** The whole method. *)
Lemma dia_file_processing_spec (self : t) (w : World) :
  ∃ self' w' (F : list string) (P : gset string),
    dia_file_processing env cfg self w = (Val self', w')
    ∧ same_setup self (set_raw_files (raw_files self) self')
    ∧ failed_files self' = failed_files self ++ F
    ∧ dia_processed_files self' = P ∪ dia_processed_files self
    ∧ (∀ f, f ∈ raw_files self ↔ f ∈ F ∨ f ∈ P)
    ∧ (elapsed_formats env → ∀ f, f ∈ F → f ∉ P)
    ∧ raw_files self'
      = filter (λ f, f ∉ failed_files self') (raw_files self)
    ∧ new_calls w w'
      = map (umpire_command self) (list_set (raw_files self))
    ∧ quiet w w'.
Proof.
  destruct (list_set_spec (raw_files self)) as [Hnd Hin].
  unfold dia_file_processing. mrun.
  match goal with |- context [for_acc ?l ?s _ ?w0] =>
    destruct (process_loop_spec (length (list_set (raw_files self))) l s w0)
      as (self1 & w1 & F & P & E & S & T & HF & HP & Hall & Hdis & C & Q)
  end.
  { rewrite snd_zip; [exact Hnd|]. rewrite length_seq. reflexivity. }
  rewrite E. mrun.
  rewrite snd_zip in Hall by (rewrite length_seq; reflexivity).
  simpl in S, HF, HP, C.
  destruct S as (S1 & S2 & S3 & S4 & S5).
  eexists _, _, F, P. split; [reflexivity|]. simpl.
  split_and!; try assumption.
  - repeat split; simpl; assumption.
  - intros f. rewrite <- Hin. apply Hall.
  - rewrite S2. reflexivity.
  - unfold new_calls. simpl. rewrite C, drop_app_length.
    rewrite (map_snd_comp (umpire_command _)).
    rewrite snd_zip by (rewrite length_seq; reflexivity). reflexivity.
  - eapply quiet_trans; [|eapply quiet_trans; [exact Q|]].
    + split; [|intros f]; log_cases w; try no_such_record;
        try apply prefix_app_r; reflexivity.
    + split; [|intros f]; log_cases w1; try no_such_record;
        try apply prefix_app_r; reflexivity.
Qed.

Lemma path_str_join_inj (d : path) (f g : string) :
  path_str (join d f) = path_str (join d g) → f = g.
Proof.
  unfold path_str, join. induction d as [|x d IH]; simpl.
  - auto.
  - destruct d as [|y d]; simpl in *; intros H;
      apply String.app_inj in H; apply String.app_inj in H; auto.
Qed.

Lemma umpire_command_inj (self : t) : Inj eq eq (umpire_command self).
Proof.
  intros f g H. unfold umpire_command in H.
  injection H as H. apply path_str_join_inj in H. exact H.
Qed.

Lemma NoDup_map_inj {A B} (g : A → B) `{!Inj eq eq g} (l : list A) :
  NoDup l → NoDup (map g l).
Proof.
  induction 1 as [|x l Hx Hl IH]; simpl; constructor; [|exact IH].
  intros Hin. apply list_elem_of_In, in_map_iff in Hin as (y & Hy & Hin).
  apply Inj0 in Hy. subst y. apply Hx, list_elem_of_In, Hin.
Qed.

Lemma filter_eq_once {A} `{EqDecision A} (x : A) (l : list A) :
  NoDup l → x ∈ l → length (filter (λ y, y = x) l) = 1.
Proof.
  induction 1 as [|y l Hy Hl IH]; intros Hin; [inversion Hin|].
  rewrite filter_cons. destruct (decide (y = x)) as [->|Hne].
  - simpl. f_equal. rewrite ConversionProps.filter_none; [reflexivity|].
    intros z Hz ->. exact (Hy Hz).
  - apply elem_of_cons in Hin as [->|Hin]; [done|]. apply IH, Hin.
Qed.

(** C4 — whatever the number of times a file name occurs in the input
    list of the deconvolution stage, once or more, DIA-Umpire is run
    exactly once for it: the loop runs over [list(set(self.raw_files))]. *)
Theorem duplicate_file_is_processed_once (self : t) (w : World) (f : string) :
  f ∈ raw_files self →
  length (filter (λ c, c = umpire_command self f)
                 (new_calls w (dia_file_processing env cfg self w).2)) = 1.
Proof.
  intros Hf.
  destruct (dia_file_processing_spec self w)
    as (self' & w' & F & P & E & _ & _ & _ & _ & _ & _ & C & _).
  rewrite E. simpl. rewrite C.
  destruct (list_set_spec (raw_files self)) as [Hnd Hin].
  apply filter_eq_once.
  - apply NoDup_map_inj; [apply umpire_command_inj | exact Hnd].
  - apply list_elem_of_In, in_map, list_elem_of_In, Hin, Hf.
Qed.


End WithEnv.

(** The theorem on an input list that names [sample1.mzML] twice. *)
Lemma duplicate_file_is_processed_once_witness :
  length (filter (λ c, c = umpire_command Sample.dia_twice "sample1.mzML")
            (new_calls (initial_world Sample.fs_complete ∅)
               (dia_file_processing Sample.env Sample.cfg Sample.dia_twice
                  (initial_world Sample.fs_complete ∅)).2)) = 1.
Proof.
  apply (duplicate_file_is_processed_once Sample.env Sample.cfg
           Sample.dia_twice (initial_world Sample.fs_complete ∅)
           "sample1.mzML").
  vm_compute. apply list_elem_of_here.
Defined.



(** C6 — the claim fails on the code.  The stage returns with the failed
    files taken out of its own [raw_files], but the object it was built
    from, which the later stages read, keeps its list.  In the sample
    workspace, where DIA-Umpire fails on [sample1.mzML], the run goes on
    to move the files of [sample1] and its summary lists
    [sample1.mzML] as processed and as failed. *)
Theorem failed_file_stays_in_the_list_of_later_stages
    (env : Env) (cfg : Config) (self : t) (w : World) :
  (∃ self' w',
     dia_file_processing env cfg self w = (Val self', w')
     ∧ raw_files self'
       = filter (λ f, f ∉ failed_files self') (raw_files self)
     ∧ ConvertRawFiles.raw_files (convert_raw_files self')
       = ConvertRawFiles.raw_files (convert_raw_files self))
  ∧ (let r := Main.run Sample.env Sample.cfg Sample.fs_complete ∅ in
     r.1 = Val tt
     ∧ (WARNING,
        "Error processing sample1.mzML: "
        +:+ exn_text (called_process_error
                        (umpire_command Sample.dia_twice "sample1.mzML") 1))
       ∈ w_log r.2
     ∧ (INFO, "Moving files for sample sample1 to the processed directory.")
       ∈ w_log r.2
     ∧ drop (length (w_log r.2) - 5) (w_log r.2)
       = [ (INFO, "Successfully processed:"); (INFO, "sample1.mzML");
           (INFO, "Failed to process:"); (INFO, "sample1.mzML");
           (INFO, "==========") ]).
Proof.
  split.
  - destruct (dia_file_processing_spec env cfg self w)
      as (self' & w' & F & P & E & S & _ & _ & _ & _ & Hraw & _).
    exists self', w'. split_and!; [exact E | exact Hraw |].
    destruct S as [S _]. simpl in S. by rewrite S.
  - vm_compute. split_and!; try reflexivity;
      repeat first [apply list_elem_of_here | apply list_elem_of_further].
Qed.

End DiaUmpireProps.

(* ===================================================================== *)
(** * clean_unneeded_files.py: facts *)
(* ===================================================================== *)

Module CleanFilesProps.
Import CleanFiles.

(** ** A property of the state kept by a computation however it ends *)

Lemma always_bind {A B} (I : World → Prop) (m : M A) (k : A → M B) :
  always I m → (∀ a, always I (k a)) → always I (m ≫= k).
Proof.
  intros Hm Hk w Hi. rewrite bind_eq. specialize (Hm w Hi).
  destruct (m w) as [[a|e|c] w1]; [by apply Hk | exact Hm | exact Hm].
Qed.

Lemma always_for {A} (I : World → Prop) (l : list A) (body : A → M unit) :
  (∀ x, always I (body x)) → always I (for_ l body).
Proof.
  intros Hb. induction l as [|x l IH]; simpl.
  - intros w Hi. exact Hi.
  - apply always_bind; [apply Hb | intros _; exact IH].
Qed.

Lemma always_log_fs (P : gmap path node → Prop) (l : level) (msg : string) :
  always (λ w, P (w_fs w)) (log l msg).
Proof. intros w Hp. unfold log. by destruct (w_logcfg w), l. Qed.

Section Frame.
Context (raw_dir : path) (fs0 : gmap path node).

Lemma cleaning_delete (fs : gmap path node) (q : path) :
  cleaning raw_dir fs0 fs → ¬ kept raw_dir fs0 q →
  cleaning raw_dir fs0 (delete q fs).
Proof.
  intros [Hsub Hkept] Hq. split.
  - etransitivity; [apply delete_subseteq | exact Hsub].
  - intros p Hp. rewrite lookup_delete_ne; [apply Hkept, Hp|].
    intros ->. exact (Hq Hp).
Qed.

Lemma cleaning_isdir (fs : gmap path node) (p : path) :
  cleaning raw_dir fs0 fs → isdir fs p = true → isdir fs0 p = true.
Proof.
  intros [Hsub _]. unfold isdir.
  destruct (fs !! p) as [[n|n]|] eqn:E; try discriminate.
  rewrite (lookup_weaken _ _ _ _ E Hsub). reflexivity.
Qed.

(** [os.remove] of a path that is not kept. *)
Lemma os_remove_cleaning (q : path) (w : World) :
  cleaning raw_dir fs0 (w_fs w) → ¬ kept raw_dir fs0 q →
  cleaning raw_dir fs0 (w_fs (os_remove q w).2).
Proof.
  intros Hc Hq. unfold os_remove, remove.
  destruct (w_fs w !! q) as [[n|n]|]; try exact Hc.
  destruct (decide _); [exact Hc|]. simpl. apply cleaning_delete; assumption.
Qed.

Lemma rmdir_cleaning (q : path) (w : World) :
  cleaning raw_dir fs0 (w_fs w) → ¬ kept raw_dir fs0 q →
  cleaning raw_dir fs0 (w_fs (fs_update (λ fs, rmdir fs q) w).2).
Proof.
  intros Hc Hq. unfold fs_update, rmdir.
  destruct (w_fs w !! q) as [[n|n]|]; try exact Hc.
  destruct (children _ _); [|exact Hc]. simpl.
  apply cleaning_delete; assumption.
Qed.

(** Nothing at or below an entry with one of the ten suffixes is kept. *)
Lemma suffix_entry_not_kept (f : string) (rest : path) :
  PyStr.endswith_any f (unneeded_files init) = true →
  ¬ kept raw_dir fs0 (raw_dir ++ f :: rest).
Proof.
  intros Hf Hk. destruct (Hk f rest eq_refl) as [Hn _]. congruence.
Qed.

(** Nor at or below a peak directory. *)
Lemma peak_entry_not_kept (f : string) (rest : path) :
  PyStr.endswith f "_Peak" = true → isdir fs0 (join raw_dir f) = true →
  ¬ kept raw_dir fs0 (raw_dir ++ f :: rest).
Proof.
  intros Hf Hd Hk. destruct (Hk f rest eq_refl) as [_ [Hn|Hn]]; congruence.
Qed.

(** One turn of the loop keeps the invariant, however it ends. *)
Lemma clean_entry_cleaning (f : string) :
  always (λ w, cleaning raw_dir fs0 (w_fs w)) (clean_entry init raw_dir f).
Proof.
  intros w Hc. unfold clean_entry.
  destruct (PyStr.endswith_any f (unneeded_files init)) eqn:Hs.
  - apply os_remove_cleaning; [exact Hc|].
    apply (suffix_entry_not_kept f []), Hs.
  - destruct (PyStr.endswith f "_Peak") eqn:Hp; [|exact Hc].
    rewrite bind_eq. simpl.
    destruct (isdir (w_fs w) (join raw_dir f)) eqn:Hd; [|exact Hc].
    pose proof (cleaning_isdir _ _ Hc Hd) as Hd0.
    clear Hd. revert w Hc.
    apply (always_bind (λ w, cleaning raw_dir fs0 (w_fs w))).
    { intros w Hc. unfold fs_try. by destruct (listdir _ _). }
    intros inner. apply always_bind.
    + apply always_for. intros x w Hc. apply os_remove_cleaning; [exact Hc|].
      unfold join. rewrite <- app_assoc. by apply peak_entry_not_kept.
    + intros _ w Hc. apply rmdir_cleaning; [exact Hc|].
      by apply (peak_entry_not_kept f []).
Qed.

Lemma cleaning_process_always :
  always (λ w, cleaning raw_dir fs0 (w_fs w)) (cleaning_process init raw_dir).
Proof.
  unfold cleaning_process.
  repeat (apply always_bind; [apply always_log_fs|intros _]).
  apply always_bind.
  { intros w Hc. unfold fs_try. by destruct (listdir _ _). }
  intros current_files. apply always_for. intros x.
  apply clean_entry_cleaning.
Qed.

End Frame.

(** The whole method keeps every kept path as it was. *)
Lemma cleaning_process_cleaning (raw_dir : path) (w : World) :
  cleaning raw_dir (w_fs w) (w_fs (cleaning_process init raw_dir w).2).
Proof. apply cleaning_process_always. split; reflexivity. Qed.

(** C10 — an entry [f] of the raw directory that has none of the ten
    suffixes and is not a directory with a name ending in [_Peak] (so: a
    regular file whose name ends in [_Peak], or any entry whose name does
    not) is left untouched by the cleaner, with everything below it,
    however the cleaner ends. *)
Theorem cleaner_leaves_other_entries
    (raw_dir : path) (w : World) (f : string) (rest : path) :
  PyStr.endswith_any f (unneeded_files init) = false →
  PyStr.endswith f "_Peak" = false ∨ isdir (w_fs w) (join raw_dir f) = false →
  w_fs (cleaning_process init raw_dir w).2 !! (raw_dir ++ f :: rest)
  = w_fs w !! (raw_dir ++ f :: rest).
Proof.
  intros Hs Hp.
  destruct (cleaning_process_cleaning raw_dir w) as [_ Hkept].
  apply Hkept. intros f' rest' Heq.
  apply app_inv_head in Heq. injection Heq as <- <-. split; assumption.
Qed.

(** The theorem on the regular file [notes_Peak] of the sample raw
    directory. *)
Lemma cleaner_leaves_other_entries_witness :
  w_fs (cleaning_process init (cfg_raw_dir Sample.cfg)
          (initial_world Sample.fs_peaks ∅)).2
    !! (cfg_raw_dir Sample.cfg ++ ["notes_Peak"])
  = Some (File 7).
Proof.
  rewrite (cleaner_leaves_other_entries (cfg_raw_dir Sample.cfg)
             (initial_world Sample.fs_peaks ∅) "notes_Peak" []).
  - vm_compute. reflexivity.
  - vm_compute. reflexivity.
  - right. vm_compute. reflexivity.
Defined.

End CleanFilesProps.

(* ===================================================================== *)
(** * search_database.py: the selection of the files to search *)
(* ===================================================================== *)

Module SelectionProps.
Import SearchDatabase.

(** ** The dictionary of tiers *)

Lemma dict_get_spec (qt suffix : string) :
  (qt, suffix) ∈ qt_dict → dict_get qt_dict qt = mret suffix.
Proof.
  unfold qt_dict. intros H.
  repeat (apply elem_of_cons in H as [H|H];
          [injection H as -> ->; reflexivity|]).
  inversion H.
Qed.

Lemma qt_dict_key (qt : string) :
  qt ∈ qt_dict.*1 → ∃ suffix, (qt, suffix) ∈ qt_dict.
Proof.
  intros H. apply list_elem_of_fmap in H as [[k v] [-> H]].
  exists v. exact H.
Qed.

Lemma qt_dict_fun (qt s1 s2 : string) :
  (qt, s1) ∈ qt_dict → (qt, s2) ∈ qt_dict → s1 = s2.
Proof.
  intros H1 H2. apply dict_get_spec in H1, H2.
  assert (E : (dict_get qt_dict qt (initial_world ∅ ∅)).1 = Val s2)
    by (rewrite H2; reflexivity).
  rewrite H1 in E. injection E as ->. reflexivity.
Qed.

(** ** The log and the two results only grow *)

#[local] Instance sel_grows_preorder : PreOrder sel_grows.
Proof.
  split.
  - intros [s w]. repeat split; reflexivity.
  - intros a b c (A1 & A2 & A3) (B1 & B2 & B3). repeat split.
    + etransitivity; eassumption.
    + intros x Hx. apply B2, A2, Hx.
    + etransitivity; eassumption.
Qed.

Lemma new_log_grow (w0 w w' : World) (x : level * string) :
  w_log w `prefix_of` w_log w' → x ∈ new_log w0 w → x ∈ new_log w0 w'.
Proof.
  intros [k Hk] Hx. unfold new_log in *. rewrite Hk, drop_app.
  apply elem_of_app. left. exact Hx.
Qed.

Lemma classified_grows fs sel sel' w0 w w' d name :
  sel_grows (sel, w) (sel', w') →
  classified fs sel (new_log w0 w) d name →
  classified fs sel' (new_log w0 w') d name.
Proof.
  intros (H1 & H2 & H3). unfold classified. simpl in *.
  destruct (getsize fs (join d name)) as [n|e].
  - case_bool_decide.
    + apply H1.
    + intros [Ha Hb]. split; [apply H2, Ha | eapply new_log_grow; eassumption].
  - intros [Ha Hb]. split; [apply H2, Ha | eapply new_log_grow; eassumption].
Qed.

Lemma basename_join (d : path) (n : string) : basename (join d n) = n.
Proof. unfold basename, join. apply last_last. Qed.

(** A warning gets into the log whatever the configuration. *)
Lemma log_warning_spec (w0 w : World) (msg : string) :
  w_log w0 `prefix_of` w_log w →
  ∃ w', log WARNING msg w = (Val tt, w')
        ∧ w_fs w' = w_fs w
        ∧ w_log w' = w_log w ++ [(WARNING, msg)]
        ∧ (WARNING, msg) ∈ new_log w0 w'.
Proof.
  intros [k Hk]. eexists. split; [reflexivity|]. simpl.
  rewrite passes_not_info by discriminate.
  repeat split. unfold new_log. simpl. rewrite Hk, <- app_assoc.
  rewrite drop_app_length. apply elem_of_app. right. left.
Qed.

Section Selection.
Context (pd : path) (qts : list string) (w0 : World).
Hypothesis Hdir : isdir (w_fs w0) pd = true.
Hypothesis Hqts : ∀ qt, qt ∈ qts → qt ∈ qt_dict.*1.

(** One directory entry, for one base name and one requested tier. *)
Lemma visit_file_spec raw_name qt suffix sel file w :
  (qt, suffix) ∈ qt_dict → selecting w0 sel w →
  ∃ sel' w',
    visit_file pd raw_name qt sel file w = (Val sel', w')
    ∧ selecting w0 sel' w'
    ∧ sel_grows (sel, w) (sel', w')
    ∧ (PyStr.endswith file ".mgf" = true →
       PyStr.startswith file raw_name = true →
       classified (w_fs w0) sel' (new_log w0 w') pd (tier_name file suffix)).
Proof.
  intros Hq (Hfs & Hlog & Hsel). unfold visit_file.
  destruct (PyStr.endswith file ".mgf" && PyStr.startswith file raw_name)
    eqn:Hcond.
  2:{ exists sel, w. split_and!; [reflexivity | by split_and! | reflexivity |].
      intros H1 H2. rewrite H1, H2 in Hcond. discriminate. }
  rewrite (dict_get_spec _ _ Hq). rewrite bind_eq. simpl.
  rewrite basename_join.
  set (name := tier_name file suffix).
  unfold classified.
  destruct (w_fs w0 !! join pd name) as [nd|] eqn:Hlk.
  - assert (Hex : exists_ (w_fs w) (join pd name) = true).
    { unfold exists_. rewrite Hfs, Hlk. by apply bool_decide_eq_true_2. }
    assert (∃ n, getsize (w_fs w0) (join pd name) = Ok n) as [n Hn].
    { unfold getsize. rewrite Hlk. destruct nd; eauto. }
    rewrite bind_eq. unfold fs_read at 1. simpl. rewrite Hex.
    rewrite bind_eq. unfold fs_try at 1. rewrite Hfs, Hn.
    case_bool_decide as Hpos.
    + eexists _, w. split_and!; [reflexivity | | | ].
      * split_and!; [exact Hfs | exact Hlog |]. simpl. intros p Hp.
        apply elem_of_union in Hp as [Hp|Hp]; [|by apply Hsel].
        apply elem_of_singleton in Hp as ->. exists n. by split.
      * split_and!; simpl; [apply union_subseteq_r | done | done].
      * intros _ _. simpl. apply elem_of_union_l, elem_of_singleton. done.
    + destruct (log_warning_spec w0 w (empty_msg name) Hlog)
        as (w' & E & Hfs' & Hlog' & Hin).
      rewrite bind_eq, E. simpl. eexists _, w'. split_and!; [reflexivity | | |].
      * split_and!; [congruence | | exact Hsel].
        rewrite Hlog'. by apply prefix_app_r.
      * split_and!; simpl; [done | | rewrite Hlog'; by apply prefix_app_r].
        intros x Hx. apply elem_of_app. by left.
      * intros _ _. simpl. split; [|exact Hin].
        apply elem_of_app. right. left.
  - assert (Hex : exists_ (w_fs w) (join pd name) = false).
    { unfold exists_. rewrite Hfs, Hlk. apply bool_decide_eq_false_2.
      intros [? ?]; discriminate. }
    assert (∃ e, getsize (w_fs w0) (join pd name) = Err e) as [e ->].
    { unfold getsize. rewrite Hlk. eauto. }
    rewrite bind_eq. unfold fs_read at 1. simpl. rewrite Hex.
    destruct (log_warning_spec w0 w (missing_msg name) Hlog)
      as (w' & E & Hfs' & Hlog' & Hin).
    rewrite bind_eq, E. simpl. eexists _, w'. split_and!; [reflexivity | | |].
    + split_and!; [congruence | | exact Hsel].
      rewrite Hlog'. by apply prefix_app_r.
    + split_and!; simpl; [done | | rewrite Hlog'; by apply prefix_app_r].
      intros x Hx. apply elem_of_app. by left.
    + intros _ _. simpl. split; [|exact Hin].
      apply elem_of_app. right. left.
Qed.

(** What a visit of the entry [file] establishes. *)
#[local] Abbreviation visited raw_name suffix file :=
  (λ (sel : selection) (w : World),
     PyStr.endswith file ".mgf" = true →
     PyStr.startswith file raw_name = true →
     classified (w_fs w0) sel (new_log w0 w) pd (tier_name file suffix)).

Lemma visited_grows raw_name suffix file sel w sel' w' :
  visited raw_name suffix file sel w → sel_grows (sel, w) (sel', w') →
  visited raw_name suffix file sel' w'.
Proof.
  intros Hv Hg H1 H2. eapply classified_grows; [exact Hg|]. by apply Hv.
Qed.

Lemma listdir_spec w :
  w_fs w = w_fs w0 →
  fs_try (λ fs, listdir fs pd) w = (Val (children (w_fs w0) pd), w).
Proof.
  intros Hfs. unfold fs_try, listdir. rewrite Hfs, Hdir. reflexivity.
Qed.

(** One requested tier, for one base name: every entry of the directory
    is visited. *)
Lemma visit_tier_spec raw_name qt suffix sel w :
  (qt, suffix) ∈ qt_dict → selecting w0 sel w →
  ∃ sel' w',
    (files ← fs_try (λ fs, listdir fs pd);
     for_acc files sel (visit_file pd raw_name qt)) w = (Val sel', w')
    ∧ selecting w0 sel' w'
    ∧ sel_grows (sel, w) (sel', w')
    ∧ ∀ file, file ∈ children (w_fs w0) pd →
        visited raw_name suffix file sel' w'.
Proof.
  intros Hq Hs. rewrite bind_eq, listdir_spec by apply Hs.
  apply (for_acc_all (children (w_fs w0) pd) (visit_file pd raw_name qt)
           (selecting w0) sel_grows
           (λ file, visited raw_name suffix file)).
  - intros file s w1 _ Hs1. eapply visit_file_spec; eassumption.
  - intros file s w1 s' w1'. apply visited_grows.
  - exact Hs.
Qed.

(** One base name: every requested tier and every entry. *)
Lemma visit_raw_name_spec raw_name sel w :
  selecting w0 sel w →
  ∃ sel' w',
    visit_raw_name pd qts sel raw_name w = (Val sel', w')
    ∧ selecting w0 sel' w'
    ∧ sel_grows (sel, w) (sel', w')
    ∧ (disqualified raw_name = false →
       ∀ qt suffix file,
         qt ∈ qts → (qt, suffix) ∈ qt_dict →
         file ∈ children (w_fs w0) pd →
         visited raw_name suffix file sel' w').
Proof.
  intros Hs. unfold visit_raw_name.
  destruct (disqualified raw_name) eqn:Hd.
  - destruct Hs as (Hfs & Hlog & Hsel).
    destruct (log_warning_spec w0 w (raw_name +:+ ".mgf will not be searched.")
                Hlog) as (w' & E & Hfs' & Hlog' & _).
    rewrite bind_eq, E. simpl. eexists _, w'.
    split_and!; [reflexivity | | | discriminate].
    + split_and!; [congruence | | exact Hsel].
      rewrite Hlog'. by apply prefix_app_r.
    + split_and!; simpl; [done | | rewrite Hlog'; by apply prefix_app_r].
      intros x Hx. apply elem_of_app. by left.
  - destruct (for_acc_all qts
                (λ sel qt,
                   files ← fs_try (λ fs, listdir fs pd);
                   for_acc files sel (visit_file pd raw_name qt))
                (selecting w0) sel_grows
                (λ qt sel w, ∀ suffix file,
                   (qt, suffix) ∈ qt_dict → file ∈ children (w_fs w0) pd →
                   visited raw_name suffix file sel w))
      with (s := sel) (w := w) as (sel' & w' & E & Hs' & Hg & Hall).
    + intros qt s w1 Hqt Hs1.
      destruct (qt_dict_key qt (Hqts qt Hqt)) as [suffix Hsuf].
      destruct (visit_tier_spec raw_name qt suffix s w1 Hsuf Hs1)
        as (s' & w1' & E & Hs' & Hg & Hv).
      exists s', w1'. split_and!; try assumption.
      intros suffix' file Hsuf' Hfile.
      rewrite (qt_dict_fun _ _ _ Hsuf' Hsuf). by apply Hv.
    + intros qt s w1 s' w1' Hv Hg suffix file Hsuf Hfile.
      eapply visited_grows; [by apply Hv | exact Hg].
    + exact Hs.
    + exists sel', w'. split_and!; try assumption.
      intros _ qt suffix file Hqt Hsuf Hfile. by apply (Hall qt).
Qed.

(** The selection loops. *)
Lemma select_searchable_spec raw_names :
  ∃ sel w',
    select_searchable pd raw_names qts w0 = (Val sel, w')
    ∧ selecting w0 sel w'
    ∧ ∀ raw_name qt suffix file,
        raw_name ∈ raw_names → disqualified raw_name = false →
        qt ∈ qts → (qt, suffix) ∈ qt_dict →
        file ∈ children (w_fs w0) pd →
        visited raw_name suffix file sel w'.
Proof.
  destruct (for_acc_all raw_names (visit_raw_name pd qts)
              (selecting w0) sel_grows
              (λ raw_name sel w,
                 disqualified raw_name = false →
                 ∀ qt suffix file,
                   qt ∈ qts → (qt, suffix) ∈ qt_dict →
                   file ∈ children (w_fs w0) pd →
                   visited raw_name suffix file sel w))
    with (s := mkSel ∅ []) (w := w0) as (sel' & w' & E & Hs' & Hg & Hall).
  - intros raw_name s w1 _ Hs1. by apply visit_raw_name_spec.
  - intros raw_name s w1 s' w1' Hv Hg Hd qt suffix file Hqt Hsuf Hfile.
    eapply visited_grows; [by eapply Hv | exact Hg].
  - split_and!; [reflexivity | reflexivity |]. simpl. intros p Hp.
    by apply not_elem_of_empty in Hp.
  - exists sel', w'. split_and!; try assumption.
    intros raw_name qt suffix file Hr Hd Hqt Hsuf Hfile.
    by apply (Hall raw_name Hr Hd qt).
Qed.

End Selection.

(** The selection loops, for any list of base names: they return, read
    only, put in the set to search only files that exist with a size above
    zero, and classify the tier file they build from each entry [file] of
    the directory whose name ends in [.mgf] and starts with a base name
    that is not disqualified. *)
Lemma select_searchable_classifies
    (pd : path) (raw_names qts : list string) (w : World) :
  isdir (w_fs w) pd = true →
  (∀ qt, qt ∈ qts → qt ∈ qt_dict.*1) →
  ∃ sel w',
    select_searchable pd raw_names qts w = (Val sel, w')
    ∧ w_fs w' = w_fs w
    ∧ (∀ p, p ∈ to_search sel → searchable (w_fs w) p)
    ∧ ∀ raw_name qt suffix file,
        raw_name ∈ raw_names → disqualified raw_name = false →
        qt ∈ qts → (qt, suffix) ∈ qt_dict →
        file ∈ children (w_fs w) pd →
        PyStr.endswith file ".mgf" = true →
        PyStr.startswith file raw_name = true →
        classified (w_fs w) sel (new_log w w') pd (tier_name file suffix).
Proof.
  intros Hdir Hqts.
  destruct (select_searchable_spec pd qts w Hdir Hqts raw_names)
    as (sel & w' & E & (Hfs & _ & Hsel) & Hv).
  exists sel, w'. split_and!; try assumption.
Qed.


(** ** Strings built by appending *)

Lemma chars_app (a b : string) :
  PyStr.chars (a +:+ b) = PyStr.chars a ++ PyStr.chars b.
Proof.
  unfold PyStr.chars. induction a as [|c a IH]; simpl; [|rewrite IH];
    reflexivity.
Qed.

Lemma str_chars (s : string) : PyStr.str (PyStr.chars s) = s.
Proof. apply String.string_of_list_ascii_of_string. Qed.

Lemma endswith_app (b t : string) : PyStr.endswith (b +:+ t) t = true.
Proof.
  apply bool_decide_eq_true_2. rewrite chars_app. by apply suffix_app_r.
Qed.

(** A suffix of [b +:+ t] is a suffix of [t] or has [t] as a suffix. *)
Lemma endswith_app_false (b t s : string) :
  PyStr.endswith t s = false → PyStr.endswith s t = false →
  PyStr.endswith (b +:+ t) s = false.
Proof.
  intros H1 H2. apply bool_decide_eq_false_2. rewrite chars_app. intros Hs.
  apply bool_decide_eq_false_1 in H1, H2.
  destruct (suffix_weak_total _ _ _ Hs
              (suffix_app_r (PyStr.chars t) _ (PyStr.chars b)
                 (reflexivity _))); auto.
Qed.

Lemma startswith_app (b t : string) : PyStr.startswith (b +:+ t) b = true.
Proof.
  apply bool_decide_eq_true_2. rewrite chars_app. by apply prefix_app_r.
Qed.

Lemma slice_to_neg_app (b t : string) :
  t ≠ "" →
  PyStr.slice_to_neg (b +:+ t) (length (PyStr.chars t)) = b.
Proof.
  intros Ht. unfold PyStr.slice_to_neg.
  destruct (length (PyStr.chars t)) as [|n] eqn:Hn.
  { destruct t; [done | discriminate]. }
  rewrite <- Hn, chars_app, length_app.
  replace (length (PyStr.chars b) + length (PyStr.chars t)
           - length (PyStr.chars t)) with (length (PyStr.chars b)) by lia.
  rewrite take_app_length. apply str_chars.
Qed.

(** The extension of a name that ends in [.mgf] after a character that
    is neither a dot nor a separator. *)
Lemma splitext_mgf (b t : string) (c : ascii) (r : list ascii) :
  rev (PyStr.chars t) = c :: r →
  PyStr.is_sep c = false → PyStr.is_dot c = false →
  PyStr.splitext (b +:+ (t +:+ ".mgf")) = (b +:+ t, ".mgf").
Proof.
  intros Ht Hsep Hdot. unfold PyStr.splitext.
  rewrite !chars_app, !rev_app_distr, Ht. simpl.
  rewrite Hsep. simpl. rewrite Hdot. simpl.
  f_equal.
  change (rev (r ++ rev (PyStr.chars b)) ++ [c])
    with (rev ((c :: r) ++ rev (PyStr.chars b))).
  rewrite <- Ht, <- rev_app_distr, rev_involutive, <- chars_app.
  apply str_chars.
Qed.

(** ** The tier suffixes *)

Lemma strip_tier_suffix_cons (v : string) (vs : list string) (b : string) :
  strip_tier_suffix (v :: vs) b
  = if PyStr.endswith b (PyStr.slice_to_neg v 4)
    then PyStr.slice_to_neg b
           (length (PyStr.chars (PyStr.slice_to_neg v 4)))
    else strip_tier_suffix vs b.
Proof. reflexivity. Qed.

(** Reduces the closed string [PyStr.slice_to_neg v 4] of the goal. *)
Ltac tier_of_value :=
  match goal with
  | |- context [PyStr.slice_to_neg ?v 4] =>
      let t := eval vm_compute in (PyStr.slice_to_neg v 4) in
      change (PyStr.slice_to_neg v 4) with t
  end.

(** What the code relies on for each entry of the dictionary: the value
    is a tier mark followed by [.mgf]; a base name followed by the mark is
    not disqualified, loses exactly the mark in the loop over the values,
    and is what [os.path.splitext] leaves of the name of the tier file. *)
Lemma tier_suffix_facts (qt suffix b : string) :
  (qt, suffix) ∈ qt_dict →
  let t := PyStr.slice_to_neg suffix 4 in
  suffix = t +:+ ".mgf"
  ∧ strip_tier_suffix (map snd qt_dict) (b +:+ t) = b
  ∧ disqualified (b +:+ t) = false
  ∧ PyStr.splitext (b +:+ suffix) = (b +:+ t, ".mgf").
Proof.
  unfold qt_dict at 1. intros H.
  repeat (apply elem_of_cons in H as [H|H];
          [injection H as -> ->; cbv zeta; tier_of_value|]);
    [..|inversion H].
  all: split_and!.
  all: try reflexivity.
  all: try (match goal with
            | |- PyStr.splitext _ = (_ +:+ ?t, _) =>
                eapply (splitext_mgf b t); vm_compute; reflexivity
            end).
  all: try (unfold disqualified;
            rewrite !endswith_app_false by (vm_compute; reflexivity);
            reflexivity).
  all: (let l := eval vm_compute in (map snd qt_dict) in
        change (map snd qt_dict) with l).
  all: repeat (rewrite strip_tier_suffix_cons; tier_of_value;
               first [ rewrite endswith_app_false
                         by (vm_compute; reflexivity)
                     | rewrite endswith_app ]).
  all: apply slice_to_neg_app; discriminate.
Qed.

(** ** The listing of a directory *)

Lemma strip_prefix_spec (d k rest : path) :
  strip_prefix d k = Some rest ↔ k = d ++ rest.
Proof.
  revert k. induction d as [|x d IH]; intros k; simpl.
  - split; congruence.
  - destruct k as [|y k]; [split; discriminate|].
    destruct (decide (x = y)) as [->|Hne].
    + rewrite IH. split; congruence.
    + split; [discriminate | congruence].
Qed.

Lemma child_name_spec (d k : path) (n : string) :
  child_name d k = Some n ↔ k = join d n.
Proof.
  unfold child_name, join. rewrite <- strip_prefix_spec.
  destruct (strip_prefix d k) as [[|m [|m' r]]|]; split; congruence.
Qed.

Lemma elem_of_children (fs : gmap path node) (d : path) (n : string) :
  n ∈ children fs d ↔ is_Some (fs !! join d n).
Proof.
  unfold children. rewrite list_elem_of_omap. split.
  - intros ([k v] & Hin & Hn). apply elem_of_map_to_list in Hin.
    apply child_name_spec in Hn. simpl in Hn. subst k. by eexists.
  - intros [v Hv]. exists (join d n, v). split.
    + by apply elem_of_map_to_list.
    + by apply child_name_spec.
Qed.

Lemma endswith_app_app (b t x : string) :
  PyStr.endswith (b +:+ (t +:+ x)) x = true.
Proof.
  apply bool_decide_eq_true_2. rewrite !chars_app. by do 2 apply suffix_app_r.
Qed.

Lemma startswith_app_app (b t x : string) :
  PyStr.startswith (b +:+ (t +:+ x)) (b +:+ t) = true.
Proof.
  apply bool_decide_eq_true_2. rewrite !chars_app, app_assoc.
  by apply prefix_app_r.
Qed.

(** [update_raw_names] in a directory that can be listed: the base names
    of the regular files whose names end in [.mgf]. *)
Lemma update_raw_names_spec (self : t) (w : World) :
  isdir (w_fs w) (processed_directory self) = true →
  update_raw_names self w
  = (Val (set_raw_names
            (map (λ f, (PyStr.splitext f).1)
               (filter (λ f, isfile (w_fs w)
                               (join (processed_directory self) f) = true
                             ∧ PyStr.endswith f ".mgf" = true)
                  (children (w_fs w) (processed_directory self))))
            self), w).
Proof.
  intros Hdir. unfold update_raw_names, fs_try, listdir.
  rewrite bind_eq, Hdir. reflexivity.
Qed.

(** C5 — [search_process], from the refresh of the base names to the end
    of its selection loops, in a processed directory that can be listed
    and for requested tiers that are keys of the dictionary.  It returns,
    reads only, and puts in the set to search only files that exist with a
    size above zero: a tier file of size zero is never in it.  And for
    every sample [B] that has a regular tier file in the directory (a
    file [B] followed by a value of the dictionary) and every requested
    tier: the tier file of [B] for that tier is in the set to search when
    it exists with content; its name is in the excluded list, with the
    warning that says that the file is empty, when it exists with size
    zero; and its name is in the excluded list, with the warning that says
    that the file does not exist, when it is missing. *)
Theorem empty_tier_file_is_excluded
    (env : Env) (self : t) (qts : list string) (w : World)
    (B qt0 suffix0 qt suffix : string) :
  isdir (w_fs w) (processed_directory self) = true →
  (∀ q, q ∈ qts → q ∈ qt_dict.*1) →
  (qt0, suffix0) ∈ qt_dict →
  isfile (w_fs w) (join (processed_directory self) (B +:+ suffix0)) = true →
  qt ∈ qts → (qt, suffix) ∈ qt_dict →
  ∃ self' sel w',
    refresh_and_select env self qts w = (Val (self', sel), w')
    ∧ w_fs w' = w_fs w
    ∧ (∀ p, p ∈ to_search sel → searchable (w_fs w) p)
    ∧ classified (w_fs w) sel (new_log w w') (processed_directory self)
        (B +:+ suffix).
Proof.
  intros Hdir Hqts H0 Hfile Hqt Hsuf.
  destruct (tier_suffix_facts qt0 suffix0 B H0) as (E0 & Hstrip & Hdis & Hext).
  set (t0 := PyStr.slice_to_neg suffix0 4) in *.
  unfold refresh_and_select.
  rewrite bind_eq, (update_raw_names_spec self w Hdir).
  erewrite (bind_val (time_time env)) by reflexivity.
  cbv beta zeta.
  cbn [processed_directory raw_names set_search_start_time set_raw_names].
  match goal with
  | |- context [(select_searchable ?pd ?names qts ≫= _) ?w1] =>
    destruct (select_searchable_classifies pd names qts w1 Hdir Hqts)
      as (sel & w' & E & Hfs & Hsel & Hv);
    rewrite bind_eq, E
  end.
  simpl in Hfs, Hsel, Hv. eexists _, sel, w'.
  split_and!; [reflexivity | exact Hfs | exact Hsel |].
  assert (Hin : (B +:+ suffix0)
                ∈ children (w_fs w) (processed_directory self)).
  { apply elem_of_children. unfold isfile in Hfile.
    destruct (w_fs w !! _) as [n|]; [by eexists | discriminate]. }
  assert (Hmgf : PyStr.endswith (B +:+ suffix0) ".mgf" = true).
  { rewrite E0. apply endswith_app_app. }
  specialize (Hv (B +:+ t0) qt suffix (B +:+ suffix0)).
  unfold tier_name in Hv. rewrite Hext in Hv. cbn [fst] in Hv.
  rewrite Hstrip in Hv. apply Hv; try assumption.
  - apply list_elem_of_fmap. exists (B +:+ suffix0). split.
    + by rewrite Hext.
    + apply list_elem_of_filter. by split.
  - rewrite E0. apply startswith_app_app.
Qed.

(** The theorem on the empty tier file [a_Q1.mgf] of the sample processed
    directory, for the tier that [search_process] requests. *)
Lemma empty_tier_file_is_excluded_witness :
  ∃ self' sel w',
    refresh_and_select Sample.env Sample.search_database qt_to_search
      (initial_world Sample.fs_processed ∅) = (Val (self', sel), w')
    ∧ w_fs w' = Sample.fs_processed
    ∧ (∀ p, p ∈ to_search sel → searchable Sample.fs_processed p)
    ∧ classified Sample.fs_processed sel
        (new_log (initial_world Sample.fs_processed ∅) w')
        (processed_directory Sample.search_database) ("a" +:+ "_Q1.mgf").
Proof.
  apply (empty_tier_file_is_excluded Sample.env Sample.search_database
           qt_to_search (initial_world Sample.fs_processed ∅)
           "a" "1" "_Q1.mgf" "1" "_Q1.mgf").
  - vm_compute. reflexivity.
  - intros q Hq. apply list_elem_of_singleton in Hq as ->. simpl. left.
  - unfold qt_dict. left.
  - vm_compute. reflexivity.
  - left.
  - unfold qt_dict. left.
Defined.

(** What the selection gives there: the file with content is to be
    searched; the empty one and the missing one are excluded, each with
    its warning. *)
Example selection_of_sample :
  let r := select_searchable (Sample.top ++ ["processed"])
             ["a_Q1"; "b_Q1"; "c_Q2"] qt_to_search
             (initial_world Sample.fs_processed ∅) in
  (∃ sel, r.1 = Val sel
          ∧ elements (to_search sel) = [Sample.top ++ ["processed"; "b_Q1.mgf"]]
          ∧ not_searched_files sel = ["a_Q1.mgf"; "c_Q1.mgf"])
  ∧ w_log r.2 = [ (WARNING, empty_msg "a_Q1.mgf");
                  (WARNING, missing_msg "c_Q1.mgf") ].
Proof. vm_compute. split; [eexists; split_and!|]; reflexivity. Qed.

(** ** Two selections in the same directory *)

Section Sim.
Context (S : relation (gmap path node)).

Lemma sim_ret {A B} (E : A → B → Prop) (a : A) (b : B) :
  E a b → sim (fs_rel S) E (mret a) (mret b).
Proof. intros He w1 w2 Hr. split; [exact He | exact Hr]. Qed.

Lemma sim_bind {A1 A2 B1 B2} (E : A1 → A2 → Prop) (F : B1 → B2 → Prop)
    (m1 : M A1) (m2 : M A2) (k1 : A1 → M B1) (k2 : A2 → M B2) :
  sim (fs_rel S) E m1 m2 →
  (∀ a b, E a b → sim (fs_rel S) F (k1 a) (k2 b)) →
  sim (fs_rel S) F (m1 ≫= k1) (m2 ≫= k2).
Proof.
  intros Hm Hk w1 w2 Hr. rewrite !bind_eq. specialize (Hm w1 w2 Hr).
  destruct (m1 w1) as [[a|e|c] w1'], (m2 w2) as [[b|e'|c'] w2'];
    simpl in Hm; destruct Hm as [He Hr']; try contradiction.
  - by apply Hk.
  - by split.
  - by split.
Qed.

Lemma sim_for_acc {A S1 S2} (E : S1 → S2 → Prop) (l : list A)
    (b1 : S1 → A → M S1) (b2 : S2 → A → M S2) :
  (∀ x s1 s2, E s1 s2 → sim (fs_rel S) E (b1 s1 x) (b2 s2 x)) →
  ∀ s1 s2, E s1 s2 → sim (fs_rel S) E (for_acc l s1 b1) (for_acc l s2 b2).
Proof.
  intros Hb. induction l as [|x l IH]; intros s1 s2 He; simpl.
  - by apply sim_ret.
  - eapply sim_bind; [by apply Hb | exact IH].
Qed.

Lemma sim_log (lvl : level) (msg : string) :
  sim (fs_rel S) eq (log lvl msg) (log lvl msg).
Proof. intros w1 w2 Hr. split; [reflexivity | exact Hr]. Qed.

Lemma sim_fs_read {A B} (E : A → B → Prop)
    (f1 : gmap path node → A) (f2 : gmap path node → B) :
  (∀ fs1 fs2, S fs1 fs2 → E (f1 fs1) (f2 fs2)) →
  sim (fs_rel S) E (fs_read f1) (fs_read f2).
Proof. intros Hf w1 w2 Hr. split; [by apply Hf | exact Hr]. Qed.

Lemma sim_fs_try {A} (f1 f2 : gmap path node → result A) :
  (∀ fs1 fs2, S fs1 fs2 → f1 fs1 = f2 fs2) →
  sim (fs_rel S) eq (fs_try f1) (fs_try f2).
Proof.
  intros Hf w1 w2 Hr. unfold fs_try. rewrite (Hf _ _ Hr).
  destruct (f2 (w_fs w2)); by split.
Qed.

Lemma sim_time_time (env1 env2 : Env) :
  sim (fs_rel S) (λ _ _, True) (time_time env1) (time_time env2).
Proof. intros w1 w2 Hr. split; [exact I | exact Hr]. Qed.

End Sim.

Section Snapshot.
Context (pd : path).

#[local] Abbreviation R := (fs_rel (same_snapshot pd)).

Lemma same_snapshot_listdir fs1 fs2 :
  same_snapshot pd fs1 fs2 → listdir fs1 pd = listdir fs2 pd.
Proof.
  intros (Hd & Hc & _). unfold listdir, isdir, exists_. by rewrite Hd, Hc.
Qed.

Lemma same_snapshot_exists fs1 fs2 n :
  same_snapshot pd fs1 fs2 → exists_ fs1 (join pd n) = exists_ fs2 (join pd n).
Proof. intros (_ & _ & Hn). unfold exists_. by rewrite Hn. Qed.

Lemma same_snapshot_getsize fs1 fs2 n :
  same_snapshot pd fs1 fs2 → getsize fs1 (join pd n) = getsize fs2 (join pd n).
Proof. intros (_ & _ & Hn). unfold getsize. by rewrite Hn. Qed.

Lemma same_snapshot_isfile fs1 fs2 n :
  same_snapshot pd fs1 fs2 → isfile fs1 (join pd n) = isfile fs2 (join pd n).
Proof. intros (_ & _ & Hn). unfold isfile. by rewrite Hn. Qed.

Lemma visit_file_sim raw_name qt sel file :
  sim R eq (visit_file pd raw_name qt sel file)
           (visit_file pd raw_name qt sel file).
Proof.
  unfold visit_file.
  destruct (PyStr.endswith file ".mgf" && PyStr.startswith file raw_name);
    [|by apply sim_ret].
  eapply sim_bind with (E := eq).
  { intros w1 w2 Hr. destruct (dict_get qt_dict qt w1) as [r w1'] eqn:E1.
    unfold dict_get in *. destruct (list_find _ _) as [[? ?]|];
      injection E1 as <- <-; by split. }
  intros suffix ? <-. eapply sim_bind with (E := eq).
  { apply sim_fs_read. intros fs1 fs2. apply same_snapshot_exists. }
  intros there ? <-. destruct there.
  - eapply sim_bind with (E := eq).
    { apply sim_fs_try. intros fs1 fs2. apply same_snapshot_getsize. }
    intros size ? <-. case_bool_decide; [by apply sim_ret|].
    eapply sim_bind; [apply sim_log | intros; by apply sim_ret].
  - eapply sim_bind; [apply sim_log | intros; by apply sim_ret].
Qed.

Lemma visit_raw_name_sim qts sel raw_name :
  sim R eq (visit_raw_name pd qts sel raw_name)
           (visit_raw_name pd qts sel raw_name).
Proof.
  unfold visit_raw_name. destruct (disqualified raw_name).
  - eapply sim_bind; [apply sim_log | intros; by apply sim_ret].
  - apply sim_for_acc; [|reflexivity]. intros qt s ? <-.
    eapply sim_bind with (E := eq).
    { apply sim_fs_try. intros fs1 fs2. apply same_snapshot_listdir. }
    intros files ? <-. apply sim_for_acc; [|reflexivity].
    intros file s' ? <-. apply visit_file_sim.
Qed.

Lemma select_searchable_sim raw_names qts :
  sim R eq (select_searchable pd raw_names qts)
           (select_searchable pd raw_names qts).
Proof.
  unfold select_searchable. apply sim_for_acc; [|reflexivity].
  intros raw_name s ? <-. apply visit_raw_name_sim.
Qed.

Lemma update_raw_names_sim (self1 self2 : t) :
  processed_directory self1 = pd → processed_directory self2 = pd →
  sim R (λ a b, processed_directory a = pd ∧ processed_directory b = pd
                ∧ raw_names a = raw_names b)
    (update_raw_names self1) (update_raw_names self2).
Proof.
  intros H1 H2. unfold update_raw_names. rewrite H1, H2.
  eapply sim_bind with (E := eq).
  { apply sim_fs_try. intros fs1 fs2. apply same_snapshot_listdir. }
  intros names ? <-. eapply sim_bind with (E := eq).
  { apply sim_fs_read. intros fs1 fs2 Hs. apply list_filter_iff.
    intros f. by rewrite (same_snapshot_isfile _ _ f Hs). }
  intros regular ? <-. apply sim_ret. by split_and!.
Qed.

End Snapshot.



End SelectionProps.

(* ===================================================================== *)
(** * main.py: where the run calls [sys.exit] *)
(* ===================================================================== *)

Module ExitProps.

Lemma exits_bind_vals {A B} (Q : Z → World → Prop) (PV : A → Prop)
    (m : M A) (f : A → M B) :
  exits_with Q m → vals_with PV m → (∀ a, PV a → exits_with Q (f a)) →
  exits_with Q (m ≫= f).
Proof.
  intros Hm Hv Hf w c. rewrite bind_eq. specialize (Hm w). specialize (Hv w).
  destruct (m w) as [[a|e|c'] w1]; simpl in *.
  - apply Hf, Hv. reflexivity.
  - discriminate.
  - intros [= <-]. apply (Hm c'). reflexivity.
Qed.

(** A call of [main] that may exit: the call is the last one noted when it
    does. *)
Lemma exits_stage {A B} (n : string) (m : M A) (f : A → M B)
    (QX Q : Z → World → Prop) (PV : A → Prop) :
  preserves (rel any any eq) m → exits_with QX m → vals_with PV m →
  (∀ c w, QX c w → last (w_trace w) = Some n → Q c w) →
  (∀ a, PV a → exits_with Q (f a)) →
  exits_with Q (enter n ;; (m ≫= f)).
Proof.
  intros Hp Hx Hv HQ Hf w c. rewrite bind_eq. simpl.
  rewrite bind_eq.
  set (w0 := mkWorld _ _ _ _ _ _ _).
  specialize (Hp w0). specialize (Hx w0). specialize (Hv w0).
  destruct (m w0) as [[a|e|c'] w1]; simpl in *.
  - apply Hf, Hv. reflexivity.
  - discriminate.
  - intros [= <-]. apply HQ; [by apply Hx|].
    destruct Hp as (_ & _ & <- & _). apply last_snoc.
Qed.

(** A call of [main] that cannot exit. *)
Lemma exits_quiet_stage {A B} (n : string) (m : M A) (f : A → M B)
    (Q : Z → World → Prop) (PV : A → Prop) :
  no_exit m → vals_with PV m →
  (∀ a, PV a → exits_with Q (f a)) →
  exits_with Q (enter n ;; (m ≫= f)).
Proof.
  intros Hx Hv Hf. apply exits_bind; [apply exits_enter | intros _].
  eapply exits_bind_vals; [|exact Hv|exact Hf].
  eapply exits_weaken; [|exact Hx]. intros c w [].
Qed.

Section WithEnv.
Context (env : Env) (cfg : Config).

(** ** The methods that cannot exit *)

Lemma reference_name_setup_no_exit self :
  no_exit (FolderStructure.reference_name_setup env self).
Proof. unfold FolderStructure.reference_name_setup, no_exit. exits. Qed.

Lemma convert_raw_files_no_exit self :
  no_exit (ConvertRawFiles.convert_raw_files env self).
Proof.
  unfold ConvertRawFiles.convert_raw_files, ConvertRawFiles.convert_one,
    no_exit. exits.
Qed.

Lemma dia_init_no_exit conv : no_exit (DiaUmpire.init env cfg conv).
Proof. unfold DiaUmpire.init, FolderStructure.init, no_exit. exits. Qed.

Lemma dia_file_processing_no_exit self :
  no_exit (DiaUmpire.dia_file_processing env cfg self).
Proof.
  unfold DiaUmpire.dia_file_processing, DiaUmpire.process_one,
    DiaUmpire.record_failure, strftime_gmtime, no_exit. exits.
Qed.

Lemma cleaning_process_no_exit self raw_dir :
  no_exit (CleanFiles.cleaning_process self raw_dir).
Proof.
  unfold CleanFiles.cleaning_process, CleanFiles.clean_entry, no_exit. exits.
Qed.

Lemma move_to_processed_no_exit self :
  no_exit (MoveOutputFiles.move_to_processed self).
Proof. unfold MoveOutputFiles.move_to_processed, no_exit. exits. Qed.

Lemma search_init_no_exit rd tfp name :
  no_exit (SearchDatabase.init env cfg rd tfp name).
Proof. unfold SearchDatabase.init, FolderStructure.init, no_exit. exits. Qed.

Lemma update_raw_names_no_exit self :
  no_exit (SearchDatabase.update_raw_names self).
Proof. unfold SearchDatabase.update_raw_names, no_exit. exits. Qed.

Lemma search_process_no_exit self :
  no_exit (SearchDatabase.search_process env self).
Proof.
  unfold SearchDatabase.search_process, SearchDatabase.refresh_and_select,
    SearchDatabase.update_raw_names, SearchDatabase.select_searchable,
    SearchDatabase.visit_raw_name, SearchDatabase.visit_file,
    SearchDatabase.dict_get, SearchDatabase.search_failed, no_exit.
  exits.
Qed.

Lemma shaker_init_no_exit rd tfp name :
  no_exit (PeptideShaker.init env cfg rd tfp name).
Proof.
  unfold PeptideShaker.init, SearchDatabase.init, FolderStructure.init,
    no_exit. exits.
Qed.

Lemma peptideshaker_process_no_exit self to_search :
  no_exit (PeptideShaker.peptideshaker_process env self to_search).
Proof.
  unfold PeptideShaker.peptideshaker_process, PeptideShaker.shaker_failed,
    no_exit. exits.
Qed.

Lemma generate_reports_no_exit self :
  no_exit (Reports.generate_reports env self).
Proof.
  unfold Reports.generate_reports, Reports.report_failed, no_exit. exits.
Qed.

Lemma convert_report_type_no_exit self :
  no_exit (Reports.convert_report_type env self).
Proof. unfold Reports.convert_report_type, no_exit. exits. Qed.

Lemma write_summary_no_exit self :
  no_exit (Main.Summary.write_summary env self).
Proof.
  unfold Main.Summary.write_summary, Main.Summary.elapsed, Main.Summary.len,
    Main.Summary.mmss, strftime_gmtime, no_exit. exits.
Qed.

(** ** The six methods that can exit *)

Lemma directory_setup_exit self :
  exits_with (λ c w, c = 1%Z
      ∧ last (w_log w) = Some (ERROR, FolderStructure.raw_missing_msg)
      ∧ isdir (w_fs w) (join (FolderStructure.top_dir self) "raw") = false)
    (FolderStructure.directory_setup env self).
Proof.
  intros w c E.
  destruct (FolderStructure.directory_setup env self w) as [r w'] eqn:Ew.
  simpl in E. subst r.
  pose proof (FolderStructureFacts.directory_setup_raw_present _ _ _ _ _ Ew)
    as Hd.
  destruct (exits_elim _ _ _ _ _
              (FolderStructureFacts.directory_setup_exits env self) Ew)
    as [-> Hl].
  split_and!; [reflexivity | exact Hl |].
  revert Ew. unfold FolderStructure.directory_setup. mrun. rewrite Hd. mrun.
  intros [= <-]. simpl. exact Hd.
Qed.

Lemma directory_setup_trace self :
  preserves (rel any any eq) (FolderStructure.directory_setup env self).
Proof.
  eapply preserves_weaken;
    [|apply FolderStructureFacts.directory_setup_preserves].
  intros w w'. apply rel_weaken; [by intros | by intros | auto].
Qed.

Lemma executable_setup_exit self :
  exits_with (λ c w, c = 1%Z ∧ ∃ names,
      last (w_log w) = Some (ERROR, FolderStructure.missing_list_msg names)
      ∧ names = missing_executables (w_fs w) (FolderStructure.executables self)
      ∧ names ≠ [])
    (FolderStructure.executable_setup self).
Proof.
  intros w c E.
  destruct (FolderStructureFacts.executable_setup_spec self w)
    as (w' & R & _ & H).
  apply rel_fs_eq in R.
  destruct (missing_executables (w_fs w) _) as [|n ns] eqn:Hm.
  - rewrite H in E. discriminate.
  - destruct H as [H Hl]. rewrite H in E |- *. simpl in *.
    injection E as <-. split; [reflexivity|]. exists (n :: ns).
    split_and!; [exact Hl | by rewrite R | discriminate].
Qed.

Lemma executable_setup_trace self :
  preserves (rel any any eq) (FolderStructure.executable_setup self).
Proof.
  intros w.
  destruct (FolderStructureFacts.executable_setup_spec self w)
    as (w' & R & _ & H).
  assert (E : (FolderStructure.executable_setup self w).2 = w').
  { destruct (missing_executables _ _); [by rewrite H|].
    destruct H as [H _]. by rewrite H. }
  rewrite E. revert R. apply rel_weaken; [by intros | by intros | auto].
Qed.

Lemma parameter_check_exit self :
  exits_with (λ c w, c = 1%Z ∧ ∃ names,
      last (w_log w)
        = Some (ERROR, FolderStructure.parameters_missing_msg names)
      ∧ names = parameter_files_missing (w_fs w)
                  (FolderStructure.parameter_files self)
      ∧ names ≠ [])
    (FolderStructure.parameter_check self).
Proof.
  intros w c E.
  destruct (FolderStructureFacts.parameter_check_spec self w)
    as (w' & R & H).
  apply rel_fs_eq in R.
  destruct (parameter_files_missing (w_fs w) _) as [|n ns] eqn:Hm.
  - rewrite H in E. discriminate.
  - destruct H as [H Hl]. rewrite H in E |- *. simpl in *.
    injection E as <-. split; [reflexivity|]. exists (n :: ns).
    split_and!; [exact Hl | by rewrite R | discriminate].
Qed.

Lemma parameter_check_trace self :
  preserves (rel any any eq) (FolderStructure.parameter_check self).
Proof.
  intros w.
  destruct (FolderStructureFacts.parameter_check_spec self w)
    as (w' & R & H).
  assert (E : (FolderStructure.parameter_check self w).2 = w').
  { destruct (parameter_files_missing _ _); [by rewrite H|].
    destruct H as [H _]. by rewrite H. }
  rewrite E. revert R. apply rel_weaken; [by intros | by intros | auto].
Qed.

Lemma identify_raw_files_exit self :
  exits_with (λ c w, c = 1%Z
      ∧ last (w_log w) = Some (ERROR, ConvertRawFiles.raw_dir_missing_msg)
      ∧ isdir (w_fs w) (ConvertRawFiles.raw_dir self) = false)
    (ConvertRawFiles.identify_raw_files self).
Proof.
  intros w c. unfold ConvertRawFiles.identify_raw_files. mrun.
  destruct (isdir (w_fs w) (ConvertRawFiles.raw_dir self)) eqn:Hd.
  - rewrite bind_eq. unfold fs_try. simpl.
    destruct (listdir _ _); simpl; discriminate.
  - mrun. intros [= <-]. split_and!; [reflexivity | | exact Hd].
    rewrite passes_not_info by discriminate. apply last_snoc.
Qed.

Lemma identify_raw_files_trace self :
  preserves (rel any any eq) (ConvertRawFiles.identify_raw_files self).
Proof. unfold ConvertRawFiles.identify_raw_files. pres. Qed.

Lemma check_converted_raw_files_exit self :
  exits_with (λ c w, c = 1%Z
      ∧ last (w_log w) = Some (WARNING, ConvertRawFiles.no_files_msg))
    (ConvertRawFiles.check_converted_raw_files self).
Proof.
  unfold ConvertRawFiles.check_converted_raw_files. exits.
  split; [reflexivity|]. apply log_last. discriminate.
Qed.

Lemma check_converted_raw_files_trace self :
  preserves (rel any any eq) (ConvertRawFiles.check_converted_raw_files self).
Proof. unfold ConvertRawFiles.check_converted_raw_files. pres. Qed.

(** [Reports.__init__] up to its [try]: the objects are built, two records
    are logged and the file system is as before. *)
Lemma reports_init_eq rd tfp name w :
  let dir := join (cwd cfg) "reports" in
  ∃ self w1,
    w_fs w1 = w_fs w
    ∧ Reports.init env cfg rd tfp name w
      = (try_bare
           (is_dir ← fs_read (λ fs, isdir fs dir);
            if is_dir : bool
            then log INFO ("The following directory already exists: "
                           +:+ path_str dir)
            else os_makedirs env true dir;;
                 log INFO ("The following directory has been set up: "
                           +:+ path_str dir))
           (log ERROR Reports.reports_missing_msg;; sys_exit 1);;
         mret self) w1.
Proof.
  unfold Reports.init, PeptideShaker.init, SearchDatabase.init,
    FolderStructure.init. mrun.
  eexists _, _. split; [|reflexivity]. reflexivity.
Qed.

Lemma reports_init_exit rd tfp name :
  exits_with (λ c w, c = 1%Z
      ∧ last (w_log w) = Some (ERROR, Reports.reports_missing_msg)
      ∧ isdir (w_fs w) (join (cwd cfg) "reports") = false
      ∧ ∃ e, makedirs (mkdir_size env) true (w_fs w)
               (join (cwd cfg) "reports") = Err e)
    (Reports.init env cfg rd tfp name).
Proof.
  intros w c.
  destruct (reports_init_eq rd tfp name w) as (self & w1 & Hfs & ->).
  rewrite bind_eq. unfold try_bare. rewrite bind_eq. simpl.
  destruct (isdir (w_fs w1) (join (cwd cfg) "reports")) eqn:Hdir.
  { simpl. discriminate. }
  rewrite bind_eq. unfold os_makedirs, fs_update.
  destruct (makedirs (mkdir_size env) true (w_fs w1)
              (join (cwd cfg) "reports")) as [fs'|e] eqn:Hmk.
  { simpl. discriminate. }
  mrun. intros [= <-]. split_and!; [reflexivity | | exact Hdir | by exists e].
  rewrite passes_not_info by discriminate. apply last_snoc.
Qed.

Lemma reports_init_trace rd tfp name :
  preserves (rel any any eq) (Reports.init env cfg rd tfp name).
Proof.
  unfold Reports.init, PeptideShaker.init, SearchDatabase.init,
    FolderStructure.init, os_makedirs.
  pres. apply preserves_fs_update; pres. exact I.
Qed.

(** Each of the six exits whenever what it checks fails. *)
Lemma six_exit_when_failing : exits_when_failing env cfg.
Proof.
  split_and!.
  - intros self w. apply FolderStructureFacts.directory_setup_raw_missing.
  - intros self w Hm.
    destruct (FolderStructureFacts.executable_setup_spec self w)
      as (w' & _ & _ & H).
    destruct (missing_executables _ _); [done|]. destruct H as [-> _].
    reflexivity.
  - intros self w Hm.
    destruct (FolderStructureFacts.parameter_check_spec self w)
      as (w' & _ & H).
    destruct (parameter_files_missing _ _); [done|]. destruct H as [-> _].
    reflexivity.
  - intros self w Hd. unfold ConvertRawFiles.identify_raw_files. mrun.
    rewrite Hd. mrun. reflexivity.
  - intros self w Hr. unfold ConvertRawFiles.check_converted_raw_files.
    simpl. rewrite Hr. reflexivity.
  - intros rd tfp name w e Hd Hmk.
    destruct (reports_init_eq rd tfp name w) as (self & w1 & Hfs & ->).
    rewrite bind_eq. unfold try_bare. rewrite bind_eq. simpl.
    rewrite Hfs, Hd, bind_eq. unfold os_makedirs, fs_update.
    rewrite Hfs, Hmk. mrun. reflexivity.
Qed.

(** ** The whole run *)

Ltac quiet_stage lem :=
  eapply exits_quiet_stage; [apply lem | apply vals_any | intros ? _];
  cbv zeta.

Ltac skip_enter :=
  apply exits_bind; [apply exits_enter | intros _]; cbv zeta.

(** Wherever [main] exits, it is in one of the six states. *)
Lemma main_exits :
  exits_with (λ c w, c = 1%Z ∧ fatal_exit env cfg w) (Main.main env cfg).
Proof.
  unfold Main.main.
  (* FolderStructure() *)
  eapply exits_quiet_stage;
    [apply FolderStructureFacts.init_no_exit
    | apply FolderStructureFacts.init_fields |].
  intros fsm (Htop & _ & _ & Hexe & Hpar).
  (* logging_setup *)
  eapply exits_quiet_stage;
    [apply FolderStructureFacts.logging_setup_no_exit
    | apply FolderStructureFacts.logging_setup_fields |].
  intros ? ->.
  (* directory_setup *)
  eapply exits_stage;
    [apply directory_setup_trace | apply directory_setup_exit
    | apply FolderStructureFacts.directory_setup_fields | |].
  { intros c w (-> & Hl & Hd) Ht. split; [reflexivity|].
    apply fatal_raw_directory; [exact Ht | exact Hl |].
    simpl in Hd. by rewrite Htop in Hd. }
  intros ? ->.
  (* executable_setup *)
  eapply exits_stage;
    [apply executable_setup_trace | apply executable_setup_exit
    | apply vals_any | |].
  { intros c w (-> & names & Hl & Hn & Hne) Ht. split; [reflexivity|].
    apply (fatal_executable env cfg w names); [exact Ht | exact Hl | | exact Hne].
    rewrite Hn. f_equal. exact Hexe. }
  intros _ _.
  (* parameter_check *)
  eapply exits_stage;
    [apply parameter_check_trace | apply parameter_check_exit
    | apply vals_any | |].
  { intros c w (-> & names & Hl & Hn & Hne) Ht. split; [reflexivity|].
    apply (fatal_parameter_file env cfg w names);
      [exact Ht | exact Hl | | exact Hne].
    rewrite Hn. f_equal. exact Hpar. }
  intros _ _.
  (* reference_name_setup *)
  quiet_stage reference_name_setup_no_exit.
  (* ConvertRawFiles(...) and identify_raw_files *)
  skip_enter.
  eapply exits_stage;
    [apply identify_raw_files_trace | apply identify_raw_files_exit
    | apply vals_any | |].
  { intros c w (-> & Hl & Hd) Ht. split; [reflexivity|].
    by apply fatal_raw_files_directory. }
  intros conv _.
  (* convert_raw_files *)
  quiet_stage convert_raw_files_no_exit.
  (* check_converted_raw_files *)
  eapply exits_stage;
    [apply check_converted_raw_files_trace
    | apply check_converted_raw_files_exit | apply vals_any | |].
  { intros c w (-> & Hl) Ht. split; [reflexivity|].
    by apply fatal_no_converted_file. }
  intros conv' _.
  (* retrieve_raw_file_count, DiaUmpire(...) and dia_file_processing *)
  skip_enter.
  quiet_stage dia_init_no_exit.
  quiet_stage dia_file_processing_no_exit.
  (* CleanFiles() and cleaning_process *)
  skip_enter.
  quiet_stage cleaning_process_no_exit.
  (* MoveOutputFiles(...) and move_to_processed *)
  skip_enter.
  quiet_stage move_to_processed_no_exit.
  (* SearchDatabase(...), update_raw_names and search_process *)
  quiet_stage search_init_no_exit.
  quiet_stage update_raw_names_no_exit.
  eapply exits_quiet_stage;
    [apply search_process_no_exit | apply vals_any | intros [sdb ts] _].
  (* PeptideShaker(...) and peptideshaker_process *)
  quiet_stage shaker_init_no_exit.
  quiet_stage peptideshaker_process_no_exit.
  (* Reports(...) *)
  eapply exits_stage;
    [apply reports_init_trace | apply reports_init_exit | apply vals_any | |].
  { intros c w (-> & Hl & Hd & e & Hmk) Ht. split; [reflexivity|].
    by apply (fatal_reports_directory env cfg w e). }
  intros reports _.
  (* generate_reports and convert_report_type *)
  quiet_stage generate_reports_no_exit.
  quiet_stage convert_report_type_no_exit.
  (* Summary(...) and write_summary *)
  skip_enter. skip_enter.
  eapply exits_weaken; [|apply write_summary_no_exit]. intros c w [].
Qed.

End WithEnv.




End ExitProps.


(* ===================================================================== *)
(** * dia_umpire.py: the batch *)
(* ===================================================================== *)

Module DiaUmpireBatch.
Import DiaUmpire.

(** X1 — the deconvolution stage always returns.  Each turn of its loop
    returns with the object [turn_result] describes; DIA-Umpire is run
    once for each distinct name of the input list, in the order of the
    set; every name of the input ends up in [failed_files] or in
    [dia_processed_files]; the stage's own [raw_files] becomes the input
    without the failed names; and the [ConvertRawFiles] object it was
    built from is left as it was. *)
Theorem deconvolution_stage_always_returns
    (env : Env) (cfg : Config) (self : t) (w : World) :
  (∀ total s index f w0, ∃ w1,
     process_one env cfg total s (index, f) w0
     = (Val (turn_result env cfg s f w0), w1))
  ∧ ∃ self' w' (F : list string) (P : gset string),
      dia_file_processing env cfg self w = (Val self', w')
      ∧ new_calls w w' = map (umpire_command self) (list_set (raw_files self))
      ∧ failed_files self' = failed_files self ++ F
      ∧ dia_processed_files self' = P ∪ dia_processed_files self
      ∧ (∀ f, f ∈ raw_files self ↔ f ∈ F ∨ f ∈ P)
      ∧ raw_files self'
        = filter (λ f, f ∉ failed_files self') (raw_files self)
      ∧ convert_raw_files self' = convert_raw_files self.
Proof.
  split.
  - intros total s index f w0.
    destruct (DiaUmpireProps.process_one_spec env cfg total s index f w0)
      as (w1 & E & _).
    by exists w1.
  - destruct (DiaUmpireProps.dia_file_processing_spec env cfg self w)
      as (self' & w' & F & P & E & S & HF & HP & Hall & _ & Hraw & C & _).
    exists self', w', F, P. split_and!; try assumption.
    destruct S as [S _]. exact S.
Qed.

End DiaUmpireBatch.

(* ===================================================================== *)
(** * convert_raw_files.py: the scan and the selection *)
(* ===================================================================== *)

Module ConversionScan.
Import ConvertRawFiles.

Lemma chars_inj (a b : string) : PyStr.chars a = PyStr.chars b → a = b.
Proof.
  intros H. rewrite <- (SelectionProps.str_chars a),
    <- (SelectionProps.str_chars b), H. reflexivity.
Qed.

(** A name that ends with [s] is what is left of it without its last
    characters, followed by [s]. *)
Lemma endswith_split (g s : string) :
  s ≠ "" → PyStr.endswith g s = true →
  g = PyStr.slice_to_neg g (length (PyStr.chars s)) +:+ s.
Proof.
  intros Hs H. apply bool_decide_eq_true_1 in H. destruct H as [k Hk].
  apply chars_inj. rewrite SelectionProps.chars_app.
  unfold PyStr.slice_to_neg.
  destruct (length (PyStr.chars s)) as [|n] eqn:Hn.
  { destruct s; [done | discriminate]. }
  rewrite <- Hn, Hk, length_app.
  replace (length k + length (PyStr.chars s) - length (PyStr.chars s))
    with (length k) by lia.
  rewrite take_app_length. unfold PyStr.str, PyStr.chars.
  rewrite String.list_ascii_of_string_of_list_ascii. reflexivity.
Qed.

(** A name does not end with both extensions. *)
Lemma mzml_is_not_raw (f : string) :
  PyStr.endswith f ".mzML" = true → PyStr.endswith f ".raw" = false.
Proof.
  intros H. rewrite (endswith_split f ".mzML") by (done || exact H).
  apply SelectionProps.endswith_app_false; vm_compute; reflexivity.
Qed.

(** The scan loop, on any object. *)
Lemma classify_fold (l : list string) (self : t) :
  let self' := foldl classify self l in
  raw_files self'
  = raw_files self ++ filter (λ f, PyStr.endswith f ".mzML" = true) l
  ∧ thermo_raw_files self'
    = thermo_raw_files self ++ filter (λ f, PyStr.endswith f ".raw" = true) l
  ∧ files_to_convert self' = files_to_convert self
  ∧ raw_dir self' = raw_dir self
  ∧ thermo_file_parser self' = thermo_file_parser self
  ∧ conversion_start_time self' = conversion_start_time self
  ∧ conversion_end_time self' = conversion_end_time self.
Proof.
  revert self. induction l as [|f l IH]; intros self; simpl.
  - rewrite !app_nil_r. by split_and!.
  - specialize (IH (classify self f)). simpl in IH.
    destruct IH as (H1 & H2 & H3 & H4 & H5 & H6 & H7).
    rewrite H1, H2, H3, H4, H5, H6, H7, !filter_cons. unfold classify.
    pose proof (mzml_is_not_raw f) as Hne.
    destruct (PyStr.endswith f ".mzML") eqn:Em;
      [rewrite (Hne eq_refl) | destruct (PyStr.endswith f ".raw") eqn:Er];
      simpl; repeat case_decide; try done;
      rewrite <- ?app_assoc; by split_and!.
Qed.

(** The base name of a converted file is a given name exactly when the
    file is that name followed by [.mzML]. *)
Lemma base_of_converted (f : string) (l : list string) :
  f ∈ map (λ g, PyStr.slice_to_neg g 5)
          (filter (λ g, PyStr.endswith g ".mzML" = true) l)
  ↔ f +:+ ".mzML" ∈ l.
Proof.
  rewrite list_elem_of_fmap. split.
  - intros (g & -> & Hg). apply list_elem_of_filter in Hg as [Hm Hg].
    change 5 with (length (PyStr.chars ".mzML")).
    rewrite <- (endswith_split g ".mzML"); done.
  - intros H. exists (f +:+ ".mzML"). split.
    + symmetry. apply (SelectionProps.slice_to_neg_app f ".mzML"). done.
    + apply list_elem_of_filter. split; [|exact H].
      apply SelectionProps.endswith_app.
Qed.

(** X2 — in a raw directory that can be listed, a fresh [ConvertRawFiles]
    object records the names that end in [.mzML] as converted files and
    the names that end in [.raw] as Thermo files, reading only; and the
    first loop of [convert_raw_files] then selects for conversion exactly
    the [.raw] names [f] for which the directory holds no entry named [f]
    followed by [.mzML], the extension [.raw] included: [sample1.raw] is
    left out when there is a [sample1.raw.mzML], not when there is a
    [sample1.mzML]. *)
Theorem scan_and_selection
    (raw_dir parser : path) (w : World) :
  isdir (w_fs w) raw_dir = true →
  let names := children (w_fs w) raw_dir in
  ∃ self w',
    identify_raw_files (init raw_dir parser) w = (Val self, w')
    ∧ w_fs w' = w_fs w ∧ w_calls w' = w_calls w
    ∧ raw_files self = filter (λ f, PyStr.endswith f ".mzML" = true) names
    ∧ thermo_raw_files self
      = filter (λ f, PyStr.endswith f ".raw" = true) names
    ∧ files_to_convert (select_files_to_convert self)
      = filter (λ f, f +:+ ".mzML" ∉ names)
          (filter (λ f, PyStr.endswith f ".raw" = true) names).
Proof.
  intros Hdir names. unfold identify_raw_files. mrun. rewrite Hdir.
  rewrite bind_eq. unfold fs_try, listdir. simpl. rewrite Hdir. simpl.
  destruct (classify_fold names (init raw_dir parser))
    as (H1 & H2 & H3 & _).
  simpl in H1, H2, H3. fold names.
  eexists _, _. split; [reflexivity|]. simpl.
  split_and!; [reflexivity | reflexivity | exact H1 | exact H2 |].
  destruct (ConversionProps.select_files_to_convert_spec
              (foldl classify (init raw_dir parser) names))
    as (_ & _ & Hsel).
  rewrite Hsel, H1, H2, H3. simpl.
  apply list_filter_iff. intros f. by rewrite base_of_converted.
Qed.

(** The theorem on the sample workspace, in which [sample1.raw] has been
    converted. *)
Lemma scan_and_selection_witness :
  let w := initial_world Sample.fs_second_run ∅ in
  let names := children Sample.fs_second_run (cfg_raw_dir Sample.cfg) in
  ∃ self w',
    identify_raw_files
      (init (cfg_raw_dir Sample.cfg) (cfg_thermo_file_parser Sample.cfg)) w
    = (Val self, w')
    ∧ w_fs w' = w_fs w ∧ w_calls w' = w_calls w
    ∧ raw_files self = filter (λ f, PyStr.endswith f ".mzML" = true) names
    ∧ thermo_raw_files self
      = filter (λ f, PyStr.endswith f ".raw" = true) names
    ∧ files_to_convert (select_files_to_convert self)
      = filter (λ f, f +:+ ".mzML" ∉ names)
          (filter (λ f, PyStr.endswith f ".raw" = true) names).
Proof.
  apply (scan_and_selection (cfg_raw_dir Sample.cfg)
           (cfg_thermo_file_parser Sample.cfg)
           (initial_world Sample.fs_second_run ∅)).
  vm_compute. reflexivity.
Defined.

End ConversionScan.

(* ===================================================================== *)
(** * main.py: the summary *)
(* ===================================================================== *)

Module SummaryProps.
Import Main.Summary.

Lemma returns_ret {A} (a : A) : returns (mret a : M A).
Proof. intros w. by exists a. Qed.

Lemma returns_log (lvl : level) (msg : string) : returns (log lvl msg).
Proof. intros w. by exists tt. Qed.

Lemma returns_bind {A B} (m : M A) (k : A → M B) :
  returns m → (∀ a, returns (k a)) → returns (m ≫= k).
Proof.
  intros Hm Hk w. rewrite bind_eq. destruct (Hm w) as [a Ha].
  destruct (m w) as [[a'|e|c] w1]; simpl in Ha; try discriminate.
  apply Hk.
Qed.

Lemma never_returns_bind_l {A B} (m : M A) (k : A → M B) :
  never_returns m → never_returns (m ≫= k).
Proof.
  intros Hm w b. rewrite bind_eq. specialize (Hm w).
  destruct (m w) as [[a|e|c] w1]; simpl in *; [by destruct (Hm a) | done..].
Qed.

Lemma never_returns_bind_r {A B} (m : M A) (k : A → M B) :
  (∀ a, never_returns (k a)) → never_returns (m ≫= k).
Proof.
  intros Hk w b. rewrite bind_eq.
  destruct (m w) as [[a|e|c] w1]; simpl; [apply Hk | done..].
Qed.

Lemma elapsed_never_l (s : option Z) : never_returns (elapsed None s).
Proof. intros w a. done. Qed.

Lemma elapsed_never_r (e : option Z) : never_returns (elapsed e None).
Proof. intros w a. by destruct e. Qed.

Lemma len_never {A} : never_returns (len (A := A) None).
Proof. intros w a. done. Qed.

(** Finds the first statement of a sequence that cannot return. *)
Ltac first_failure :=
  first
    [ apply never_returns_bind_l;
      solve [apply elapsed_never_l | apply elapsed_never_r | apply len_never]
    | apply never_returns_bind_r; intros; first_failure ].

Section WithEnv.
Context (env : Env).

Lemma write_summary_preserves (self : t) :
  preserves (rel eq eq eq) (write_summary env self).
Proof. unfold write_summary, elapsed, len, mmss, strftime_gmtime. pres. Qed.

Lemma write_summary_returns (self : t) :
  ConvertRawFiles.files_to_convert (convert_raw_files self) = [] →
  returns (write_summary env self).
Proof.
  intros Hf. unfold write_summary. rewrite Hf.
  repeat first [ apply returns_bind; [|intros]
               | apply returns_log | apply returns_ret
               | match goal with
                 | |- returns (match ?x with _ => _ end) => destruct x
                 end ].
Qed.

Lemma write_summary_never_returns (self : t) :
  ConvertRawFiles.files_to_convert (convert_raw_files self) ≠ [] →
  ¬ all_timed self → never_returns (write_summary env self).
Proof.
  intros Hf Ht. unfold write_summary.
  destruct (ConvertRawFiles.files_to_convert (convert_raw_files self))
    as [|c cs]; [done|]. clear Hf.
  unfold all_timed in Ht. cbv zeta in Ht.
  destruct (ConvertRawFiles.conversion_end_time (convert_raw_files self));
    [|first_failure].
  destruct (ConvertRawFiles.conversion_start_time (convert_raw_files self));
    [|first_failure].
  destruct (DiaUmpire.umpire_end_time (dia_umpire self)); [|first_failure].
  destruct (DiaUmpire.umpire_start_time (dia_umpire self)); [|first_failure].
  destruct (SearchDatabase.search_end_time (search_database self));
    [|first_failure].
  destruct (SearchDatabase.search_start_time (search_database self));
    [|first_failure].
  destruct (to_search self); [|first_failure].
  destruct (PeptideShaker.shaker_end_time (prepare_peptideshaker self));
    [|first_failure].
  destruct (PeptideShaker.shaker_start_time (prepare_peptideshaker self));
    [|first_failure].
  destruct (Reports.reports_end_time (export_reports self));
    [|first_failure].
  destruct (Reports.reports_start_time (export_reports self));
    [|first_failure].
  destruct Ht. split_and!; by eexists.
Qed.

End WithEnv.

(** X3 — the summary changes no file, runs no command and never calls
    [sys.exit].  When no [.raw] file was selected for conversion it
    returns.  When some were, it needs the start and the end time of
    every stage and the list of the searched files: if one of them is
    still [None] (a stage was skipped or failed), it raises instead of
    returning. *)
Theorem summary_needs_every_timing (env : Env) (self : t) (w : World) :
  let r := write_summary env self w in
  w_fs r.2 = w_fs w ∧ w_calls r.2 = w_calls w
  ∧ (∀ c, r.1 ≠ Exit c)
  ∧ (ConvertRawFiles.files_to_convert (convert_raw_files self) = [] →
     r.1 = Val tt)
  ∧ (ConvertRawFiles.files_to_convert (convert_raw_files self) ≠ [] →
     ¬ all_timed self → ∃ e, r.1 = Exc e).
Proof.
  cbv zeta.
  pose proof (write_summary_preserves env self w) as (Hfs & Hc & _).
  assert (Hx : ∀ c, (write_summary env self w).1 ≠ Exit c).
  { intros c Hc'. exact (ExitProps.write_summary_no_exit env self w c Hc'). }
  split_and!; [by symmetry | by symmetry | exact Hx | |].
  - intros Hf. destruct (write_summary_returns env self Hf w) as [[] E].
    exact E.
  - intros Hf Ht. pose proof (write_summary_never_returns env self Hf Ht w).
    destruct (write_summary env self w).1 as [[]|e|c] eqn:E.
    + by destruct (H tt).
    + by exists e.
    + by destruct (Hx c).
Qed.

End SummaryProps.
